(** * BrainBuddy: the daily schedule generator

    A shallow embedding of [src/algorithms/TaskScoring.ts] and
    [src/algorithms/ScheduleGenerator.ts], with the properties the
    specification states about them.

    Conventions of the embedding.
    - A JavaScript [number] that carries a score, a weight or a
      complexity factor is an exact rational ([Q]); the arithmetic of the
      source is kept operation by operation, without the rounding of
      binary64.  Equalities between scores are therefore stated with
      [==].  Overflow and NaN, which exact arithmetic does not have,
      are studied on the binary64 rendering of the scoring functions
      in [Binary64].
    - Minutes are integers ([Z]); a [Date] is its epoch time in
      milliseconds ([Z]); the local time zone of the runtime is a
      [TimeZone], whose offset from UTC may change with the date.
    - An exception thrown by the source is the result [None].
    - [new Date()] reads a clock that is passed in as [now]; a run sees
      one frozen clock value.
    - [Math.random()] reads an entropy source, a sequence of values of
      the half-open unit interval, through an explicit cursor. *)

From Stdlib Require Import ZArith QArith Qabs Qminmax Qround.
From Stdlib Require Import Floats.PrimFloat.
From Stdlib Require Import Ascii String List Bool Permutation Sorted.
From Stdlib Require Import Lia Lqa.
Import ListNotations.

Local Open Scope Z_scope.

(** ** models/Task.ts *)

(** [DateType] without its [null] member, which is carried by [option]:
    a [Date], a Firestore [Timestamp] (an object with [toDate]) or a
    Firestore [FieldValue] sentinel. *)
Inductive DateType : Type :=
  | JsDate (epochMs : Z)
  | Timestamp (epochMs : Z)
  | FieldValue.

Record Task : Type := {
  id : string;
  urgency : Q;
  difficulty : Q;
  durationMinutes : Z;
  deadline : option DateType;
  tags : list string
}.

Record UserPreferences : Type := {
  userId : string;
  morningComplexFactor : Q;
  eveningComplexFactor : Q;
  morningAvailableTime : Z;
  eveningAvailableTime : Z
}.

(** ** algorithms/TaskScoring.ts *)

Inductive TimeOfDay : Type := MORNING | EVENING.

Module TaskScoring.

Local Open Scope Q_scope.

Definition URGENCY_WEIGHT : Q := 0.45.
Definition COGNITIVE_WEIGHT : Q := 0.35.
Definition DEADLINE_WEIGHT : Q := 0.20.

Definition calculateUrgencyScore (urgency : Q) : Q := urgency * 20.

(** The [switch] of the source has a [default] branch (factor 1.0) that
    no member of the enum reaches. *)
Definition complexFactorFor (userPrefs : UserPreferences) (timeOfDay : TimeOfDay) : Q :=
  match timeOfDay with
  | MORNING => morningComplexFactor userPrefs
  | EVENING => eveningComplexFactor userPrefs
  end.

Definition calculateCognitiveScore
    (difficulty : Q) (userPrefs : UserPreferences) (timeOfDay : TimeOfDay) : Q :=
  let complexFactor := complexFactorFor userPrefs timeOfDay in
  let normalizedDifficulty := difficulty / 5 in
  let alignmentScore :=
    100 - (Qabs (normalizedDifficulty - (complexFactor / 1.5)) * 100) in
  alignmentScore.

(** [convertToDate]: a [Date] is returned as it is, a [Timestamp] through
    [toDate], anything else falls back to the current date. *)
Definition convertToDate (now : Z) (date : option DateType) : Z :=
  match date with
  | None => now
  | Some (JsDate ms) => ms
  | Some (Timestamp ms) => ms
  | Some FieldValue => now
  end.

(** Hours between the clock and the converted deadline, clamped below
    at 0: [Math.max(0, (deadlineDate.getTime() - now.getTime()) / (1000 * 60 * 60))]. *)
Definition hoursUntilDeadline (now : Z) (deadline : DateType) : Q :=
  Qmax 0 (inject_Z (convertToDate now (Some deadline) - now)
          / inject_Z (1000 * 60 * 60)).

Definition calculateDeadlineScore (now : Z) (deadline : option DateType) : Q :=
  match deadline with
  | None => 0
  | Some d => 100 * (1 / (1 + 0.01 * hoursUntilDeadline now d))
  end.

Definition calculateTaskScore
    (now : Z) (task : Task) (userPrefs : UserPreferences) (timeOfDay : TimeOfDay) : Q :=
  let urgencyScore := calculateUrgencyScore (urgency task) in
  let cognitiveScore := calculateCognitiveScore (difficulty task) userPrefs timeOfDay in
  let deadlineScore := calculateDeadlineScore now (deadline task) in
  let totalScore :=
    (urgencyScore * URGENCY_WEIGHT) +
    (cognitiveScore * COGNITIVE_WEIGHT) +
    (deadlineScore * DEADLINE_WEIGHT) in
  Qmin 100 (Qmax 0 totalScore).

End TaskScoring.

(** ** algorithms/TaskScoring.ts on binary64 numbers

    The same functions with the [number]s of the source as IEEE 754
    binary64 values and its operators as the binary64 operations, for
    the inputs on which a product overflows or a sum is not a number.
    The literals of the source are read as the runtime reads them, to
    the nearest binary64 value. *)

Module Binary64.

Local Open Scope float_scope.

(** The fields of a task and of the preferences that the scoring reads. *)
Record Task : Type := {
  urgency : float;
  difficulty : float;
  deadline : option DateType
}.

Record UserPreferences : Type := {
  morningComplexFactor : float;
  eveningComplexFactor : float
}.

(** [Math.max] and [Math.min] of two numbers: NaN when either is NaN,
    and [+0] counts as larger than [-0]. *)
Definition mathMax (a b : float) : float :=
  if (is_nan a || is_nan b)%bool then nan
  else if a <? b then b
  else if b <? a then a
  else if get_sign a then b else a.

Definition mathMin (a b : float) : float :=
  if (is_nan a || is_nan b)%bool then nan
  else if a <? b then a
  else if b <? a then b
  else if get_sign a then a else b.

(** The time value of a [Date], an integer of magnitude at most
    8.64e15 and therefore a binary64 value. *)
Fixpoint ofPositive (p : positive) : float :=
  match p with
  | xH => 1
  | xO q => 2 * ofPositive q
  | xI q => 2 * ofPositive q + 1
  end.

Definition getTime (date : Z) : float :=
  match date with
  | Z0 => 0
  | Zpos p => ofPositive p
  | Zneg p => - ofPositive p
  end.

Definition URGENCY_WEIGHT : float := 0.45.
Definition COGNITIVE_WEIGHT : float := 0.35.
Definition DEADLINE_WEIGHT : float := 0.20.

Definition calculateUrgencyScore (urgency : float) : float := urgency * 20.

Definition calculateCognitiveScore
    (difficulty : float) (userPrefs : UserPreferences) (timeOfDay : TimeOfDay) : float :=
  let complexFactor :=
    match timeOfDay with
    | MORNING => morningComplexFactor userPrefs
    | EVENING => eveningComplexFactor userPrefs
    end in
  let normalizedDifficulty := difficulty / 5 in
  let alignmentScore :=
    100 - (abs (normalizedDifficulty - (complexFactor / 1.5)) * 100) in
  alignmentScore.

Definition calculateDeadlineScore (now : Z) (deadline : option DateType) : float :=
  match deadline with
  | None => 0
  | Some d =>
      let deadlineDate := TaskScoring.convertToDate now (Some d) in
      let hoursUntilDeadline :=
        mathMax 0 ((getTime deadlineDate - getTime now) / (1000 * 60 * 60)) in
      100 * (1 / (1 + 0.01 * hoursUntilDeadline))
  end.

Definition calculateTaskScore
    (now : Z) (task : Task) (userPrefs : UserPreferences) (timeOfDay : TimeOfDay) : float :=
  let urgencyScore := calculateUrgencyScore (urgency task) in
  let cognitiveScore := calculateCognitiveScore (difficulty task) userPrefs timeOfDay in
  let deadlineScore := calculateDeadlineScore now (deadline task) in
  let totalScore :=
    (urgencyScore * URGENCY_WEIGHT) +
    (cognitiveScore * COGNITIVE_WEIGHT) +
    (deadlineScore * DEADLINE_WEIGHT) in
  mathMin 100 (mathMax 0 totalScore).

End Binary64.

(** ** utils/idGenerator.ts *)

(** A value of [Math.random()]: a rational of the half-open interval
    from 0 (included) to 1 (excluded). *)
Record UnitInterval : Type := {
  u_val : Q;
  u_range : Qle_bool 0 u_val && negb (Qle_bool 1 u_val) = true
}.

(** The entropy source behind [Math.random()]; the n-th call returns the
    n-th value, and every function that draws threads the cursor. *)
Definition Entropy : Type := nat -> UnitInterval.

Definition mathRandom (entropy : Entropy) (cursor : nat) : Q * nat :=
  (u_val (entropy cursor), S cursor).

(** [generateUniqueId] joins the base-36 renderings of [Date.now()] and
    of a random draw; the rendering is not modelled, the identifier is
    kept as its two components. *)
Record UniqueId : Type := {
  timestampComponent : Z;
  randomComponent : Q
}.

Definition generateUniqueId (entropy : Entropy) (now : Z) (cursor : nat) : UniqueId * nat :=
  let (r, cursor') := mathRandom entropy cursor in
  ({| timestampComponent := now; randomComponent := r |}, cursor').

(** ** The local time zone

    A [Date] holds an instant; its local fields ([getHours],
    [getMinutes], ...) are those of the local time of the runtime, and
    a setter computes on the local time and reads the result back as an
    instant.  ECMAScript describes the zone by [LocalTZA(t, isUTC)]:
    the offset of the local time from UTC, in milliseconds, at an
    instant ([isUTC] true) and for a local time ([isUTC] false).  The
    two differ around a change of offset, such as the start or the end
    of daylight saving time. *)
Record TimeZone : Type := {
  offsetAtInstant : Z -> Z;
  offsetAtLocal : Z -> Z
}.

(** [LocalTime(t)] and [UTC(t)]. *)
Definition localTime (zone : TimeZone) (instant : Z) : Z :=
  instant + offsetAtInstant zone instant.
Definition utcTime (zone : TimeZone) (local : Z) : Z :=
  local - offsetAtLocal zone local.

(** A zone that is always [offsetMs] ahead of UTC. *)
Definition fixedOffset (offsetMs : Z) : TimeZone :=
  {| offsetAtInstant := fun _ => offsetMs; offsetAtLocal := fun _ => offsetMs |}.

(** ** Arrays *)

(** [Array.prototype.sort(compareFn)]: the sort is stable, and [compareFn
    a b] is negative when [a] goes first.  An element is inserted in
    front of the first element it does not have to follow, so equal
    elements keep their order. *)
Fixpoint sortInsert {T : Type} (compareFn : T -> T -> Q) (x : T) (l : list T) : list T :=
  match l with
  | [] => [x]
  | y :: l' =>
      if Qle_bool (compareFn x y) 0 then x :: y :: l'
      else y :: sortInsert compareFn x l'
  end.

Definition arraySort {T : Type} (compareFn : T -> T -> Q) (array : list T) : list T :=
  fold_right (sortInsert compareFn) [] array.

(** [array[n] = x] for an index inside the array. *)
Fixpoint arraySet {T : Type} (n : nat) (x : T) (array : list T) : list T :=
  match array, n with
  | [], _ => []
  | _ :: rest, O => x :: rest
  | y :: rest, S n' => y :: arraySet n' x rest
  end.

(** [[a[i], a[j]] = [a[j], a[i]]]; the shuffle only uses indices inside
    the array, outside of them the array is left alone here. *)
Definition arraySwap {T : Type} (i j : nat) (array : list T) : list T :=
  match nth_error array i, nth_error array j with
  | Some a, Some b => arraySet j a (arraySet i b array)
  | _, _ => array
  end.

(** [Math.max(...scores)] of a non-empty array (the source never
    applies it to an empty one). *)
Definition mathMax (scores : list Q) : Q :=
  match scores with
  | [] => 0%Q
  | s :: rest => fold_left Qmax rest s
  end.

(** ** algorithms/ScheduleGenerator.ts *)

Module ScoredTask.
Record t : Type := {
  task : Task;
  morningScore : Q;
  eveningScore : Q
}.
End ScoredTask.

Module TimeBlock.
Record t : Type := {
  timeOfDay : TimeOfDay;
  startTime : Z;
  endTime : Z;
  availableMinutes : Z
}.
End TimeBlock.

Module ScheduledTask.
Record t : Type := {
  taskId : string;
  startTime : Z;
  endTime : Z;
  completed : bool
}.
End ScheduledTask.

Module ScheduleOption.
Record t : Type := {
  id : UniqueId;
  userId : string;
  date : Z;
  tasks : list ScheduledTask.t;
  totalScore : Q;
  selected : bool;
  createdAt : Z
}.
End ScheduleOption.

Inductive Strategy : Type := priority | balanced | grouped.

Module ScheduleGenerator.

Import ScoredTask.

(** [Date.prototype.getHours]: the hour of the local time. *)
Definition getHours (zone : TimeZone) (date : Z) : Z :=
  (localTime zone date / 3600000) mod 24.

(** [setHours(h, 0, 0, 0)]: the given hour of the same local day, read
    back as an instant. *)
Definition setHours (zone : TimeZone) (date : Z) (h : Z) : Z :=
  utcTime zone ((localTime zone date / 86400000) * 86400000 + h * 3600000).

(** [d.setMinutes(d.getMinutes() + m)] and [d.setHours(d.getHours() + h)]
    move the local time by that many minutes or hours and read the
    result back as an instant; the other fields of the local time are
    kept, and a sum outside the range of the field carries over. *)
Definition addMinutes (zone : TimeZone) (date : Z) (m : Z) : Z :=
  utcTime zone (localTime zone date + m * 60000).
Definition addHours (zone : TimeZone) (date : Z) (h : Z) : Z :=
  utcTime zone (localTime zone date + h * 3600000).

(** Fisher-Yates, [for (let i = result.length - 1; i > 0; i--)]. *)
Fixpoint shuffleLoop {T : Type} (entropy : Entropy) (i : nat) (result : list T) (cursor : nat)
    : list T * nat :=
  match i with
  | O => (result, cursor)
  | S i' =>
      let (r, cursor') := mathRandom entropy cursor in
      let j := Z.to_nat (Qfloor (r * inject_Z (Z.of_nat i + 1))) in
      shuffleLoop entropy i' (arraySwap i j result) cursor'
  end.

Definition shuffleArray {T : Type} (entropy : Entropy) (array : list T) (cursor : nat)
    : list T * nat :=
  shuffleLoop entropy (List.length array - 1) array cursor.

Definition jitter (variance : Q) (score r : Q) : Q :=
  Qmin 100 (Qmax 0 (score + (r * 2 - 1) * variance)).

Fixpoint addRandomnessToScores (entropy : Entropy) (variance : Q)
    (tasks : list ScoredTask.t) (cursor : nat) : list ScoredTask.t * nat :=
  match tasks with
  | [] => ([], cursor)
  | t :: rest =>
      let (r1, cursor1) := mathRandom entropy cursor in
      let (r2, cursor2) := mathRandom entropy cursor1 in
      let t' := {| task := task t;
                   morningScore := jitter variance (morningScore t) r1;
                   eveningScore := jitter variance (eveningScore t) r2 |} in
      let (rest', cursor') := addRandomnessToScores entropy variance rest cursor2 in
      (t' :: rest', cursor')
  end.

Definition getDefaultFreeTime (userPrefs : UserPreferences) : Z :=
  morningAvailableTime userPrefs + eveningAvailableTime userPrefs.

Definition scoreTasks (now : Z) (tasks : list Task) (userPrefs : UserPreferences)
    : list ScoredTask.t :=
  map (fun task =>
         {| task := task;
            morningScore := TaskScoring.calculateTaskScore now task userPrefs MORNING;
            eveningScore := TaskScoring.calculateTaskScore now task userPrefs EVENING |})
      tasks.

Definition prepareTimeBlocksFromStartTime (zone : TimeZone) (startTime : Z) (totalMinutes : Z)
    : list TimeBlock.t :=
  let currentHour := getHours zone startTime in
  let timeOfDay :=
    if (5 <=? currentHour) && (currentHour <? 12) then MORNING else EVENING in
  let endTime := startTime + totalMinutes * 60 * 1000 in
  [ {| TimeBlock.timeOfDay := timeOfDay;
       TimeBlock.startTime := startTime;
       TimeBlock.endTime := endTime;
       TimeBlock.availableMinutes := totalMinutes |} ].

Definition prepareTimeBlocks (zone : TimeZone) (date : Z) (userPrefs : UserPreferences)
    : list TimeBlock.t :=
  let dayStart := setHours zone date 8 in
  let morning :=
    if 0 <? morningAvailableTime userPrefs then
      [ {| TimeBlock.timeOfDay := MORNING;
           TimeBlock.startTime := dayStart;
           TimeBlock.endTime := addHours zone dayStart 4;
           TimeBlock.availableMinutes := morningAvailableTime userPrefs |} ]
    else [] in
  let evening :=
    if 0 <? eveningAvailableTime userPrefs then
      let eveningStart := setHours zone dayStart 17 in
      [ {| TimeBlock.timeOfDay := EVENING;
           TimeBlock.startTime := eveningStart;
           TimeBlock.endTime := addHours zone eveningStart 5;
           TimeBlock.availableMinutes := eveningAvailableTime userPrefs |} ]
    else [] in
  morning ++ evening.

Definition getScoreForTimeOfDay (scoredTask : ScoredTask.t) (timeOfDay : TimeOfDay) : Q :=
  match timeOfDay with
  | MORNING => morningScore scoredTask
  | EVENING => eveningScore scoredTask
  end.

(** The comparator shared by the three strategies: [bScore - aScore]. *)
Definition byScoreDescending (timeOfDay : TimeOfDay) (a b : ScoredTask.t) : Q :=
  (getScoreForTimeOfDay b timeOfDay - getScoreForTimeOfDay a timeOfDay)%Q.

Definition sortTasksByTimeOfDay (tasks : list ScoredTask.t) (timeOfDay : TimeOfDay)
    : list ScoredTask.t :=
  arraySort (byScoreDescending timeOfDay) tasks.


(** *** The category table

    [tasksByCategory] is a plain object ([{}]) used as a map from
    category name to an array of tasks.  Two properties of such an
    object reach the strategies.
    - Reading a name that the object does not own finds what
      [Object.prototype] holds under that name.  For the names that
      every object inherits, [!tasksByCategory[category]] is therefore
      false, no array is created, and [push] is called on the inherited
      value, which throws a [TypeError].
    - [Object.keys] and [for ... in] list the own keys that are array
      indices first, in ascending numeric order, and then the other
      keys in the order of their creation.
    The table is kept as an association list in the order in which the
    object lists its keys. *)
Definition CategoryTable : Type := list (string * list ScoredTask.t).

(** The property names of [Object.prototype] (ECMAScript, Annex B
    included); the value found under each of them is an object or a
    function, hence truthy. *)
Definition inheritedProperties : list string :=
  [ "constructor"; "hasOwnProperty"; "isPrototypeOf"; "propertyIsEnumerable";
    "toLocaleString"; "toString"; "valueOf"; "__proto__";
    "__defineGetter__"; "__defineSetter__"; "__lookupGetter__"; "__lookupSetter__" ]%string.

Definition inheritedProperty (name : string) : bool :=
  existsb (String.eqb name) inheritedProperties.

(** An array index is the canonical decimal numeral of an integer from
    0 to 2^32 - 2: digits only, no leading zero but for ["0"] itself. *)
Definition digitValue (c : ascii) : option N :=
  let n := N_of_ascii c in
  if (48 <=? n)%N && (n <=? 57)%N then Some (n - 48)%N else None.

Fixpoint numeralValue (digits : string) (acc : N) : option N :=
  match digits with
  | EmptyString => Some acc
  | String c rest =>
      match digitValue c with
      | Some d => numeralValue rest (10 * acc + d)%N
      | None => None
      end
  end.

Definition arrayIndex (name : string) : option N :=
  match name with
  | EmptyString => None
  | String c rest =>
      if Ascii.eqb c "0"%char then
        match rest with EmptyString => Some 0%N | String _ _ => None end
      else
        match numeralValue name 0 with
        | Some n => if (n <? 4294967295)%N then Some n else None
        | None => None
        end
  end.

(** Whether the object lists a new key [name] before its key [other]. *)
Definition listedBefore (name other : string) : bool :=
  match arrayIndex name, arrayIndex other with
  | Some n, Some m => (n <? m)%N
  | Some _, None => true
  | None, _ => false
  end.

(** [task.task.tags.length > 0 ? task.task.tags[0] : 'untagged'] *)
Definition categoryOf (scoredTask : ScoredTask.t) : string :=
  match tags (task scoredTask) with
  | tag :: _ => tag
  | [] => "untagged"%string
  end.

(** [tasksByCategory[category]] for a key of the object, the empty
    array standing for a key it does not own. *)
Fixpoint tableGet (category : string) (table : CategoryTable) : list ScoredTask.t :=
  match table with
  | [] => []
  | (c, ts) :: rest =>
      if String.eqb c category then ts else tableGet category rest
  end.

(** Replaces the array stored under an existing key. *)
Fixpoint tableSet (category : string) (ts' : list ScoredTask.t) (table : CategoryTable)
    : CategoryTable :=
  match table with
  | [] => []
  | (c, ts) :: rest =>
      if String.eqb c category then (c, ts') :: rest
      else (c, ts) :: tableSet category ts' rest
  end.

(** Whether the object owns the key. *)
Definition tableOwns (category : string) (table : CategoryTable) : bool :=
  existsb (String.eqb category) (map fst table).

(** [tasksByCategory[category] = []] for a key that the object does not
    own yet: the new key takes its place in the listing order. *)
Fixpoint tableCreate (category : string) (table : CategoryTable) : CategoryTable :=
  match table with
  | [] => [(category, [])]
  | (c, ts) :: rest =>
      if listedBefore category c then (category, []) :: (c, ts) :: rest
      else (c, ts) :: tableCreate category rest
  end.

(** [tasksByCategory[category].push(task)] on an own key. *)
Fixpoint tableAppend (category : string) (scoredTask : ScoredTask.t) (table : CategoryTable)
    : CategoryTable :=
  match table with
  | [] => []
  | (c, ts) :: rest =>
      if String.eqb c category then (c, ts ++ [scoredTask]) :: rest
      else (c, ts) :: tableAppend category scoredTask rest
  end.

(** [if (!tasksByCategory[category]) tasksByCategory[category] = [];
    tasksByCategory[category].push(task)]: an own key holds an array,
    which is truthy; a name that is neither owned nor inherited reads
    as [undefined] and gets its array; an inherited name reads as the
    inherited value, on which [push] throws. *)
Definition tablePush (category : string) (scoredTask : ScoredTask.t) (table : CategoryTable)
    : option CategoryTable :=
  if tableOwns category table then Some (tableAppend category scoredTask table)
  else if inheritedProperty category then None
  else Some (tableAppend category scoredTask (tableCreate category table)).

(** [for (const task of tasks) { ... }], the grouping loop of both
    strategies. *)
Definition groupByCategory (tasks : list ScoredTask.t) : option CategoryTable :=
  fold_left
    (fun byCategory t =>
       match byCategory with
       | Some table => tablePush (categoryOf t) t table
       | None => None
       end)
    tasks (Some []).

Definition objectKeys (table : CategoryTable) : list string := map fst table.

(** [for (const category in tasksByCategory) tasksByCategory[category].sort(...)] *)
Definition sortEachCategory (timeOfDay : TimeOfDay) (table : CategoryTable) : CategoryTable :=
  map (fun entry => (fst entry, arraySort (byScoreDescending timeOfDay) (snd entry))) table.

(** *** The balanced strategy *)

Record Interleave : Type := {
  categoriesWithTasks : list string;
  tasksByCategory : CategoryTable;
  result : list ScoredTask.t
}.

(** The [for] loop of one round, from index [i].  One unit of [fuel] is
    one evaluation of the loop condition; an iteration either advances
    [i] or removes the current category from [categoriesWithTasks]
    (the [i--] of the source cancels the [i++] of the loop), so the
    length of [categoriesWithTasks] is enough fuel. *)
Fixpoint interleaveRound (fuel : nat) (i : nat) (st : Interleave) : Interleave :=
  match fuel with
  | O => st
  | S fuel' =>
      match nth_error (categoriesWithTasks st) i with
      | None => st
      | Some category =>
          match tableGet category (tasksByCategory st) with
          | [] => interleaveRound fuel' (S i) st
          | first :: categoryTasks =>
              let table' := tableSet category categoryTasks (tasksByCategory st) in
              let result' := result st ++ [first] in
              match categoryTasks with
              | [] =>
                  interleaveRound fuel' i
                    {| categoriesWithTasks :=
                         filter (fun c => negb (String.eqb c category)) (categoriesWithTasks st);
                       tasksByCategory := table';
                       result := result' |}
              | _ :: _ =>
                  interleaveRound fuel' (S i)
                    {| categoriesWithTasks := categoriesWithTasks st;
                       tasksByCategory := table';
                       result := result' |}
              end
          end
      end
  end.

(** [while (categoriesWithTasks.length > 0)], one unit of [fuel] per
    test of the condition. *)
Fixpoint interleaveLoop (fuel : nat) (st : Interleave) : Interleave :=
  match fuel with
  | O => st
  | S fuel' =>
      match categoriesWithTasks st with
      | [] => st
      | _ :: _ =>
          interleaveLoop fuel'
            (interleaveRound (List.length (categoriesWithTasks st)) 0 st)
      end
  end.

(** Every round takes at least one task, so one round per task and a
    last test of the condition are enough.  The result is [None] when
    the grouping loop throws. *)
Definition balanceTaskCategories (tasks : list ScoredTask.t) (timeOfDay : TimeOfDay)
    : option (list ScoredTask.t) :=
  match groupByCategory tasks with
  | None => None
  | Some byCategory =>
      let table := sortEachCategory timeOfDay byCategory in
      Some (result
              (interleaveLoop (S (List.length tasks))
                 {| categoriesWithTasks := objectKeys table;
                    tasksByCategory := table;
                    result := [] |}))
  end.

(** *** The grouped strategy *)

Definition categoryMaxScore (table : CategoryTable) (timeOfDay : TimeOfDay) (category : string) : Q :=
  mathMax (map (fun t => getScoreForTimeOfDay t timeOfDay) (tableGet category table)).

Definition groupSimilarTasks (tasks : list ScoredTask.t) (timeOfDay : TimeOfDay)
    : option (list ScoredTask.t) :=
  match groupByCategory tasks with
  | None => None
  | Some table =>
      let sortedCategories :=
        arraySort
          (fun a b => (categoryMaxScore table timeOfDay b - categoryMaxScore table timeOfDay a)%Q)
          (objectKeys table) in
      let table' := sortEachCategory timeOfDay table in
      Some (flat_map (fun category => tableGet category table') sortedCategories)
  end.

(** *** Packing a block *)

Definition orderForStrategy (strategy : Strategy)
    (availableTasks : list ScoredTask.t) (timeOfDay : TimeOfDay)
    : option (list ScoredTask.t) :=
  match strategy with
  | priority => Some (sortTasksByTimeOfDay availableTasks timeOfDay)
  | balanced => balanceTaskCategories availableTasks timeOfDay
  | grouped => groupSimilarTasks availableTasks timeOfDay
  end.

(** [availableTasks.findIndex(t => t.task.id === id)] followed by
    [splice(index, 1)] when an index was found. *)
Fixpoint removeById (taskId : string) (availableTasks : list ScoredTask.t) : list ScoredTask.t :=
  match availableTasks with
  | [] => []
  | t :: rest =>
      if String.eqb (id (task t)) taskId then rest
      else t :: removeById taskId rest
  end.

(** The variables the allocation loop updates. *)
Record Allocation : Type := {
  currentTime : Z;
  remainingMinutes : Z;
  scheduledTasks : list ScheduledTask.t;
  totalScore : Q;
  availableTasks : list ScoredTask.t
}.

Definition placeTask (zone : TimeZone) (timeOfDay : TimeOfDay) (scoredTask : ScoredTask.t)
    (st : Allocation) : Allocation :=
  let task := task scoredTask in
  let taskEndTime := addMinutes zone (currentTime st) (durationMinutes task) in
  {| currentTime := taskEndTime;
     remainingMinutes := remainingMinutes st - durationMinutes task;
     scheduledTasks :=
       scheduledTasks st ++
       [ {| ScheduledTask.taskId := id task;
            ScheduledTask.startTime := currentTime st;
            ScheduledTask.endTime := taskEndTime;
            ScheduledTask.completed := false |} ];
     totalScore := (totalScore st + getScoreForTimeOfDay scoredTask timeOfDay)%Q;
     availableTasks := removeById (id task) (availableTasks st) |}.

(** [for (let i = 0; i < blockTasks.length; i++)] with its [continue]
    and its [break]. *)
Fixpoint allocate (zone : TimeZone) (timeOfDay : TimeOfDay) (blockTasks : list ScoredTask.t)
    (st : Allocation) : Allocation :=
  match blockTasks with
  | [] => st
  | scoredTask :: rest =>
      if durationMinutes (task scoredTask) >? remainingMinutes st then
        allocate zone timeOfDay rest st
      else
        let st' := placeTask zone timeOfDay scoredTask st in
        if remainingMinutes st' <? 15 then st'
        else allocate zone timeOfDay rest st'
  end.

(** The state in which the allocation loop of a block starts:
    [remainingMinutes = block.availableMinutes] and
    [currentTime = new Date(block.startTime)]; the schedule so far, its
    score and the tasks still available come from the blocks before. *)
Definition blockStart (block : TimeBlock.t) (st : Allocation) : Allocation :=
  {| currentTime := TimeBlock.startTime block;
     remainingMinutes := TimeBlock.availableMinutes block;
     scheduledTasks := scheduledTasks st;
     totalScore := totalScore st;
     availableTasks := availableTasks st |}.

(** The state before the first block: [availableTasks = [...scoredTasks]],
    [scheduledTasks = []], [totalScore = 0]. *)
Definition nothingScheduled (scoredTasks : list ScoredTask.t) : Allocation :=
  {| currentTime := 0;
     remainingMinutes := 0;
     scheduledTasks := [];
     totalScore := 0%Q;
     availableTasks := scoredTasks |}.

(** The body of [for (const block of timeBlocks)]; [None] when the
    strategy throws. *)
Definition processBlock (zone : TimeZone) (strategy : Strategy) (st : Allocation)
    (block : TimeBlock.t) : option Allocation :=
  match orderForStrategy strategy (availableTasks st) (TimeBlock.timeOfDay block) with
  | None => None
  | Some blockTasks =>
      Some (allocate zone (TimeBlock.timeOfDay block) blockTasks (blockStart block st))
  end.

Definition processBlocks (zone : TimeZone) (strategy : Strategy)
    (scoredTasks : list ScoredTask.t) (timeBlocks : list TimeBlock.t) : option Allocation :=
  fold_left
    (fun state block =>
       match state with
       | Some st => processBlock zone strategy st block
       | None => None
       end)
    timeBlocks (Some (nothingScheduled scoredTasks)).

Definition generatePriorityBasedSchedule (entropy : Entropy) (now : Z) (zone : TimeZone)
    (scoredTasks : list ScoredTask.t) (timeBlocks : list TimeBlock.t)
    (userPrefs : UserPreferences) (date : Z) (strategy : Strategy) (cursor : nat)
    : option (ScheduleOption.t * nat) :=
  match processBlocks zone strategy scoredTasks timeBlocks with
  | None => None
  | Some final =>
      let (uid, cursor') := generateUniqueId entropy now cursor in
      Some ({| ScheduleOption.id := uid;
               ScheduleOption.userId := userId userPrefs;
               ScheduleOption.date := date;
               ScheduleOption.tasks := scheduledTasks final;
               ScheduleOption.totalScore := totalScore final;
               ScheduleOption.selected := false;
               ScheduleOption.createdAt := now |}, cursor')
  end.

(** [freeTimeMinutes || getDefaultFreeTime(userPrefs)]: an absent budget
    and a budget of 0 are both falsy. *)
Definition budgetOrDefault (freeTimeMinutes : option Z) (userPrefs : UserPreferences) : Z :=
  match freeTimeMinutes with
  | Some m => if m =? 0 then getDefaultFreeTime userPrefs else m
  | None => getDefaultFreeTime userPrefs
  end.

(** Step 2 of [generateDailySchedules]. *)
Definition dailyTimeBlocks (zone : TimeZone) (userPrefs : UserPreferences)
    (startTime : Z) (freeTimeMinutes : option Z) : list TimeBlock.t :=
  prepareTimeBlocksFromStartTime zone startTime (budgetOrDefault freeTimeMinutes userPrefs).

Definition DEFAULT_VARIANCE : Q := 5.

(** The three options, or [None] when building one of them throws. *)
Definition generateDailySchedules (entropy : Entropy) (now : Z) (zone : TimeZone)
    (tasks : list Task) (userPrefs : UserPreferences)
    (startTime : Z) (freeTimeMinutes : option Z) (date : Z)
    : option (list ScheduleOption.t) :=
  let scoredTasks := scoreTasks now tasks userPrefs in
  let (shuffled1, c1) := shuffleArray entropy scoredTasks O in
  let (shuffledForBalanced, c2) := addRandomnessToScores entropy DEFAULT_VARIANCE shuffled1 c1 in
  let (shuffled2, c3) := shuffleArray entropy scoredTasks c2 in
  let (shuffledForGrouped, c4) := addRandomnessToScores entropy DEFAULT_VARIANCE shuffled2 c3 in
  let timeBlocks := dailyTimeBlocks zone userPrefs startTime freeTimeMinutes in
  match generatePriorityBasedSchedule entropy now zone scoredTasks timeBlocks
          userPrefs date priority c4 with
  | None => None
  | Some (option1, c5) =>
      match generatePriorityBasedSchedule entropy now zone shuffledForBalanced timeBlocks
              userPrefs date balanced c5 with
      | None => None
      | Some (option2, c6) =>
          match generatePriorityBasedSchedule entropy now zone shuffledForGrouped timeBlocks
                  userPrefs date grouped c6 with
          | None => None
          | Some (option3, _) => Some [option1; option2; option3]
          end
      end
  end.

Definition generateScheduleOptions := generateDailySchedules.

End ScheduleGenerator.

(** ** The strategies and the packer in the words of the specification

    The definitions of this module follow the specification; the
    properties below compare them with the functions of the source. *)

Module Described.

Import ScoredTask ScheduleGenerator.

(** The category of a task: its first tag, or "untagged". *)
Definition taskCategory (task : Task) : string :=
  match tags task with
  | tag :: _ => tag
  | [] => "untagged"%string
  end.

(** The categories of a task list, each once, in the order in which
    they first appear. *)
Definition categoriesInOrder (tasks : list ScoredTask.t) : list string :=
  fold_left
    (fun seen t =>
       if existsb (String.eqb (categoryOf t)) seen then seen
       else seen ++ [categoryOf t])
    tasks [].

(** Whether a key is an array index, and the order in which an object
    lists two keys that are: by ascending index. *)
Definition isArrayIndex (name : string) : bool :=
  match arrayIndex name with
  | Some _ => true
  | None => false
  end.

Definition indexOrder (a b : string) : Prop :=
  match arrayIndex a, arrayIndex b with
  | Some n, Some m => (n <= m)%N
  | _, _ => True
  end.

(** The tasks of one category, in the order of the task list. *)
Definition tasksOfCategory (category : string) (tasks : list ScoredTask.t)
    : list ScoredTask.t :=
  filter (fun t => String.eqb (categoryOf t) category) tasks.

(** Partition by category, each category sorted by descending score for
    the time of day, the categories in a given order. *)
Definition sortedCategories (categories : list string) (tasks : list ScoredTask.t)
    (timeOfDay : TimeOfDay) : list (list ScoredTask.t) :=
  map (fun c => arraySort (byScoreDescending timeOfDay) (tasksOfCategory c tasks))
      categories.

(** Round [k] of a round-robin takes the k-th task of every category
    that still has one, in category order. *)
Definition nthRound {T : Type} (k : nat) (groups : list (list T)) : list T :=
  flat_map (fun g => match nth_error g k with Some t => [t] | None => [] end) groups.

Definition roundsUpTo {T : Type} (n : nat) (groups : list (list T)) : list T :=
  flat_map (fun k => nthRound k groups) (seq 0 n).

(** Round after round until all tasks are consumed; there are never
    more rounds than tasks. *)
Definition roundRobin {T : Type} (groups : list (list T)) : list T :=
  roundsUpTo (List.length (concat groups)) groups.

(** Best score of a group of tasks. *)
Definition bestScore (timeOfDay : TimeOfDay) (group : list ScoredTask.t) : Q :=
  mathMax (map (fun t => getScoreForTimeOfDay t timeOfDay) group).

(** Consecutive slots from [start], one per placed task, each ending
    its task's duration after its start on the local clock. *)
Fixpoint slots (zone : TimeZone) (start : Z) (placed : list ScoredTask.t)
    : list ScheduledTask.t :=
  match placed with
  | [] => []
  | t :: rest =>
      {| ScheduledTask.taskId := id (task t);
         ScheduledTask.startTime := start;
         ScheduledTask.endTime := addMinutes zone start (durationMinutes (task t));
         ScheduledTask.completed := false |}
      :: slots zone (addMinutes zone start (durationMinutes (task t))) rest
  end.

(** The packer in the words of the specification: walk the candidates
    in order; skip one that is longer than the minutes remaining; place
    the others; stop after a placement that leaves fewer than 15
    minutes. *)
Fixpoint packed (remaining : Z) (candidates : list ScoredTask.t) : list ScoredTask.t :=
  match candidates with
  | [] => []
  | t :: rest =>
      if remaining <? durationMinutes (task t) then packed remaining rest
      else if remaining - durationMinutes (task t) <? 15 then [t]
      else t :: packed (remaining - durationMinutes (task t)) rest
  end.

Definition totalDuration (placed : list ScoredTask.t) : Z :=
  fold_right (fun t acc => durationMinutes (task t) + acc) 0 placed.

(** The option returned for the final state of an allocation. *)
Definition optionOf (uid : UniqueId) (now : Z) (userPrefs : UserPreferences) (date : Z)
    (final : Allocation) : ScheduleOption.t :=
  {| ScheduleOption.id := uid;
     ScheduleOption.userId := userId userPrefs;
     ScheduleOption.date := date;
     ScheduleOption.tasks := scheduledTasks final;
     ScheduleOption.totalScore := totalScore final;
     ScheduleOption.selected := false;
     ScheduleOption.createdAt := now |}.

(** Every placed task fitted into the minutes that remained when its
    turn came. *)
Fixpoint placedWithinRemaining (remaining : Z) (placed : list ScoredTask.t) : Prop :=
  match placed with
  | [] => True
  | t :: rest =>
      durationMinutes (task t) <= remaining
      /\ placedWithinRemaining (remaining - durationMinutes (task t)) rest
  end.

(** [Subsequence l1 l2]: [l1] is [l2] with some elements left out. *)
Inductive Subsequence {T : Type} : list T -> list T -> Prop :=
  | sub_nil : Subsequence [] []
  | sub_skip : forall x l1 l2, Subsequence l1 l2 -> Subsequence l1 (x :: l2)
  | sub_take : forall x l1 l2, Subsequence l1 l2 -> Subsequence (x :: l1) (x :: l2).

(** Views of the interleaving loop used in its proof: the categories
    that still have tasks, each with its remaining tasks. *)
Definition LiveCategories : Type := list (string * list ScoredTask.t).

Definition hasTasks (entry : string * list ScoredTask.t) : bool :=
  match snd entry with [] => false | _ :: _ => true end.

Definition headsOf (live : LiveCategories) : list ScoredTask.t :=
  flat_map (fun entry => firstn 1 (snd entry)) live.

Definition advance (live : LiveCategories) : LiveCategories :=
  filter hasTasks (map (fun entry => (fst entry, tl (snd entry))) live).

Definition liveAt (k : nat) (groups : LiveCategories) : LiveCategories :=
  filter hasTasks (map (fun entry => (fst entry, skipn k (snd entry))) groups).

End Described.

(** ** utils/dateUtils.ts *)

Module DateUtils.

(** [toDate]: [null] stays [null], a [Date] is returned as it is, a
    [Timestamp] through [toDate()], a [FieldValue] becomes the current
    date.  The last branch of the source, [new Date(date as any)], is
    for values outside [DateType]. *)
Definition toDate (now : Z) (date : option DateType) : option Z :=
  match date with
  | None => None
  | Some (JsDate ms) => Some ms
  | Some (Timestamp ms) => Some ms
  | Some FieldValue => Some now
  end.

End DateUtils.

(** ** services/ScheduleService.ts

    The service reads and writes Firestore documents; what is embedded
    is what it computes from the documents it has read. *)

Module ScheduleService.

(** [task.deadline ? toDate(task.deadline) || new Date() : null]: a
    deadline object is truthy, and so is the [Date] that [toDate]
    returns for it. *)
Definition processDeadline (now : Z) (deadline : option DateType) : option DateType :=
  match deadline with
  | Some d =>
      Some (JsDate (match DateUtils.toDate now (Some d) with
                    | Some ms => ms
                    | None => now
                    end))
  | None => None
  end.

(** An entry of [processedTasks]; of the date fields the service
    converts, the deadline is the one a [Task] of this file carries. *)
Definition processTask (now : Z) (task : Task) : Task :=
  {| id := id task;
     urgency := urgency task;
     difficulty := difficulty task;
     durationMinutes := durationMinutes task;
     deadline := processDeadline now (deadline task);
     tags := tags task |}.

(** [generateScheduleOptions] of the service: the options it returns,
    which are also the documents it saves; an exception of the
    generator is logged and thrown again. *)
Definition generateScheduleOptions (entropy : Entropy) (now : Z) (zone : TimeZone)
    (tasks : list Task) (userPrefs : UserPreferences)
    (startTime : Z) (freeTimeMinutes : option Z) (date : Z)
    : option (list ScheduleOption.t) :=
  ScheduleGenerator.generateScheduleOptions entropy now zone
    (map (processTask now) tasks) userPrefs startTime freeTimeMinutes date.

(** A [Partial<ScheduledTask>]: the fields that are present. *)
Record ScheduledTaskUpdate : Type := {
  newTaskId : option string;
  newStartTime : option Z;
  newEndTime : option Z;
  newCompleted : option bool
}.

(** [{...scheduledTask, ...taskUpdate}] *)
Definition mergeUpdate (scheduledTask : ScheduledTask.t) (taskUpdate : ScheduledTaskUpdate)
    : ScheduledTask.t :=
  {| ScheduledTask.taskId :=
       match newTaskId taskUpdate with Some v => v | None => ScheduledTask.taskId scheduledTask end;
     ScheduledTask.startTime :=
       match newStartTime taskUpdate with Some v => v | None => ScheduledTask.startTime scheduledTask end;
     ScheduledTask.endTime :=
       match newEndTime taskUpdate with Some v => v | None => ScheduledTask.endTime scheduledTask end;
     ScheduledTask.completed :=
       match newCompleted taskUpdate with Some v => v | None => ScheduledTask.completed scheduledTask end |}.

Inductive ServiceError : Type := ScheduleNotFound | TaskIndexOutOfRange.

(** [updateScheduledTask]: the [tasks] array written back to the
    schedule document, or the error thrown.  [schedule] is the document
    read, [None] when it does not exist. *)
Definition updateScheduledTask (schedule : option ScheduleOption.t) (taskIndex : Z)
    (taskUpdate : ScheduledTaskUpdate) : ServiceError + list ScheduledTask.t :=
  match schedule with
  | None => inl ScheduleNotFound
  | Some schedule =>
      if (0 <=? taskIndex)
         && (taskIndex <? Z.of_nat (List.length (ScheduleOption.tasks schedule)))
      then
        match nth_error (ScheduleOption.tasks schedule) (Z.to_nat taskIndex) with
        | Some scheduledTask =>
            inr (arraySet (Z.to_nat taskIndex) (mergeUpdate scheduledTask taskUpdate)
                   (ScheduleOption.tasks schedule))
        | None => inr (ScheduleOption.tasks schedule)
        end
      else inl TaskIndexOutOfRange
  end.

(** [completeScheduledTask]: the array written back and the id handed
    to [TaskService.completeTask], or the error thrown. *)
Definition completeScheduledTask (schedule : option ScheduleOption.t) (taskIndex : Z)
    : ServiceError + (list ScheduledTask.t * string) :=
  match schedule with
  | None => inl ScheduleNotFound
  | Some schedule' =>
      if (0 <=? taskIndex)
         && (taskIndex <? Z.of_nat (List.length (ScheduleOption.tasks schedule')))
      then
        match nth_error (ScheduleOption.tasks schedule') (Z.to_nat taskIndex) with
        | Some scheduledTask =>
            match updateScheduledTask schedule taskIndex
                    {| newTaskId := None; newStartTime := None;
                       newEndTime := None; newCompleted := Some true |} with
            | inr written => inr (written, ScheduledTask.taskId scheduledTask)
            | inl e => inl e
            end
        | None => inl TaskIndexOutOfRange
        end
      else inl TaskIndexOutOfRange
  end.

End ScheduleService.

(** *** The pools of the processed tasks

    The scored tasks, category tables and loop states that the
    generator builds from [processedTasks], written as those it builds
    from the tasks as loaded with every task processed; the properties
    below show that they are the same. *)

Module Processed.

Import ScoredTask ScheduleGenerator.

Definition scored (now : Z) (scoredTask : ScoredTask.t) : ScoredTask.t :=
  {| task := ScheduleService.processTask now (task scoredTask);
     morningScore := morningScore scoredTask;
     eveningScore := eveningScore scoredTask |}.

Definition table (now : Z) (tasksByCategory : CategoryTable) : CategoryTable :=
  map (fun entry => (fst entry, map (scored now) (snd entry))) tasksByCategory.

Definition interleave (now : Z) (st : Interleave) : Interleave :=
  {| categoriesWithTasks := categoriesWithTasks st;
     tasksByCategory := table now (tasksByCategory st);
     result := map (scored now) (result st) |}.

Definition allocation (now : Z) (st : Allocation) : Allocation :=
  {| currentTime := currentTime st;
     remainingMinutes := remainingMinutes st;
     scheduledTasks := scheduledTasks st;
     totalScore := totalScore st;
     availableTasks := map (scored now) (availableTasks st) |}.

End Processed.

(** ** services/ProductivityFeedbackService.ts *)

Module ProductivityFeedbackService.

Definition ALPHA : Q := 0.1.

Definition getTimeOfDay (zone : TimeZone) (date : Z) : TimeOfDay :=
  let hour := ScheduleGenerator.getHours zone date in
  if (5 <=? hour) && (hour <? 12) then MORNING else EVENING.

(** The factor written back: the moving average of the current factor
    and the difficulty mapped to 0.5 .. 1.5, clamped to that range. *)
Definition updatedFactor (current difficulty : Q) : Q :=
  let difficultyFactor := (0.5 + ((difficulty - 1) / 4))%Q in
  let updated := ((1 - ALPHA) * current + ALPHA * difficultyFactor)%Q in
  Qmin 1.5 (Qmax 0.5 updated).

(** [recordTaskCompletion]: the preferences document after the update,
    [None] when nothing is written (no completion date, or no
    preferences).  [completedAt] is the task's completion date and
    [prefs] what [getUserPreferences(task.userId)] returned. *)
Definition recordTaskCompletion (now : Z) (zone : TimeZone) (task : Task)
    (completedAt : option DateType) (prefs : option UserPreferences)
    : option UserPreferences :=
  match completedAt with
  | None => None
  | Some _ =>
      let completionDate :=
        match DateUtils.toDate now completedAt with Some d => d | None => now end in
      let timeOfDay := getTimeOfDay zone completionDate in
      match prefs with
      | None => None
      | Some prefs =>
          match timeOfDay with
          | MORNING =>
              Some {| userId := userId prefs;
                      morningComplexFactor :=
                        updatedFactor (morningComplexFactor prefs) (difficulty task);
                      eveningComplexFactor := eveningComplexFactor prefs;
                      morningAvailableTime := morningAvailableTime prefs;
                      eveningAvailableTime := eveningAvailableTime prefs |}
          | EVENING =>
              Some {| userId := userId prefs;
                      morningComplexFactor := morningComplexFactor prefs;
                      eveningComplexFactor :=
                        updatedFactor (eveningComplexFactor prefs) (difficulty task);
                      morningAvailableTime := morningAvailableTime prefs;
                      eveningAvailableTime := eveningAvailableTime prefs |}
          end
      end
  end.

End ProductivityFeedbackService.

(** ** screens/ScheduleSelectionScreen.tsx *)

Module ScheduleSelectionScreen.

(** [route.params?.freeTimeMinutes || 60] *)
Definition freeTimeFromRoute (param : option Z) : Z :=
  match param with
  | Some m => if m =? 0 then 60 else m
  | None => 60
  end.

(** The options [loadScheduleOptions] puts on the screen: generated by
    the service from the current time, with no date argument (the
    service takes the current date).  When the service throws, the
    screen reports the error and sets no options: [None]. *)
Definition loadScheduleOptions (entropy : Entropy) (now : Z) (zone : TimeZone)
    (userTasks : list Task) (userPrefs : UserPreferences) (param : option Z)
    : option (list ScheduleOption.t) :=
  ScheduleService.generateScheduleOptions entropy now zone userTasks userPrefs
    now (Some (freeTimeFromRoute param)) now.

(** [calculateTotalDuration]; [tasks] is the screen's record of task
    details by id. *)
Definition calculateTotalDuration (tasks : string -> option Task)
    (scheduledTasks : list ScheduledTask.t) : Z :=
  fold_left
    (fun total scheduledTask =>
       match tasks (ScheduledTask.taskId scheduledTask) with
       | Some task => total + durationMinutes task
       | None => total
       end)
    scheduledTasks 0.

(** [prevOptions.map((option, i) => ({...option, selected: i === index}))] *)
Fixpoint markSelected (index : nat) (i : nat) (options : list ScheduleOption.t)
    : list ScheduleOption.t :=
  match options with
  | [] => []
  | option :: rest =>
      {| ScheduleOption.id := ScheduleOption.id option;
         ScheduleOption.userId := ScheduleOption.userId option;
         ScheduleOption.date := ScheduleOption.date option;
         ScheduleOption.tasks := ScheduleOption.tasks option;
         ScheduleOption.totalScore := ScheduleOption.totalScore option;
         ScheduleOption.selected := Nat.eqb i index;
         ScheduleOption.createdAt := ScheduleOption.createdAt option |}
      :: markSelected index (S i) rest
  end.

(** The option list after [handleSelectSchedule(index)], when the
    services it awaits succeed: [scheduleOptions[index].id] is read
    first, which throws when there is no such option, and then the list
    is left as it was. *)
Definition handleSelectSchedule (index : nat) (scheduleOptions : list ScheduleOption.t)
    : list ScheduleOption.t :=
  match nth_error scheduleOptions index with
  | Some _ => markSelected index 0 scheduleOptions
  | None => scheduleOptions
  end.

End ScheduleSelectionScreen.

(** ** Sample data

    Concrete inputs on which the properties below are exercised. *)

Module Sample.

Import ScoredTask.

(** An entropy source whose every draw is 0. *)
Definition zeroEntropy : Entropy :=
  fun _ => {| u_val := 0%Q; u_range := eq_refl |}.

(** An entropy source whose every draw is 3/4. *)
Definition highEntropy : Entropy :=
  fun _ => {| u_val := 0.75%Q; u_range := eq_refl |}.

(** 2023-01-01T08:00:00Z, and UTC as the local zone. *)
Definition start : Z := 1672560000000.
Definition utc : TimeZone := fixedOffset 0.


Definition prefs (morning evening : Z) : UserPreferences :=
  {| userId := "test-user";
     morningComplexFactor := 1%Q;
     eveningComplexFactor := 1%Q;
     morningAvailableTime := morning;
     eveningAvailableTime := evening |}.

Definition mkTask (name : string) (tag : list string) (u d : Q) (minutes : Z) : Task :=
  {| id := name; urgency := u; difficulty := d; durationMinutes := minutes;
     deadline := Some (Timestamp start); tags := tag |}.

Definition scored (name : string) (tag : list string) (minutes : Z) (m e : Q) : ScoredTask.t :=
  {| task := mkTask name tag 3%Q 3%Q minutes; morningScore := m; eveningScore := e |}.

(** Two categories of two tasks each, the tasks of the tests. *)
Definition fourTasks : list ScoredTask.t :=
  [ scored "A1" ["A"%string] 30 84 84; scored "B1" ["B"%string] 30 66 66;
    scored "A2" ["A"%string] 30 72 72; scored "B2" ["B"%string] 30 51 51 ].

(** Two tasks of 45 minutes, the first with the higher scores. *)
Definition twoLongTasks : list Task :=
  [ mkTask "A" [] 5 3 45; mkTask "B" [] 4 2 45 ].


(** The inputs of the tests of [generateScheduleOptions]. *)
Definition priorityTestTasks : list Task :=
  [ mkTask "A" [] 5 5 30; mkTask "B" [] 3 2 30; mkTask "C" [] 1 1 60 ].

Definition balancedTestTasks : list Task :=
  [ mkTask "A1" ["A"%string] 5 3 30; mkTask "B1" ["B"%string] 5 3 30;
    mkTask "A2" ["A"%string] 4 2 30; mkTask "B2" ["B"%string] 4 2 30 ].

Definition groupedTestTasks : list Task :=
  [ mkTask "A1" ["A"%string] 5 3 30; mkTask "A2" ["A"%string] 4 2 30;
    mkTask "B1" ["B"%string] 3 2 30; mkTask "B2" ["B"%string] 2 1 30 ].

(** The ids scheduled by each of the three options of a run. *)
Definition scheduledIds (entropy : Entropy) (tasks : list Task)
    (morning : Z) (budget : Z) : option (list (list string)) :=
  option_map
    (map (fun o => map ScheduledTask.taskId (ScheduleOption.tasks o)))
    (ScheduleGenerator.generateScheduleOptions entropy start utc tasks
       (prefs morning 0) start (Some budget) start).

End Sample.

(** * Properties *)

(** ** The scoring engine *)

Section Scoring.

Import TaskScoring.
Local Open Scope Q_scope.

Lemma clamp_range (x : Q) : 0 <= Qmin 100 (Qmax 0 x) <= 100.
Proof.
  split.
  - apply Q.min_glb; [lra | apply Q.le_max_l].
  - apply Q.le_min_l.
Qed.

Lemma hoursUntilDeadline_nonneg (now : Z) (d : DateType) :
  0 <= hoursUntilDeadline now d.
Proof. unfold hoursUntilDeadline. apply Q.le_max_l. Qed.

Lemma hoursUntilDeadline_at (now ms : Z) (d : DateType) :
  convertToDate now (Some d) = ms ->
  hoursUntilDeadline now d == Qmax 0 (inject_Z (ms - now) / 3600000).
Proof. intros <-. reflexivity. Qed.

Lemma hoursUntilDeadline_overdue (now : Z) (d : DateType) :
  (convertToDate now (Some d) <= now)%Z -> hoursUntilDeadline now d == 0.
Proof.
  intros H. unfold hoursUntilDeadline.
  apply Q.max_l.
  assert (Hz : inject_Z (convertToDate now (Some d) - now) <= 0).
  { change 0 with (inject_Z 0). rewrite <- Zle_Qle. lia. }
  change (inject_Z (1000 * 60 * 60)) with 3600000.
  apply Qle_shift_div_r; [reflexivity |].
  rewrite Qmult_0_l. exact Hz.
Qed.

Lemma deadlineCurve_pos (h : Q) : 0 <= h -> 0 < 100 * (1 / (1 + 0.01 * h)).
Proof.
  intros Hh.
  assert (Hd : 0 < 1 + 0.01 * h) by nra.
  apply Qmult_lt_0_compat; [reflexivity |].
  unfold Qdiv. rewrite Qmult_1_l.
  apply Qinv_lt_0_compat. exact Hd.
Qed.

Lemma deadlineCurve_compat (h h' : Q) :
  h == h' -> 100 * (1 / (1 + 0.01 * h)) == 100 * (1 / (1 + 0.01 * h')).
Proof. intros ->. reflexivity. Qed.

(** C1. On binary64 numbers the final clamp does not keep the score
    between 0 and 100 for every input.  For a task of urgency 1e308
    and difficulty 1e308 without a deadline, and a morning factor of 1,
    the urgency component overflows to +Infinity and the cognitive
    component to -Infinity, their weighted sum is NaN, and
    [Math.min(100, Math.max(0, NaN))] is NaN: the score that
    [calculateTaskScore] returns is neither at least 0 nor at most
    100. *)
Theorem extreme_inputs_score_is_NaN (now : Z) :
  let task :=
    {| Binary64.urgency := 1e308%float;
       Binary64.difficulty := 1e308%float;
       Binary64.deadline := None |} in
  let userPrefs :=
    {| Binary64.morningComplexFactor := 1%float;
       Binary64.eveningComplexFactor := 1%float |} in
  let score := Binary64.calculateTaskScore now task userPrefs MORNING in
  Binary64.calculateUrgencyScore 1e308%float = infinity
  /\ Binary64.calculateCognitiveScore 1e308%float userPrefs MORNING = neg_infinity
  /\ PrimFloat.is_nan score = true
  /\ PrimFloat.leb 0%float score = false
  /\ PrimFloat.leb score 100%float = false.
Proof.
  cbv zeta. repeat split; vm_compute; reflexivity.
Qed.

(** C5. The deadline component is 0 without a deadline; with one it is
    100 * (1 / (1 + 0.01 * h)) where h is the number of hours until the
    deadline, clamped below at 0; a deadline due at this instant scores
    100, one due in 100 hours scores 50, and every deadline scores
    strictly more than 0. *)
Theorem calculateDeadlineScore_curve (now : Z) :
  calculateDeadlineScore now None = 0
  /\ (forall d,
        calculateDeadlineScore now (Some d) =
        100 * (1 / (1 + 0.01 *
                 Qmax 0 (inject_Z (convertToDate now (Some d) - now)
                         / inject_Z (1000 * 60 * 60)))))
  /\ calculateDeadlineScore now (Some (JsDate now)) == 100
  /\ calculateDeadlineScore now (Some (Timestamp now)) == 100
  /\ calculateDeadlineScore now (Some (JsDate (now + 100 * 3600000))) == 50
  /\ calculateDeadlineScore now (Some (Timestamp (now + 100 * 3600000))) == 50
  /\ (forall d, 0 < calculateDeadlineScore now (Some d)).
Proof.
  assert (Hnow : forall d, convertToDate now (Some d) = now ->
                 calculateDeadlineScore now (Some d) == 100).
  { intros d Hd. simpl.
    rewrite (deadlineCurve_compat _ 0).
    - reflexivity.
    - apply hoursUntilDeadline_overdue. lia. }
  assert (H100 : forall d, convertToDate now (Some d) = (now + 100 * 3600000)%Z ->
                 calculateDeadlineScore now (Some d) == 50).
  { intros d Hd. simpl.
    rewrite (deadlineCurve_compat _ 100).
    - reflexivity.
    - rewrite (hoursUntilDeadline_at now _ d Hd).
      replace (now + 100 * 3600000 - now)%Z with 360000000%Z by lia.
      reflexivity. }
  split; [reflexivity |]. split; [reflexivity |].
  split; [| split; [| split; [| split]]].
  - apply Hnow; reflexivity.
  - apply Hnow; reflexivity.
  - apply H100; reflexivity.
  - apply H100; reflexivity.
  - intros d. simpl. apply deadlineCurve_pos, hoursUntilDeadline_nonneg.
Qed.

(** C10. A deadline at or before the current time gives the deadline
    component 100 exactly: the hours until the deadline are clamped to
    0, so an overdue task scores what a task due at this instant scores,
    however late it is. *)
Theorem overdue_deadline_scores_100 (now ms : Z) (Hoverdue : (ms <= now)%Z) :
  hoursUntilDeadline now (JsDate ms) == 0
  /\ hoursUntilDeadline now (Timestamp ms) == 0
  /\ calculateDeadlineScore now (Some (JsDate ms)) == 100
  /\ calculateDeadlineScore now (Some (Timestamp ms)) == 100
  /\ calculateDeadlineScore now (Some (JsDate ms))
     == calculateDeadlineScore now (Some (JsDate now)).
Proof.
  assert (H0 : forall d, (convertToDate now (Some d) <= now)%Z ->
               calculateDeadlineScore now (Some d) == 100).
  { intros d Hd. simpl.
    rewrite (deadlineCurve_compat _ 0).
    - reflexivity.
    - apply hoursUntilDeadline_overdue. exact Hd. }
  split; [| split; [| split; [| split]]].
  - apply hoursUntilDeadline_overdue. exact Hoverdue.
  - apply hoursUntilDeadline_overdue. exact Hoverdue.
  - apply H0. exact Hoverdue.
  - apply H0. exact Hoverdue.
  - rewrite (H0 (JsDate ms) Hoverdue). symmetry. apply H0. simpl. lia.
Qed.

Lemma overdue_deadline_scores_100_witness :
  (1672531200000 - 86400000 <= 1672531200000)%Z
  /\ calculateDeadlineScore 1672531200000 (Some (JsDate (1672531200000 - 86400000))) == 100.
Proof.
  split.
  - lia.
  - apply (overdue_deadline_scores_100 1672531200000 (1672531200000 - 86400000)). lia.
Defined.

End Scoring.

(** ** The time-block planner *)

Section Planner.

Import ScheduleGenerator.

Lemma getHours_setHours (tz date h : Z) :
  0 <= h < 24 -> getHours (fixedOffset tz) (setHours (fixedOffset tz) date h) = h.
Proof.
  intros Hh. unfold getHours, setHours, localTime, utcTime. cbn [fixedOffset offsetAtInstant offsetAtLocal].
  replace ((date + tz) / 86400000 * 86400000 + h * 3600000 - tz + tz)
    with (h * 3600000 + ((date + tz) / 86400000 * 24) * 3600000) by lia.
  rewrite Z.div_add by lia.
  rewrite Z.div_mul by lia.
  rewrite Z.mod_add by lia.
  apply Z.mod_small. exact Hh.
Qed.

Lemma setHours_same_day (tz date h : Z) :
  setHours (fixedOffset tz) (setHours (fixedOffset tz) date 8) h
  = setHours (fixedOffset tz) date h.
Proof.
  unfold setHours, localTime, utcTime. cbn [fixedOffset offsetAtInstant offsetAtLocal].
  f_equal. f_equal. f_equal.
  replace ((date + tz) / 86400000 * 86400000 + 8 * 3600000 - tz + tz)
    with (28800000 + (date + tz) / 86400000 * 86400000) by lia.
  rewrite Z.div_add by lia. reflexivity.
Qed.

Lemma prepareTimeBlocksFromStartTime_block (tz : TimeZone) (startTime totalMinutes : Z) :
  exists label,
    prepareTimeBlocksFromStartTime tz startTime totalMinutes =
      [ {| TimeBlock.timeOfDay := label;
           TimeBlock.startTime := startTime;
           TimeBlock.endTime := startTime + totalMinutes * 60000;
           TimeBlock.availableMinutes := totalMinutes |} ]
    /\ (label = MORNING <-> 5 <= getHours tz startTime < 12)
    /\ (label = EVENING <-> ~ (5 <= getHours tz startTime < 12)).
Proof.
  unfold prepareTimeBlocksFromStartTime.
  replace (startTime + totalMinutes * 60 * 1000) with (startTime + totalMinutes * 60000) by lia.
  destruct (5 <=? getHours tz startTime) eqn:H5;
    destruct (getHours tz startTime <? 12) eqn:H12; simpl;
    eexists; (split; [reflexivity |]);
    split; split; intros; try discriminate; try reflexivity; try lia.
Qed.

(** C4, as stated, fails for a budget of 0: the generator treats it as
    absent and sizes the block from the preferences. *)
Lemma explicit_budget_zero_counterexample :
  map TimeBlock.availableMinutes
      (dailyTimeBlocks Sample.utc (Sample.prefs 60 60) Sample.start (Some 0)) = [120]
  /\ map TimeBlock.availableMinutes
        (dailyTimeBlocks Sample.utc (Sample.prefs 60 60) Sample.start (Some 0)) <> [0].
Proof. split; [reflexivity | discriminate]. Qed.

(** C4, amended. The planner, given a start time and a number of
    minutes, produces exactly one block: it starts at the given time,
    has that many available minutes, ends that many minutes after its
    start, and is labeled morning when the start hour is in [5,12) and
    evening otherwise.  The generator hands the caller's start time and
    free-time figure to the planner whenever the figure is not 0. *)
Theorem explicit_budget_single_block
    (tz : TimeZone) (userPrefs : UserPreferences) (startTime freeTimeMinutes : Z)
    (Hbudget : freeTimeMinutes <> 0) :
  dailyTimeBlocks tz userPrefs startTime (Some freeTimeMinutes) =
    prepareTimeBlocksFromStartTime tz startTime freeTimeMinutes
  /\ exists label,
       dailyTimeBlocks tz userPrefs startTime (Some freeTimeMinutes) =
         [ {| TimeBlock.timeOfDay := label;
              TimeBlock.startTime := startTime;
              TimeBlock.endTime := startTime + freeTimeMinutes * 60000;
              TimeBlock.availableMinutes := freeTimeMinutes |} ]
       /\ (label = MORNING <-> 5 <= getHours tz startTime < 12)
       /\ (label = EVENING <-> ~ (5 <= getHours tz startTime < 12)).
Proof.
  assert (E : dailyTimeBlocks tz userPrefs startTime (Some freeTimeMinutes) =
              prepareTimeBlocksFromStartTime tz startTime freeTimeMinutes).
  { unfold dailyTimeBlocks, budgetOrDefault.
    destruct (Z.eqb_spec freeTimeMinutes 0) as [H0 | _]; [contradiction | reflexivity]. }
  split; [exact E |].
  rewrite E. apply prepareTimeBlocksFromStartTime_block.
Qed.

Lemma explicit_budget_single_block_witness :
  120 <> 0
  /\ dailyTimeBlocks Sample.utc (Sample.prefs 60 60) Sample.start (Some 120) =
     prepareTimeBlocksFromStartTime Sample.utc Sample.start 120.
Proof.
  split.
  - lia.
  - apply (explicit_budget_single_block Sample.utc (Sample.prefs 60 60) Sample.start 120). lia.
Defined.

(** C3. Without a budget the generator does not derive a morning and
    an evening block from the preferences.  With 60 minutes of morning
    and 60 minutes of evening availability and no free-time figure it
    plans one block of 120 minutes at the start time, and a 90-minute
    task is scheduled by all three strategies; [prepareTimeBlocks],
    which computes the two blocks of 60 minutes that the specification
    describes and into neither of which that task fits, is not
    called. *)
Theorem no_budget_two_blocks_counterexample :
  map TimeBlock.availableMinutes
      (dailyTimeBlocks Sample.utc (Sample.prefs 60 60) Sample.start None) = [120]
  /\ map TimeBlock.availableMinutes
        (prepareTimeBlocks Sample.utc Sample.start (Sample.prefs 60 60)) = [60; 60]
  /\ dailyTimeBlocks Sample.utc (Sample.prefs 60 60) Sample.start None
     <> prepareTimeBlocks Sample.utc Sample.start (Sample.prefs 60 60)
  /\ option_map
       (map (fun o => map ScheduledTask.taskId (ScheduleOption.tasks o)))
       (generateDailySchedules Sample.zeroEntropy Sample.start Sample.utc
          [Sample.mkTask "long" [] 3%Q 3%Q 90]
          (Sample.prefs 60 60) Sample.start None Sample.start)
     = Some [["long"%string]; ["long"%string]; ["long"%string]]
  /\ option_map scheduledTasks
       (processBlocks Sample.utc priority
          (scoreTasks Sample.start [Sample.mkTask "long" [] 3%Q 3%Q 90] (Sample.prefs 60 60))
          (prepareTimeBlocks Sample.utc Sample.start (Sample.prefs 60 60))) = Some [].
Proof.
  split; [reflexivity |]. split; [reflexivity |].
  split; [discriminate |]. split; vm_compute; reflexivity.
Qed.

End Planner.

(** ** Sorting with a score comparator *)

Section SortByKey.

Variable T : Type.
Variable key : T -> Q.

(** The comparator [(a, b) => key(b) - key(a)] of every sort in the source. *)
Let descending (a b : T) : Q := (key b - key a)%Q.

(** [a] may stand in front of [b]. *)
Let before (a b : T) : Prop := (key b <= key a)%Q.

Lemma sortInsert_perm (cmp : T -> T -> Q) (x : T) (l : list T) :
  Permutation (x :: l) (sortInsert cmp x l).
Proof.
  induction l as [| y l IH]; simpl.
  - apply Permutation_refl.
  - destruct (Qle_bool (cmp x y) 0).
    + apply Permutation_refl.
    + eapply perm_trans; [apply perm_swap |].
      apply perm_skip. exact IH.
Qed.

Lemma arraySort_perm (cmp : T -> T -> Q) (l : list T) :
  Permutation l (arraySort cmp l).
Proof.
  induction l as [| x l IH]; simpl.
  - apply perm_nil.
  - eapply perm_trans; [apply perm_skip; exact IH |].
    apply sortInsert_perm.
Qed.

Lemma arraySort_length (cmp : T -> T -> Q) (l : list T) :
  List.length (arraySort cmp l) = List.length l.
Proof. symmetry. apply Permutation_length, arraySort_perm. Qed.

Lemma descending_le (x y : T) :
  Qle_bool (descending x y) 0 = true <-> (key y <= key x)%Q.
Proof.
  unfold descending. rewrite Qle_bool_iff. split; intros H; lra.
Qed.

Lemma sortInsert_sorted (x : T) (l : list T) :
  StronglySorted before l -> StronglySorted before (sortInsert descending x l).
Proof.
  induction 1 as [| y l Hs IH Hy]; simpl.
  - constructor; constructor.
  - destruct (Qle_bool (descending x y) 0) eqn:E.
    + apply descending_le in E.
      constructor.
      * constructor; assumption.
      * constructor; [exact E |].
        eapply Forall_impl; [| exact Hy].
        unfold before. intros z Hz. lra.
    + assert (Hlt : (key x < key y)%Q).
      { destruct (Qlt_le_dec (key x) (key y)) as [Hl | Hl]; [exact Hl |].
        apply descending_le in Hl. congruence. }
      constructor; [exact IH |].
      apply (Permutation_Forall (sortInsert_perm descending x l)).
      constructor; [| exact Hy].
      unfold before. lra.
Qed.

Lemma arraySort_sorted (l : list T) :
  StronglySorted before (arraySort descending l).
Proof.
  induction l as [| x l IH]; simpl.
  - constructor.
  - apply sortInsert_sorted. exact IH.
Qed.

(** Stability: for every score, the elements that have it come out in
    the order in which they went in. *)
Lemma sortInsert_stable (q : Q) (x : T) (l : list T) :
  StronglySorted before l ->
  filter (fun t => Qeq_bool (key t) q) (sortInsert descending x l) =
  filter (fun t => Qeq_bool (key t) q) (x :: l).
Proof.
  induction 1 as [| y l Hs IH Hy]; [reflexivity |].
  cbn [sortInsert].
  destruct (Qle_bool (descending x y) 0) eqn:E; [reflexivity |].
  assert (Hlt : (key x < key y)%Q).
  { destruct (Qlt_le_dec (key x) (key y)) as [Hl | Hl]; [exact Hl |].
    apply descending_le in Hl. congruence. }
  cbn [filter]. rewrite IH. cbn [filter].
  destruct (Qeq_bool (key y) q) eqn:Ey; [| reflexivity].
  destruct (Qeq_bool (key x) q) eqn:Ex; [| reflexivity].
  apply Qeq_bool_iff in Ey, Ex. lra.
Qed.

Lemma arraySort_stable (q : Q) (l : list T) :
  filter (fun t => Qeq_bool (key t) q) (arraySort descending l) =
  filter (fun t => Qeq_bool (key t) q) l.
Proof.
  induction l as [| x l IH]; [reflexivity |].
  cbn [arraySort fold_right].
  rewrite sortInsert_stable by apply arraySort_sorted.
  cbn [filter]. fold (arraySort descending l). rewrite IH. reflexivity.
Qed.

(** A sorted array of two elements. *)
Lemma arraySort_pair (x y : T) :
  arraySort descending [x; y] = [x; y] \/ arraySort descending [x; y] = [y; x].
Proof.
  cbn. destruct (Qle_bool (descending x y) 0); [left | right]; reflexivity.
Qed.

End SortByKey.

(** ** The category table *)

Section CategoryTables.

Import ScoredTask ScheduleGenerator Described.

Lemma existsb_eqb_In (c : string) (l : list string) :
  existsb (String.eqb c) l = true <-> In c l.
Proof.
  rewrite existsb_exists. split.
  - intros [x [Hx E]]. apply String.eqb_eq in E. subst. exact Hx.
  - intros H. exists c. split; [exact H | apply String.eqb_refl].
Qed.

Lemma inheritedProperty_In (name : string) :
  inheritedProperty name = true <-> In name inheritedProperties.
Proof.
  unfold inheritedProperty. rewrite existsb_exists. split.
  - intros [x [Hx E]]. apply String.eqb_eq in E. subst x. exact Hx.
  - intros H. exists name. split; [exact H | apply String.eqb_refl].
Qed.

Lemma tableOwns_In (c : string) (table : CategoryTable) :
  tableOwns c table = true <-> In c (map fst table).
Proof. apply existsb_eqb_In. Qed.

Lemma tableGet_absent (c : string) (table : CategoryTable) :
  ~ In c (map fst table) -> tableGet c table = [].
Proof.
  induction table as [| [c0 ts] rest IH]; [reflexivity |].
  cbn [map fst In tableGet]. intros H.
  destruct (String.eqb_spec c0 c) as [E | _]; [tauto | apply IH; tauto].
Qed.

Lemma tableAppend_keys (c : string) (t : ScoredTask.t) (table : CategoryTable) :
  map fst (tableAppend c t table) = map fst table.
Proof.
  induction table as [| [c0 ts] rest IH]; [reflexivity |].
  cbn [tableAppend]. destruct (String.eqb c0 c); cbn [map fst]; [reflexivity |].
  rewrite IH. reflexivity.
Qed.

Lemma tableGet_tableAppend (c c' : string) (t : ScoredTask.t) (table : CategoryTable) :
  In c (map fst table) ->
  tableGet c' (tableAppend c t table) =
  if String.eqb c c' then tableGet c' table ++ [t] else tableGet c' table.
Proof.
  induction table as [| [c0 ts] rest IH]; [contradiction |].
  cbn [map fst In tableAppend tableGet]. intros Hin.
  destruct (String.eqb_spec c0 c) as [-> | Hne]; cbn [tableGet].
  - destruct (String.eqb c c'); reflexivity.
  - destruct Hin as [E | Hin]; [contradiction |].
    destruct (String.eqb_spec c0 c') as [-> | Hne'].
    + destruct (String.eqb_spec c c') as [-> | _]; [contradiction | reflexivity].
    + apply IH. exact Hin.
Qed.

Lemma tableAppend_concat (c : string) (t : ScoredTask.t) (table : CategoryTable) :
  In c (map fst table) ->
  Permutation (t :: concat (map snd table)) (concat (map snd (tableAppend c t table))).
Proof.
  induction table as [| [c0 ts] rest IH]; [contradiction |].
  cbn [map fst In tableAppend]. intros Hin.
  destruct (String.eqb_spec c0 c) as [-> | Hne]; cbn [map snd concat].
  - rewrite <- app_assoc. cbn [app].
    apply (Permutation_middle ts (concat (map snd rest)) t).
  - destruct Hin as [E | Hin]; [contradiction |].
    eapply perm_trans; [apply (Permutation_middle ts _ t) |].
    apply Permutation_app_head. apply IH. exact Hin.
Qed.

Lemma tableCreate_keys (c : string) (table : CategoryTable) :
  Permutation (c :: map fst table) (map fst (tableCreate c table)).
Proof.
  induction table as [| [c0 ts] rest IH]; [apply Permutation_refl |].
  cbn [tableCreate]. destruct (listedBefore c c0); cbn [map fst].
  - apply Permutation_refl.
  - eapply perm_trans; [apply perm_swap |]. apply perm_skip. exact IH.
Qed.

Lemma tableCreate_concat (c : string) (table : CategoryTable) :
  concat (map snd (tableCreate c table)) = concat (map snd table).
Proof.
  induction table as [| [c0 ts] rest IH]; [reflexivity |].
  cbn [tableCreate]. destruct (listedBefore c c0); cbn [map snd concat app].
  - reflexivity.
  - rewrite IH. reflexivity.
Qed.

Lemma tableGet_tableCreate (c c' : string) (table : CategoryTable) :
  ~ In c (map fst table) ->
  tableGet c' (tableCreate c table) = tableGet c' table.
Proof.
  induction table as [| [c0 ts] rest IH]; cbn [map fst In tableCreate tableGet]; intros Hnot.
  - destruct (String.eqb c c'); reflexivity.
  - destruct (listedBefore c c0); cbn [tableGet].
    + destruct (String.eqb_spec c c') as [<- | _]; [| reflexivity].
      destruct (String.eqb_spec c0 c) as [E | _]; [tauto |].
      symmetry. apply tableGet_absent. tauto.
    + destruct (String.eqb c0 c'); [reflexivity |]. apply IH. tauto.
Qed.

(** A created key that is not an array index goes to the end of the
    listing. *)
Lemma tableCreate_last (c : string) (table : CategoryTable) :
  arrayIndex c = None -> map fst (tableCreate c table) = map fst table ++ [c].
Proof.
  intros Hc. induction table as [| [c0 ts] rest IH]; [reflexivity |].
  cbn [tableCreate]. unfold listedBefore. rewrite Hc. cbn [map fst app].
  rewrite IH. reflexivity.
Qed.

(** What a [push] that does not throw does to the table. *)
Lemma tablePush_Some (c : string) (t : ScoredTask.t) (table table' : CategoryTable) :
  tablePush c t table = Some table' ->
  (In c (map fst table) \/ inheritedProperty c = false)
  /\ Permutation
       (if tableOwns c table then map fst table else c :: map fst table)
       (map fst table')
  /\ (forall c', tableGet c' table' =
                 if String.eqb c c' then tableGet c' table ++ [t] else tableGet c' table)
  /\ Permutation (t :: concat (map snd table)) (concat (map snd table')).
Proof.
  unfold tablePush. intros H.
  destruct (tableOwns c table) eqn:Howns.
  - injection H as <-. apply tableOwns_In in Howns.
    split; [left; exact Howns |].
    split; [rewrite tableAppend_keys; apply Permutation_refl |].
    split; [intros c'; apply tableGet_tableAppend; exact Howns |].
    apply tableAppend_concat. exact Howns.
  - destruct (inheritedProperty c) eqn:Hinh; [discriminate |].
    injection H as <-.
    assert (Hnot : ~ In c (map fst table)).
    { intros Hin. apply tableOwns_In in Hin. congruence. }
    assert (Hin' : In c (map fst (tableCreate c table))).
    { apply (Permutation_in _ (tableCreate_keys c table)). left. reflexivity. }
    split; [right; reflexivity |].
    split; [rewrite tableAppend_keys; apply tableCreate_keys |].
    split.
    + intros c'. rewrite (tableGet_tableAppend c c' t _ Hin').
      rewrite (tableGet_tableCreate c c' table Hnot). reflexivity.
    + rewrite <- (tableCreate_concat c table).
      apply tableAppend_concat. exact Hin'.
Qed.

Lemma tablePush_None (c : string) (t : ScoredTask.t) (table : CategoryTable) :
  tablePush c t table = None <->
  ~ In c (map fst table) /\ inheritedProperty c = true.
Proof.
  unfold tablePush. destruct (tableOwns c table) eqn:Howns.
  - split; [discriminate |]. intros [Hnot _]. exfalso.
    apply Hnot, tableOwns_In. exact Howns.
  - assert (Hnot : ~ In c (map fst table)).
    { intros Hin. apply tableOwns_In in Hin. congruence. }
    destruct (inheritedProperty c).
    + split; [intros _; split; [exact Hnot | reflexivity] | reflexivity].
    + split; [discriminate | intros [_ H]; discriminate H].
Qed.

Lemma groupByCategory_snoc (tasks : list ScoredTask.t) (t : ScoredTask.t) :
  groupByCategory (tasks ++ [t]) =
  match groupByCategory tasks with
  | Some table => tablePush (categoryOf t) t table
  | None => None
  end.
Proof. unfold groupByCategory. rewrite fold_left_app. reflexivity. Qed.

Lemma categoriesInOrder_snoc (tasks : list ScoredTask.t) (t : ScoredTask.t) :
  categoriesInOrder (tasks ++ [t]) =
  if existsb (String.eqb (categoryOf t)) (categoriesInOrder tasks)
  then categoriesInOrder tasks
  else categoriesInOrder tasks ++ [categoryOf t].
Proof. unfold categoriesInOrder. rewrite fold_left_app. reflexivity. Qed.

Lemma categoriesInOrder_In (tasks : list ScoredTask.t) (c : string) :
  In c (categoriesInOrder tasks) <-> In c (map categoryOf tasks).
Proof.
  revert c.
  induction tasks as [| t tasks IH] using rev_ind; intros c; [reflexivity |].
  rewrite categoriesInOrder_snoc, map_app, in_app_iff. cbn [map In].
  destruct (existsb (String.eqb (categoryOf t)) (categoriesInOrder tasks)) eqn:E.
  - apply existsb_eqb_In in E. apply IH in E. rewrite IH.
    split; [tauto |]. intros [H | [<- | []]]; assumption.
  - rewrite in_app_iff, IH. cbn [In]. tauto.
Qed.

Lemma categoriesInOrder_NoDup (tasks : list ScoredTask.t) :
  NoDup (categoriesInOrder tasks).
Proof.
  induction tasks as [| t tasks IH] using rev_ind; [constructor |].
  rewrite categoriesInOrder_snoc.
  destruct (existsb (String.eqb (categoryOf t)) (categoriesInOrder tasks)) eqn:E;
    [exact IH |].
  apply NoDup_app; [exact IH | repeat constructor; intros [] |].
  intros x Hx [<- | []].
  apply existsb_eqb_In in Hx. congruence.
Qed.

(** The table that the grouping loop builds when it does not throw:
    its keys are the categories of the tasks, each once, and under
    every category it holds the tasks of that category in input order;
    no category is an inherited name. *)
Lemma groupByCategory_Some (tasks : list ScoredTask.t) (table : CategoryTable) :
  groupByCategory tasks = Some table ->
  Permutation (categoriesInOrder tasks) (objectKeys table)
  /\ (forall c, tableGet c table = tasksOfCategory c tasks)
  /\ Permutation tasks (concat (map snd table))
  /\ Forall (fun t => inheritedProperty (categoryOf t) = false) tasks.
Proof.
  revert table. unfold objectKeys, tasksOfCategory.
  induction tasks as [| t tasks IH] using rev_ind; intros table H.
  - injection H as <-. repeat split; try constructor. 
  - rewrite groupByCategory_snoc in H.
    destruct (groupByCategory tasks) as [table0 |]; [| discriminate].
    destruct (IH table0 eq_refl) as [Hkeys [Hget [Hall Hord]]].
    destruct (tablePush_Some _ _ _ _ H) as [Hok [Hkeys' [Hget' Hall']]].
    assert (Howns : tableOwns (categoryOf t) table0
                    = existsb (String.eqb (categoryOf t)) (categoriesInOrder tasks)).
    { apply eq_true_iff_eq. rewrite tableOwns_In, existsb_eqb_In.
      split; intros Hin.
      - apply (Permutation_in _ (Permutation_sym Hkeys)). exact Hin.
      - apply (Permutation_in _ Hkeys). exact Hin. }
    split; [| split; [| split]].
    + rewrite categoriesInOrder_snoc. rewrite Howns in Hkeys'.
      destruct (existsb (String.eqb (categoryOf t)) (categoriesInOrder tasks)).
      * eapply perm_trans; [exact Hkeys | exact Hkeys'].
      * eapply perm_trans; [| exact Hkeys'].
        eapply perm_trans; [apply Permutation_sym, Permutation_cons_append |].
        apply perm_skip. exact Hkeys.
    + intros c. rewrite Hget', filter_app, Hget. cbn [filter].
      destruct (String.eqb (categoryOf t) c); [reflexivity | symmetry; apply app_nil_r].
    + eapply perm_trans; [| exact Hall'].
      eapply perm_trans; [apply Permutation_sym, Permutation_cons_append |].
      apply perm_skip. exact Hall.
    + apply Forall_app. split; [exact Hord |].
      constructor; [| constructor].
      destruct Hok as [Hin | Hinh]; [| exact Hinh].
      apply (Permutation_in _ (Permutation_sym Hkeys)) in Hin.
      apply categoriesInOrder_In, in_map_iff in Hin.
      destruct Hin as [t' [E Ht']]. rewrite <- E.
      rewrite Forall_forall in Hord. apply Hord. exact Ht'.
Qed.

(** The grouping loop throws exactly when the category of some task is
    a name that every object inherits. *)
Lemma groupByCategory_None (tasks : list ScoredTask.t) :
  groupByCategory tasks = None <->
  exists t, In t tasks /\ inheritedProperty (categoryOf t) = true.
Proof.
  induction tasks as [| t tasks IH] using rev_ind.
  - split; [discriminate | intros [t [[] _]]].
  - rewrite groupByCategory_snoc.
    destruct (groupByCategory tasks) as [table |] eqn:Htable.
    + destruct (groupByCategory_Some tasks table Htable) as [Hkeys [_ [_ Hord]]].
      rewrite tablePush_None. split.
      * intros [_ Hinh]. exists t. split; [apply in_or_app; right; left; reflexivity | exact Hinh].
      * intros [t' [Hin Hinh]]. apply in_app_or in Hin.
        destruct Hin as [Hin | [<- | []]].
        -- rewrite Forall_forall in Hord. rewrite (Hord t' Hin) in Hinh. discriminate.
        -- split; [| exact Hinh].
           intros Hin. apply (Permutation_in _ (Permutation_sym Hkeys)) in Hin.
           apply categoriesInOrder_In, in_map_iff in Hin.
           destruct Hin as [t' [E Ht']].
           rewrite Forall_forall in Hord. specialize (Hord t' Ht').
           rewrite E in Hord. congruence.
    + split; [intros _ | reflexivity].
      destruct (proj1 IH eq_refl) as [t' [Hin Hinh]].
      exists t'. split; [apply in_or_app; left; exact Hin | exact Hinh].
Qed.

Lemma groupByCategory_throws (tasks : list ScoredTask.t) :
  groupByCategory tasks = None ->
  exists t, In t tasks /\ In (categoryOf t) inheritedProperties.
Proof.
  intros H. apply groupByCategory_None in H. destruct H as [t [Hin Hinh]].
  exists t. split; [exact Hin | apply inheritedProperty_In; exact Hinh].
Qed.

Lemma groupByCategory_total (tasks : list ScoredTask.t) :
  Forall (fun t => inheritedProperty (categoryOf t) = false) tasks ->
  exists table, groupByCategory tasks = Some table.
Proof.
  intros Hord.
  destruct (groupByCategory tasks) as [table |] eqn:H; [eauto |].
  apply groupByCategory_None in H. destruct H as [t [Hin Hinh]].
  rewrite Forall_forall in Hord. rewrite (Hord t Hin) in Hinh. discriminate.
Qed.

Lemma groupByCategory_NoDup (tasks : list ScoredTask.t) (table : CategoryTable) :
  groupByCategory tasks = Some table -> NoDup (objectKeys table).
Proof.
  intros H. destruct (groupByCategory_Some tasks table H) as [Hkeys _].
  apply (Permutation_NoDup Hkeys), categoriesInOrder_NoDup.
Qed.

Lemma groupByCategory_keys_In (tasks : list ScoredTask.t) (table : CategoryTable)
    (c : string) :
  groupByCategory tasks = Some table ->
  In c (objectKeys table) <-> In c (map categoryOf tasks).
Proof.
  intros H. destruct (groupByCategory_Some tasks table H) as [Hkeys _].
  rewrite <- categoriesInOrder_In. split; intros Hin.
  - apply (Permutation_in _ (Permutation_sym Hkeys)). exact Hin.
  - apply (Permutation_in _ Hkeys). exact Hin.
Qed.

(** When no category is an array index, the keys are listed in the
    order in which the categories first appear. *)
Lemma groupByCategory_keys (tasks : list ScoredTask.t) (table : CategoryTable) :
  Forall (fun t => arrayIndex (categoryOf t) = None) tasks ->
  groupByCategory tasks = Some table ->
  objectKeys table = categoriesInOrder tasks.
Proof.
  unfold objectKeys. revert table.
  induction tasks as [| t tasks IH] using rev_ind; intros table Hidx H.
  - injection H as <-. reflexivity.
  - apply Forall_app in Hidx. destruct Hidx as [Hidx Ht].
    inversion Ht as [| ? ? Hc _]; subst.
    rewrite groupByCategory_snoc in H.
    destruct (groupByCategory tasks) as [table0 |]; [| discriminate].
    specialize (IH table0 Hidx eq_refl).
    rewrite categoriesInOrder_snoc, <- IH.
    unfold tablePush in H. fold (tableOwns (categoryOf t) table0).
    destruct (tableOwns (categoryOf t) table0).
    + injection H as <-. apply tableAppend_keys.
    + destruct (inheritedProperty (categoryOf t)); [discriminate |].
      injection H as <-. rewrite tableAppend_keys. apply tableCreate_last. exact Hc.
Qed.

(** A table with distinct keys is determined by what [tableGet] returns. *)
Lemma tableCreate_index (c : string) (n : N) (others : list string) :
  arrayIndex c = Some n ->
  Forall (fun k => isArrayIndex k = false) others ->
  forall (indices : list string) (table : CategoryTable),
    map fst table = indices ++ others ->
    Forall (fun k => isArrayIndex k = true) indices ->
    StronglySorted indexOrder indices ->
    exists indices',
      map fst (tableCreate c table) = indices' ++ others
      /\ Permutation (c :: indices) indices'
      /\ StronglySorted indexOrder indices'.
Proof.
  intros Hc Hothers. induction indices as [| k indices IH];
    intros table Hkeys Hindices Hsorted.
  - exists [c]. split; [| split; [apply Permutation_refl | repeat constructor]].
    destruct table as [| [k ts] rest]; cbn [map fst app] in Hkeys.
    + subst others. reflexivity.
    + subst others. inversion Hothers as [| ? ? Hk _]; subst.
      unfold isArrayIndex in Hk.
      cbn [tableCreate]. unfold listedBefore. rewrite Hc.
      destruct (arrayIndex k); [discriminate | reflexivity].
  - destruct table as [| [k' ts] rest]; cbn [map fst app] in Hkeys; [discriminate |].
    injection Hkeys as -> Hrest.
    inversion Hindices as [| ? ? Hk Hindices']; subst.
    inversion Hsorted as [| ? ? Hsorted' Hfirst]; subst.
    unfold isArrayIndex in Hk.
    destruct (arrayIndex k) as [m |] eqn:Em; [| discriminate].
    cbn [tableCreate]. unfold listedBefore. rewrite Hc, Em.
    destruct (N.ltb_spec n m) as [Hlt | Hge].
    + exists (c :: k :: indices).
      split; [cbn [map fst app]; rewrite Hrest; reflexivity |].
      split; [apply Permutation_refl |].
      constructor; [exact Hsorted |].
      constructor.
      * unfold indexOrder. rewrite Hc, Em. lia.
      * rewrite Forall_forall in Hfirst, Hindices'. apply Forall_forall. intros x Hx.
        specialize (Hfirst x Hx). specialize (Hindices' x Hx).
        unfold indexOrder, isArrayIndex in *. rewrite Hc. rewrite Em in Hfirst.
        destruct (arrayIndex x); [lia | exact I].
    + destruct (IH rest Hrest Hindices' Hsorted') as [indices' [Hkeys' [Hperm Hsorted'']]].
      exists (k :: indices').
      split; [cbn [map fst app]; rewrite Hkeys'; reflexivity |].
      split; [eapply perm_trans; [apply perm_swap | apply perm_skip; exact Hperm] |].
      constructor; [exact Hsorted'' |].
      apply (Permutation_Forall Hperm).
      constructor; [| exact Hfirst].
      unfold indexOrder. rewrite Hc, Em. exact Hge.
Qed.

(** The order in which the object lists its keys: the categories that
    are array indices by ascending index, then the other categories in
    the order in which they first appear. *)
Lemma groupByCategory_listing (tasks : list ScoredTask.t) (table : CategoryTable) :
  groupByCategory tasks = Some table ->
  exists indices,
    objectKeys table
    = indices ++ filter (fun c => negb (isArrayIndex c)) (categoriesInOrder tasks)
    /\ Forall (fun c => isArrayIndex c = true) indices
    /\ StronglySorted indexOrder indices.
Proof.
  unfold objectKeys. revert table.
  induction tasks as [| t tasks IH] using rev_ind; intros table H.
  - injection H as <-. exists []. repeat split; constructor.
  - rewrite groupByCategory_snoc in H.
    destruct (groupByCategory tasks) as [table0 |] eqn:Htable0; [| discriminate].
    destruct (IH table0 eq_refl) as [indices [Hkeys [Hindices Hsorted]]].
    assert (Howned : tableOwns (categoryOf t) table0
                     = existsb (String.eqb (categoryOf t)) (categoriesInOrder tasks)).
    { apply eq_true_iff_eq. rewrite tableOwns_In, existsb_eqb_In.
      rewrite (groupByCategory_keys_In tasks table0 _ Htable0), categoriesInOrder_In.
      reflexivity. }
    rewrite categoriesInOrder_snoc, <- Howned.
    unfold tablePush in H.
    destruct (tableOwns (categoryOf t) table0).
    + injection H as <-. rewrite tableAppend_keys. exists indices.
      split; [exact Hkeys | split; assumption].
    + destruct (inheritedProperty (categoryOf t)); [discriminate |].
      injection H as <-. rewrite tableAppend_keys, filter_app. cbn [filter].
      destruct (arrayIndex (categoryOf t)) as [n |] eqn:Ec.
      * assert (Hothers : Forall (fun k => isArrayIndex k = false)
                            (filter (fun c => negb (isArrayIndex c))
                                    (categoriesInOrder tasks))).
        { apply Forall_forall. intros x Hx. apply filter_In in Hx.
          destruct Hx as [_ Hx]. apply negb_true_iff in Hx. exact Hx. }
        destruct (tableCreate_index (categoryOf t) n _ Ec Hothers indices table0
                    Hkeys Hindices Hsorted) as [indices' [Hkeys' [Hperm Hsorted']]].
        exists indices'.
        unfold isArrayIndex at 2. rewrite Ec. cbn [negb]. rewrite app_nil_r.
        split; [exact Hkeys' |]. split; [| exact Hsorted'].
        apply (Permutation_Forall Hperm). constructor; [| exact Hindices].
        unfold isArrayIndex. rewrite Ec. reflexivity.
      * exists indices.
        unfold isArrayIndex at 2. rewrite Ec. cbn [negb].
        rewrite (tableCreate_last _ _ Ec), Hkeys, <- app_assoc.
        split; [reflexivity | split; assumption].
Qed.

Example groupByCategory_listing_sample :
  option_map objectKeys
    (groupByCategory
       [ Sample.scored "t1" ["work"%string] 30 50 50;
         Sample.scored "t2" ["2"%string] 30 50 50;
         Sample.scored "t3" ["home"%string] 30 50 50;
         Sample.scored "t4" ["0"%string] 30 50 50;
         Sample.scored "t5" ["work"%string] 30 50 50;
         Sample.scored "t6" ["10"%string] 30 50 50;
         Sample.scored "t7" ["01"%string] 30 50 50 ])
  = Some ["0"; "2"; "10"; "work"; "home"; "01"]%string.
Proof. vm_compute. reflexivity. Qed.

Lemma table_by_keys (table : CategoryTable) :
  NoDup (map fst table) ->
  table = map (fun c => (c, tableGet c table)) (map fst table).
Proof.
  induction table as [| [c ts] rest IH]; [reflexivity |].
  cbn [map fst]. intros Hnd. inversion Hnd as [| ? ? Hnotin Hnd']; subst.
  cbn [tableGet]. rewrite String.eqb_refl. f_equal.
  rewrite (IH Hnd') at 1.
  apply map_ext_in. intros c' Hc'.
  destruct (String.eqb_spec c c') as [-> | _]; [contradiction | reflexivity].
Qed.

Lemma groupByCategory_table (tasks : list ScoredTask.t) (table : CategoryTable) :
  groupByCategory tasks = Some table ->
  table = map (fun c => (c, tasksOfCategory c tasks)) (objectKeys table).
Proof.
  intros H. destruct (groupByCategory_Some tasks table H) as [_ [Hget _]].
  rewrite (table_by_keys table) at 1 by (apply (groupByCategory_NoDup tasks); exact H).
  apply map_ext. intros c. rewrite Hget. reflexivity.
Qed.

Lemma tasksOfCategory_nonempty (tasks : list ScoredTask.t) (c : string) :
  In c (map categoryOf tasks) -> tasksOfCategory c tasks <> [].
Proof.
  rewrite in_map_iff. intros [t [Hc Ht]] E.
  assert (Hin : In t (tasksOfCategory c tasks)).
  { unfold tasksOfCategory. apply filter_In. split; [exact Ht |].
    apply String.eqb_eq. exact Hc. }
  rewrite E in Hin. exact Hin.
Qed.

Lemma tasksOfCategory_category (tasks : list ScoredTask.t) (c : string) :
  Forall (fun t => categoryOf t = c) (tasksOfCategory c tasks).
Proof.
  apply Forall_forall. intros t Ht.
  apply filter_In in Ht. apply String.eqb_eq. tauto.
Qed.

Lemma sortEachCategory_keys (timeOfDay : TimeOfDay) (table : CategoryTable) :
  objectKeys (sortEachCategory timeOfDay table) = objectKeys table.
Proof.
  unfold objectKeys, sortEachCategory. rewrite map_map. reflexivity.
Qed.

Lemma tableGet_sortEachCategory (timeOfDay : TimeOfDay) (table : CategoryTable) (c : string) :
  tableGet c (sortEachCategory timeOfDay table) =
  arraySort (byScoreDescending timeOfDay) (tableGet c table).
Proof.
  induction table as [| [c0 ts] rest IH]; [reflexivity |].
  cbn [sortEachCategory map fst snd tableGet].
  destruct (String.eqb c0 c); [reflexivity | exact IH].
Qed.

End CategoryTables.

(** ** The grouped strategy *)

Section Grouped.

Import ScoredTask ScheduleGenerator Described.

Lemma Qmax_either (x y : Q) : Qmax x y = x \/ Qmax x y = y.
Proof.
  unfold Qmax, GenericMinMax.gmax. destruct (x ?= y)%Q; auto.
Qed.

Lemma fold_Qmax_In (rest : list Q) (s : Q) :
  In (fold_left Qmax rest s) (s :: rest).
Proof.
  revert s. induction rest as [| x rest IH]; intros s; cbn [fold_left].
  - left. reflexivity.
  - destruct (IH (Qmax s x)) as [H | H].
    + destruct (Qmax_either s x) as [E | E].
      * left. congruence.
      * right. left. congruence.
    + right. right. exact H.
Qed.

Lemma fold_Qmax_upper (rest : list Q) (s : Q) :
  Forall (fun y => (y <= fold_left Qmax rest s)%Q) (s :: rest).
Proof.
  revert s. induction rest as [| x rest IH]; intros s; cbn [fold_left].
  - constructor; [apply Qle_refl | constructor].
  - specialize (IH (Qmax s x)). inversion IH as [| ? ? Hm Hrest]; subst.
    constructor; [| constructor; [| exact Hrest]].
    + eapply Qle_trans; [apply Q.le_max_l | exact Hm].
    + eapply Qle_trans; [apply Q.le_max_r | exact Hm].
Qed.

(** [mathMax] of a non-empty array is one of its elements and bounds
    every element. *)
Lemma mathMax_spec (scores : list Q) :
  scores <> [] ->
  In (mathMax scores) scores /\ Forall (fun y => (y <= mathMax scores)%Q) scores.
Proof.
  destruct scores as [| s rest]; [congruence |]. intros _.
  split; [apply fold_Qmax_In | apply fold_Qmax_upper].
Qed.

Lemma arraySort_ext {T : Type} (cmp cmp' : T -> T -> Q) (l : list T) :
  (forall a b, cmp a b = cmp' a b) -> arraySort cmp l = arraySort cmp' l.
Proof.
  intros Hext. induction l as [| x l IH]; [reflexivity |].
  cbn [arraySort fold_right]. fold (arraySort cmp l) (arraySort cmp' l).
  rewrite IH. generalize (arraySort cmp' l). intros s.
  induction s as [| y s IHs]; [reflexivity |].
  cbn [sortInsert]. rewrite Hext, IHs. reflexivity.
Qed.

Lemma flat_map_perm_ext {A B : Type} (f g : A -> list B) (l : list A) :
  (forall x, Permutation (f x) (g x)) ->
  Permutation (flat_map f l) (flat_map g l).
Proof.
  intros H. induction l as [| x l IH]; [apply perm_nil |].
  cbn [flat_map]. apply Permutation_app; [apply H | exact IH].
Qed.

(** The grouped order, category by category. *)
Lemma groupSimilarTasks_blocks (tasks : list ScoredTask.t) (timeOfDay : TimeOfDay)
    (table : CategoryTable) :
  groupByCategory tasks = Some table ->
  groupSimilarTasks tasks timeOfDay =
  Some
    (flat_map
       (fun c => arraySort (byScoreDescending timeOfDay) (tasksOfCategory c tasks))
       (arraySort
          (fun a b => (bestScore timeOfDay (tasksOfCategory b tasks)
                       - bestScore timeOfDay (tasksOfCategory a tasks))%Q)
          (objectKeys table))).
Proof.
  intros Htable. unfold groupSimilarTasks. rewrite Htable. f_equal.
  destruct (groupByCategory_Some tasks table Htable) as [_ [Hget _]].
  rewrite (arraySort_ext _
    (fun a b => (bestScore timeOfDay (tasksOfCategory b tasks)
                 - bestScore timeOfDay (tasksOfCategory a tasks))%Q)).
  - apply flat_map_ext. intros c.
    rewrite tableGet_sortEachCategory, Hget. reflexivity.
  - intros a b. unfold categoryMaxScore, bestScore.
    rewrite !Hget. reflexivity.
Qed.

Lemma groupSimilarTasks_None (tasks : list ScoredTask.t) (timeOfDay : TimeOfDay) :
  groupSimilarTasks tasks timeOfDay = None <-> groupByCategory tasks = None.
Proof.
  unfold groupSimilarTasks.
  destruct (groupByCategory tasks); split; intros H; try discriminate; reflexivity.
Qed.

Lemma partition_perm (tasks : list ScoredTask.t) (table : CategoryTable) :
  groupByCategory tasks = Some table ->
  Permutation tasks
    (flat_map (fun c => tasksOfCategory c tasks) (objectKeys table)).
Proof.
  intros Htable.
  destruct (groupByCategory_Some tasks table Htable) as [_ [_ [Hall _]]].
  eapply perm_trans; [exact Hall |].
  rewrite (groupByCategory_table tasks table Htable) at 1.
  rewrite map_map, flat_map_concat_map. cbn [snd].
  apply Permutation_refl.
Qed.

Lemma groupSimilarTasks_perm (tasks ordered : list ScoredTask.t) (timeOfDay : TimeOfDay) :
  groupSimilarTasks tasks timeOfDay = Some ordered -> Permutation tasks ordered.
Proof.
  intros H.
  destruct (groupByCategory tasks) as [table |] eqn:Htable;
    [| apply (proj2 (groupSimilarTasks_None tasks timeOfDay)) in Htable;
       rewrite Htable in H; discriminate].
  rewrite (groupSimilarTasks_blocks tasks timeOfDay table Htable) in H.
  injection H as <-.
  eapply perm_trans; [apply (partition_perm tasks table Htable) |].
  eapply perm_trans;
    [apply (flat_map_perm_ext _
       (fun c => arraySort (byScoreDescending timeOfDay) (tasksOfCategory c tasks)));
     intros c; apply arraySort_perm |].
  apply Permutation_flat_map. apply arraySort_perm.
Qed.

Lemma byScoreDescending_pair (timeOfDay : TimeOfDay) (x y : ScoredTask.t) :
  arraySort (byScoreDescending timeOfDay) [x; y] = [x; y]
  \/ arraySort (byScoreDescending timeOfDay) [x; y] = [y; x].
Proof.
  apply (arraySort_pair ScoredTask.t (fun t => getScoreForTimeOfDay t timeOfDay)).
Qed.

Lemma table_of_two (tasks : list ScoredTask.t) (A B : string) (ga gb : list ScoredTask.t) :
  groupByCategory tasks = Some [(A, ga); (B, gb)] ->
  A <> B /\ tasksOfCategory A tasks = ga /\ tasksOfCategory B tasks = gb.
Proof.
  intros H.
  assert (Hnd := groupByCategory_NoDup tasks _ H).
  destruct (groupByCategory_Some tasks _ H) as [_ [Hget _]].
  cbn [objectKeys map fst] in Hnd.
  assert (HAB : A <> B).
  { intros E. subst B. inversion Hnd as [| ? ? Hnotin _]; subst.
    apply Hnotin. left. reflexivity. }
  split; [exact HAB |]. split.
  - rewrite <- Hget. cbn [tableGet]. rewrite String.eqb_refl. reflexivity.
  - rewrite <- Hget. cbn [tableGet].
    destruct (String.eqb_spec A B) as [E | _]; [contradiction |].
    rewrite String.eqb_refl. reflexivity.
Qed.

(** X30. The grouped strategy throws on a task whose category is a
    name that every object inherits.  Otherwise its order is a
    permutation of its input made of one block per category: the
    categories are distinct, every block holds exactly the tasks of its
    category sorted by descending score for the time of day, and the
    blocks follow each other by descending best score of their
    category.  With two tasks in a category A and two in a category B,
    the best score of A above the best score of B, the categories of
    the output are A, A, B, B. *)
Theorem groupSimilarTasks_grouped (tasks : list ScoredTask.t) (timeOfDay : TimeOfDay) :
  let score t := getScoreForTimeOfDay t timeOfDay in
  let best c := bestScore timeOfDay (tasksOfCategory c tasks) in
  let block c := arraySort (byScoreDescending timeOfDay) (tasksOfCategory c tasks) in
  match groupSimilarTasks tasks timeOfDay with
  | None => exists t, In t tasks /\ In (categoryOf t) inheritedProperties
  | Some ordered =>
  Permutation tasks ordered
  /\ (exists cats,
        Permutation (categoriesInOrder tasks) cats
        /\ NoDup cats
        /\ ordered = flat_map block cats
        /\ StronglySorted (fun c1 c2 => (best c2 <= best c1)%Q) cats
        /\ Forall
             (fun c =>
                block c <> []
                /\ Permutation (tasksOfCategory c tasks) (block c)
                /\ Forall (fun t => categoryOf t = c) (block c)
                /\ StronglySorted (fun t1 t2 => (score t2 <= score t1)%Q) (block c)
                /\ (exists t, In t (block c) /\ score t = best c)
                /\ Forall (fun t => (score t <= best c)%Q) (block c))
             cats)
  /\ (forall A B a1 a2 b1 b2,
        Permutation (map (fun c => (c, tasksOfCategory c tasks)) (categoriesInOrder tasks))
                    [(A, [a1; a2]); (B, [b1; b2])] ->
        (Qmax (score b1) (score b2) < Qmax (score a1) (score a2))%Q ->
        map categoryOf ordered = [A; A; B; B])
  end.
Proof.
  intros score best block.
  destruct (groupSimilarTasks tasks timeOfDay) as [ordered |] eqn:Hordered.
  2:{ apply groupSimilarTasks_None in Hordered.
      apply groupByCategory_throws, Hordered. }
  destruct (groupByCategory tasks) as [table |] eqn:Htable.
  2:{ apply (proj2 (groupSimilarTasks_None tasks timeOfDay)) in Htable. congruence. }
  assert (Hblocks := groupSimilarTasks_blocks tasks timeOfDay table Htable).
  rewrite Hordered in Hblocks. injection Hblocks as Hblocks.
  destruct (groupByCategory_Some tasks table Htable) as [Hkeys _].
  assert (Hsort : Permutation (objectKeys table)
                    (arraySort (fun a b => (best b - best a)%Q) (objectKeys table)))
    by apply arraySort_perm.
  assert (Hperm : Permutation (categoriesInOrder tasks)
                    (arraySort (fun a b => (best b - best a)%Q) (objectKeys table)))
    by (eapply perm_trans; eassumption).
  split; [apply (groupSimilarTasks_perm tasks ordered timeOfDay Hordered) |]. split.
  - exists (arraySort (fun a b => (best b - best a)%Q) (objectKeys table)).
    split; [exact Hperm |].
    split; [apply (Permutation_NoDup Hperm), categoriesInOrder_NoDup |].
    split; [exact Hblocks |].
    split; [apply (arraySort_sorted string best) |].
    apply Forall_forall. intros c Hc.
    apply (Permutation_in _ (Permutation_sym Hperm)), categoriesInOrder_In in Hc.
    assert (Hp : Permutation (tasksOfCategory c tasks) (block c)) by apply arraySort_perm.
    assert (Hne : tasksOfCategory c tasks <> []) by (apply tasksOfCategory_nonempty; exact Hc).
    split; [| split; [exact Hp | split; [| split; [| split]]]].
    + intros E. rewrite E in Hp. apply Permutation_sym, Permutation_nil in Hp. contradiction.
    + apply (Permutation_Forall Hp), tasksOfCategory_category.
    + apply (arraySort_sorted ScoredTask.t score).
    + destruct (mathMax_spec (map score (tasksOfCategory c tasks))) as [Hin _].
      { intros E. apply map_eq_nil in E. contradiction. }
      apply in_map_iff in Hin. destruct Hin as [t [Ht Hin]].
      exists t. split; [apply (Permutation_in _ Hp); exact Hin | exact Ht].
    + apply (Permutation_Forall Hp).
      destruct (mathMax_spec (map score (tasksOfCategory c tasks))) as [_ Hup].
      { intros E. apply map_eq_nil in E. contradiction. }
      rewrite Forall_map in Hup. exact Hup.
  - intros A B a1 a2 b1 b2 Hgroups Hbest.
    assert (Hcases :
      (objectKeys table = [A; B] \/ objectKeys table = [B; A])
      /\ tasksOfCategory A tasks = [a1; a2] /\ tasksOfCategory B tasks = [b1; b2]).
    { assert (Htab : Permutation table [(A, [a1; a2]); (B, [b1; b2])]).
      { rewrite (groupByCategory_table tasks table Htable).
        eapply perm_trans; [| exact Hgroups].
        apply Permutation_map, Permutation_sym, Hkeys. }
      apply Permutation_sym, Permutation_length_2_inv in Htab.
      destruct Htab as [E | E]; subst table;
        apply table_of_two in Htable; cbn [objectKeys map fst]; intuition. }
    destruct Hcases as [Hcats [HA HB]].
    assert (HbA : best A = Qmax (score a1) (score a2))
      by (unfold best, bestScore; rewrite HA; reflexivity).
    assert (HbB : best B = Qmax (score b1) (score b2))
      by (unfold best, bestScore; rewrite HB; reflexivity).
    assert (Hsorted :
      arraySort (fun a b => (best b - best a)%Q) (objectKeys table) = [A; B]).
    { destruct Hcats as [-> | ->]; cbn [arraySort fold_right sortInsert].
      - replace (Qle_bool (best B - best A) 0) with true; [reflexivity |].
        symmetry. apply Qle_bool_iff. rewrite HbA, HbB. lra.
      - replace (Qle_bool (best A - best B) 0) with false; [reflexivity |].
        symmetry. apply not_true_is_false. rewrite Qle_bool_iff, HbA, HbB. lra. }
    rewrite Hblocks. unfold best in Hsorted. rewrite Hsorted.
    cbn [flat_map]. rewrite app_nil_r, map_app.
    assert (HcA : Forall (fun t => categoryOf t = A) [a1; a2])
      by (rewrite <- HA; apply tasksOfCategory_category).
    assert (HcB : Forall (fun t => categoryOf t = B) [b1; b2])
      by (rewrite <- HB; apply tasksOfCategory_category).
    inversion HcA as [| ? ? Ha1 HcA']; subst. inversion HcA' as [| ? ? Ha2 _]; subst.
    inversion HcB as [| ? ? Hb1 HcB']; subst. inversion HcB' as [| ? ? Hb2 _]; subst.
    unfold block. rewrite HA, HB.
    destruct (byScoreDescending_pair timeOfDay a1 a2) as [-> | ->];
      destruct (byScoreDescending_pair timeOfDay b1 b2) as [-> | ->];
      cbn [map app]; congruence.
Qed.

(** C8. The grouped strategy throws where the specification promises
    a permutation of the input.  It throws exactly on the task lists that
    hold a task whose category, its first tag, is a name that the plain
    object used as the category table inherits: the grouping loop calls
    [push] on the inherited value.  For the four sample tasks followed
    by a task tagged [constructor], [groupSimilarTasks] returns
    nothing, while the four tasks alone are grouped A, A, B, B. *)
Theorem groupSimilarTasks_throws_on_inherited_name :
  (forall tasks timeOfDay,
     groupSimilarTasks tasks timeOfDay = None
     <-> exists t, In t tasks /\ In (categoryOf t) inheritedProperties)
  /\ groupSimilarTasks
       (Sample.fourTasks ++ [Sample.scored "C1" ["constructor"%string] 30 90 90]) MORNING
     = None
  /\ option_map (map categoryOf) (groupSimilarTasks Sample.fourTasks MORNING)
     = Some ["A"%string; "A"%string; "B"%string; "B"%string].
Proof.
  split; [| split; vm_compute; reflexivity].
  intros tasks timeOfDay.
  rewrite groupSimilarTasks_None, groupByCategory_None.
  split; intros [t [Hin Hinh]]; exists t; (split; [exact Hin |]).
  - apply inheritedProperty_In. exact Hinh.
  - apply inheritedProperty_In. exact Hinh.
Qed.

End Grouped.

(** ** The balanced strategy *)

Section Balanced.

Import ScoredTask ScheduleGenerator Described.

Lemma tableGet_tableSet_same (c : string) (v : list ScoredTask.t) (table : CategoryTable) :
  tableGet c table <> [] -> tableGet c (tableSet c v table) = v.
Proof.
  induction table as [| [c0 ts] rest IH]; cbn [tableGet tableSet].
  - congruence.
  - destruct (String.eqb c0 c) eqn:E; cbn [tableGet]; rewrite E; auto.
Qed.

Lemma tableGet_tableSet_other (c c' : string) (v : list ScoredTask.t) (table : CategoryTable) :
  c' <> c -> tableGet c' (tableSet c v table) = tableGet c' table.
Proof.
  intros Hne. induction table as [| [c0 ts] rest IH]; cbn [tableGet tableSet].
  - reflexivity.
  - destruct (String.eqb_spec c0 c) as [-> | Hc]; cbn [tableGet].
    + destruct (String.eqb_spec c c') as [E | _]; [congruence | reflexivity].
    + rewrite IH. reflexivity.
Qed.

Lemma filter_out_absent (c : string) (l : list string) :
  ~ In c l -> filter (fun x => negb (String.eqb x c)) l = l.
Proof.
  induction l as [| x l IH]; [reflexivity |].
  cbn [In filter]. intros H.
  destruct (String.eqb_spec x c) as [-> | _]; cbn [negb].
  - tauto.
  - rewrite IH by tauto. reflexivity.
Qed.

Lemma filter_out_middle (c : string) (l1 l2 : list string) :
  NoDup (l1 ++ c :: l2) ->
  filter (fun x => negb (String.eqb x c)) (l1 ++ c :: l2) = l1 ++ l2.
Proof.
  intros Hnd. apply NoDup_remove_2 in Hnd.
  rewrite filter_app. cbn [filter]. rewrite String.eqb_refl. cbn [negb].
  rewrite in_app_iff in Hnd.
  rewrite !filter_out_absent by tauto. reflexivity.
Qed.

Lemma nth_error_keys (done todo : LiveCategories) (c : string) (g : list ScoredTask.t) :
  nth_error (map fst (done ++ (c, g) :: todo)) (List.length done) = Some c.
Proof.
  rewrite map_app, nth_error_app2; rewrite length_map; [| apply Nat.le_refl].
  rewrite Nat.sub_diag. reflexivity.
Qed.

(** One round of the [for] loop from index [length done]: the
    categories before the index are kept, every category from the index
    on gives its first task and stays only if it has more. *)
Lemma interleaveRound_from (todo done : LiveCategories) (st : Interleave) (fuel : nat) :
  categoriesWithTasks st = map fst (done ++ todo) ->
  NoDup (map fst (done ++ todo)) ->
  (forall e, In e (done ++ todo) -> tableGet (fst e) (tasksByCategory st) = snd e) ->
  (forall e, In e todo -> snd e <> []) ->
  (List.length todo <= fuel)%nat ->
  let st' := interleaveRound fuel (List.length done) st in
  categoriesWithTasks st' = map fst (done ++ advance todo)
  /\ result st' = result st ++ headsOf todo
  /\ (forall e, In e (done ++ advance todo) ->
        tableGet (fst e) (tasksByCategory st') = snd e).
Proof.
  revert done st fuel.
  induction todo as [| [c g] rest IH]; intros done st fuel Hcats Hnd Htable Hne Hfuel.
  - cbn zeta. assert (E : interleaveRound fuel (List.length done) st = st).
    { destruct fuel; [reflexivity |]. cbn [interleaveRound].
      rewrite Hcats, app_nil_r.
      replace (nth_error (map fst done) (List.length done)) with (@None string);
        [reflexivity |].
      symmetry. apply nth_error_None. rewrite length_map. apply Nat.le_refl. }
    rewrite E. unfold advance, headsOf. cbn [map filter flat_map].
    rewrite !app_nil_r in *. auto.
  - destruct fuel as [| fuel]; [cbn in Hfuel; lia |].
    cbn [List.length] in Hfuel.
    assert (Hg : tableGet c (tasksByCategory st) = g).
    { apply (Htable (c, g)). apply in_or_app. right. left. reflexivity. }
    assert (Hgne : g <> []) by (apply (Hne (c, g)); left; reflexivity).
    destruct g as [| first ctasks]; [congruence |].
    assert (Hnotin : ~ In c (map fst (done ++ rest))).
    { rewrite map_app in Hnd |- *. cbn [map fst] in Hnd.
      apply NoDup_remove_2 in Hnd. exact Hnd. }
    assert (Hnd' : NoDup (map fst (done ++ rest))).
    { rewrite map_app in Hnd |- *. cbn [map fst] in Hnd.
      apply NoDup_remove_1 in Hnd. exact Hnd. }
    assert (Hother : forall e, In e (done ++ rest) -> fst e <> c).
    { intros e He Heq. apply Hnotin. rewrite <- Heq. apply in_map. exact He. }
    cbn zeta. cbn [interleaveRound].
    rewrite Hcats, nth_error_keys, Hg.
    destruct ctasks as [| second more].
    + (* the category is exhausted and leaves the list *)
      match goal with
      | |- context [interleaveRound fuel (List.length done) ?s] => set (st1 := s)
      end.
      destruct (IH done st1 fuel) as [Hc' [Hr' Ht']].
      * subst st1. cbn [categoriesWithTasks].
        rewrite !map_app. cbn [map fst].
        apply filter_out_middle. rewrite map_app in Hnd. exact Hnd.
      * exact Hnd'.
      * intros e He. subst st1. cbn [tasksByCategory].
        rewrite tableGet_tableSet_other by (apply Hother; exact He).
        apply Htable. apply in_app_or in He. apply in_or_app.
        destruct He; [left | right; right]; assumption.
      * intros e He. apply Hne. right. exact He.
      * lia.
      * unfold advance, headsOf in *. cbn [map filter flat_map fst snd tl hasTasks firstn].
        split; [exact Hc' |]. split; [| exact Ht'].
        rewrite Hr'. subst st1. cbn [result]. rewrite <- app_assoc. reflexivity.
    + (* the category keeps its place with one task less *)
      match goal with
      | |- context [interleaveRound fuel (S (List.length done)) ?s] => set (st1 := s)
      end.
      destruct (IH (done ++ [(c, second :: more)]) st1 fuel) as [Hc' [Hr' Ht']].
      * subst st1. cbn [categoriesWithTasks].
        rewrite <- app_assoc, !map_app. reflexivity.
      * rewrite <- app_assoc, map_app. cbn [app map fst].
        rewrite map_app in Hnd. exact Hnd.
      * intros e He. subst st1. cbn [tasksByCategory].
        rewrite <- app_assoc in He. cbn [app] in He.
        apply in_app_or in He. destruct He as [He | [<- | He]].
        -- rewrite tableGet_tableSet_other
             by (apply Hother; apply in_or_app; left; exact He).
           apply Htable. apply in_or_app. left. exact He.
        -- cbn [fst snd]. apply tableGet_tableSet_same. rewrite Hg. discriminate.
        -- rewrite tableGet_tableSet_other
             by (apply Hother; apply in_or_app; right; exact He).
           apply Htable. apply in_or_app. right. right. exact He.
      * intros e He. apply Hne. right. exact He.
      * lia.
      * rewrite length_app in Hc', Hr', Ht'. cbn [List.length] in Hc', Hr', Ht'.
        rewrite Nat.add_1_r in Hc', Hr', Ht'.
        unfold advance, headsOf in *.
        cbn [map filter flat_map fst snd tl hasTasks firstn].
        rewrite <- app_assoc in Hc', Ht'. cbn [app] in Hc', Ht'.
        split; [exact Hc' |]. split; [| exact Ht'].
        rewrite Hr'. subst st1. cbn [result]. rewrite <- app_assoc. reflexivity.
Qed.

Lemma skipn_S_tl {T : Type} (k : nat) (g : list T) : skipn (S k) g = tl (skipn k g).
Proof.
  revert g. induction k as [| k IH]; intros g.
  - destruct g; reflexivity.
  - destruct g as [| x g]; [reflexivity |].
    change (skipn (S (S k)) (x :: g)) with (skipn (S k) g).
    change (skipn (S k) (x :: g)) with (skipn k g). apply IH.
Qed.

Lemma liveAt_cons (k : nat) (c : string) (g : list ScoredTask.t) (groups : LiveCategories) :
  liveAt k ((c, g) :: groups) =
  match skipn k g with
  | [] => liveAt k groups
  | _ :: _ => (c, skipn k g) :: liveAt k groups
  end.
Proof.
  unfold liveAt. cbn [map filter fst snd]. unfold hasTasks at 1. cbn [snd].
  destruct (skipn k g); reflexivity.
Qed.

Lemma advance_liveAt (k : nat) (groups : LiveCategories) :
  advance (liveAt k groups) = liveAt (S k) groups.
Proof.
  induction groups as [| [c g] groups IH]; [reflexivity |].
  rewrite !liveAt_cons, skipn_S_tl.
  destruct (skipn k g) as [| x r] eqn:E; cbn [tl]; [exact IH |].
  unfold advance in *. cbn [map filter fst snd tl]. unfold hasTasks at 1. cbn [snd].
  rewrite IH. destruct r; reflexivity.
Qed.

Lemma headsOf_liveAt (k : nat) (groups : LiveCategories) :
  headsOf (liveAt k groups) = nthRound k (map snd groups).
Proof.
  induction groups as [| [c g] groups IH]; [reflexivity |].
  rewrite liveAt_cons. unfold nthRound in *. cbn [map snd flat_map].
  rewrite <- hd_error_skipn.
  destruct (skipn k g) as [| x r]; cbn [hd_error app].
  - exact IH.
  - change (headsOf ((c, x :: r) :: liveAt k groups))
      with (x :: headsOf (liveAt k groups)).
    rewrite IH. reflexivity.
Qed.

Lemma liveAt_keys (k : nat) (groups : LiveCategories) (c : string) :
  In c (map fst (liveAt k groups)) -> In c (map fst groups).
Proof.
  induction groups as [| [c0 g] groups IH]; [auto |].
  rewrite liveAt_cons. cbn [map fst In].
  destruct (skipn k g); cbn [map fst In]; tauto.
Qed.

Lemma liveAt_NoDup (k : nat) (groups : LiveCategories) :
  NoDup (map fst groups) -> NoDup (map fst (liveAt k groups)).
Proof.
  induction groups as [| [c g] groups IH]; [auto |].
  cbn [map fst]. intros Hnd. inversion Hnd as [| ? ? Hnotin Hnd']; subst.
  rewrite liveAt_cons. destruct (skipn k g); [auto |].
  cbn [map fst]. constructor; [| auto].
  intros Hin. apply Hnotin. eapply liveAt_keys. exact Hin.
Qed.

Lemma liveAt_hasTasks (k : nat) (groups : LiveCategories) (e : string * list ScoredTask.t) :
  In e (liveAt k groups) -> snd e <> [].
Proof.
  unfold liveAt. rewrite filter_In. intros [_ H] E.
  unfold hasTasks in H. rewrite E in H. discriminate.
Qed.

Lemma liveAt_nil_rounds (k j : nat) (groups : LiveCategories) :
  liveAt k groups = [] -> (k <= j)%nat -> nthRound j (map snd groups) = [].
Proof.
  intros Hnil Hkj. induction groups as [| [c g] groups IH]; [reflexivity |].
  rewrite liveAt_cons in Hnil.
  destruct (skipn k g) eqn:E; [| discriminate].
  unfold nthRound in *. cbn [map snd flat_map].
  rewrite (IH Hnil), app_nil_r.
  replace (nth_error g j) with (@None ScoredTask.t); [reflexivity |].
  symmetry. apply nth_error_None.
  assert (Hlen : List.length (skipn k g) = 0%nat) by (rewrite E; reflexivity).
  rewrite length_skipn in Hlen. lia.
Qed.

Lemma liveAt_bound (k n : nat) (groups : LiveCategories) :
  liveAt k groups <> [] ->
  Forall (fun g => (List.length g <= n)%nat) (map snd groups) ->
  (k < n)%nat.
Proof.
  induction groups as [| [c g] groups IH]; [intros H; contradiction H; reflexivity |].
  rewrite liveAt_cons. cbn [map snd]. intros Hne Hall.
  inversion Hall as [| ? ? Hg Hall']; subst.
  destruct (skipn k g) eqn:E; [auto |].
  assert (Hlen : List.length (skipn k g) <> 0%nat) by (rewrite E; discriminate).
  rewrite length_skipn in Hlen. lia.
Qed.

Lemma liveAt_0 (groups : LiveCategories) :
  Forall (fun e => snd e <> []) groups -> liveAt 0 groups = groups.
Proof.
  induction 1 as [| [c g] groups Hg _ IH]; [reflexivity |].
  rewrite liveAt_cons, IH. cbn [skipn snd] in *.
  destruct g; [congruence | reflexivity].
Qed.

(** The [while] loop from the start of round [k] on. *)
Lemma interleaveLoop_rounds (groups : LiveCategories) (n : nat) :
  NoDup (map fst groups) ->
  Forall (fun g => (List.length g <= n)%nat) (map snd groups) ->
  forall (fuel k : nat) (st : Interleave),
  categoriesWithTasks st = map fst (liveAt k groups) ->
  (forall e, In e (liveAt k groups) -> tableGet (fst e) (tasksByCategory st) = snd e) ->
  (S n <= fuel + k)%nat ->
  result (interleaveLoop fuel st) =
  result st ++ flat_map (fun j => nthRound j (map snd groups)) (seq k (n - k)).
Proof.
  intros Hnd Hlen.
  induction fuel as [| fuel IH]; intros k st Hcats Htable Hfuel.
  - replace (n - k)%nat with 0%nat by lia. cbn. rewrite app_nil_r. reflexivity.
  - cbn [interleaveLoop].
    assert (Hround := interleaveRound_from (liveAt k groups) [] st
                        (List.length (categoriesWithTasks st))
                        Hcats (liveAt_NoDup k groups Hnd) Htable
                        (liveAt_hasTasks k groups)).
    cbn zeta in Hround. cbn [List.length app] in Hround.
    rewrite advance_liveAt, headsOf_liveAt in Hround.
    destruct (categoriesWithTasks st) as [| c0 cs] eqn:Ecats.
    + assert (Hnil : liveAt k groups = []).
      { destruct (liveAt k groups); [reflexivity | discriminate]. }
      replace (flat_map (fun j => nthRound j (map snd groups)) (seq k (n - k)))
        with (@nil ScoredTask.t); [rewrite app_nil_r; reflexivity |].
      symmetry.
      rewrite flat_map_concat_map. apply concat_nil_Forall, Forall_map, Forall_forall.
      intros j Hj. apply in_seq in Hj.
      apply (liveAt_nil_rounds k j groups Hnil). lia.
    + assert (Hne : liveAt k groups <> []).
      { intros E. rewrite E in Hcats. discriminate. }
      assert (Hk : (k < n)%nat) by (eapply liveAt_bound; eassumption).
      destruct Hround as [Hc' [Hr' Ht']].
      { rewrite Hcats, length_map. apply Nat.le_refl. }
      rewrite (IH (S k) _ Hc' Ht') by lia.
      rewrite Hr', <- app_assoc. f_equal.
      replace (n - k)%nat with (S (n - S k)) by lia.
      reflexivity.
Qed.

Lemma flat_map_nth_seq {T : Type} (g : list T) (n : nat) :
  (List.length g <= n)%nat ->
  flat_map (fun k => match nth_error g k with Some t => [t] | None => [] end) (seq 0 n) = g.
Proof.
  revert n. induction g as [| x g IH]; intros n Hn.
  - rewrite flat_map_concat_map. apply concat_nil_Forall, Forall_map, Forall_forall.
    intros k _. destruct k; reflexivity.
  - destruct n as [| n]; [cbn in Hn; lia |].
    cbn [seq flat_map nth_error app]. f_equal.
    rewrite <- seq_shift, flat_map_concat_map, map_map, <- flat_map_concat_map.
    cbn [nth_error]. apply IH. cbn in Hn. lia.
Qed.

Lemma flat_map_app_perm {A B : Type} (f h : A -> list B) (l : list A) :
  Permutation (flat_map (fun x => f x ++ h x) l) (flat_map f l ++ flat_map h l).
Proof.
  induction l as [| x l IH]; [apply perm_nil |].
  cbn [flat_map]. rewrite <- !app_assoc. apply Permutation_app_head.
  eapply perm_trans; [apply Permutation_app_head; exact IH |].
  rewrite !app_assoc. apply Permutation_app_tail. apply Permutation_app_comm.
Qed.

(** Taking the tasks round by round loses and repeats none of them. *)
Lemma roundsUpTo_perm {T : Type} (groups : list (list T)) (n : nat) :
  Forall (fun g => (List.length g <= n)%nat) groups ->
  Permutation (concat groups) (roundsUpTo n groups).
Proof.
  unfold roundsUpTo, nthRound.
  induction 1 as [| g groups Hg _ IH]; cbn [concat flat_map].
  - replace (flat_map (fun _ : nat => @nil T) (seq 0 n)) with (@nil T);
      [apply perm_nil |].
    symmetry. rewrite flat_map_concat_map.
    apply concat_nil_Forall, Forall_map, Forall_forall. reflexivity.
  - eapply perm_trans; [| apply Permutation_sym, flat_map_app_perm].
    rewrite (flat_map_nth_seq g n Hg).
    apply Permutation_app_head. exact IH.
Qed.

Lemma length_le_concat {T : Type} (groups : list (list T)) :
  Forall (fun g => (List.length g <= List.length (concat groups))%nat) groups.
Proof.
  induction groups as [| g groups IH]; [constructor |].
  cbn [concat]. rewrite length_app. constructor; [lia |].
  eapply Forall_impl; [| exact IH]. cbn beta. intros. lia.
Qed.

Lemma roundRobin_perm {T : Type} (groups : list (list T)) :
  Permutation (concat groups) (roundRobin groups).
Proof. apply roundsUpTo_perm, length_le_concat. Qed.

Lemma sortedCategories_perm (tasks : list ScoredTask.t) (timeOfDay : TimeOfDay)
    (table : CategoryTable) :
  groupByCategory tasks = Some table ->
  Permutation tasks (concat (sortedCategories (objectKeys table) tasks timeOfDay)).
Proof.
  intros Htable. unfold sortedCategories. rewrite <- flat_map_concat_map.
  eapply perm_trans; [apply (partition_perm tasks table Htable) |].
  apply flat_map_perm_ext. intros c. apply arraySort_perm.
Qed.

Lemma sortedTable (tasks : list ScoredTask.t) (timeOfDay : TimeOfDay)
    (table : CategoryTable) :
  groupByCategory tasks = Some table ->
  sortEachCategory timeOfDay table =
  map (fun c => (c, arraySort (byScoreDescending timeOfDay) (tasksOfCategory c tasks)))
      (objectKeys table).
Proof.
  intros Htable.
  rewrite (groupByCategory_table tasks table Htable) at 1.
  unfold sortEachCategory. rewrite map_map. reflexivity.
Qed.

Lemma tableGet_In (table : CategoryTable) (e : string * list ScoredTask.t) :
  NoDup (map fst table) -> In e table -> tableGet (fst e) table = snd e.
Proof.
  induction table as [| [c ts] rest IH]; [contradiction |].
  cbn [map fst]. intros Hnd Hin. inversion Hnd as [| ? ? Hnotin Hnd']; subst.
  cbn [tableGet]. destruct Hin as [<- | Hin].
  - cbn [fst snd]. rewrite String.eqb_refl. reflexivity.
  - destruct (String.eqb_spec c (fst e)) as [E | _]; [| auto].
    exfalso. apply Hnotin. rewrite E. apply in_map. exact Hin.
Qed.

(** The balanced order is the round-robin over the categories, each
    sorted by descending score, in the order in which the table lists
    its keys. *)
Lemma balanceTaskCategories_roundRobin (tasks : list ScoredTask.t) (timeOfDay : TimeOfDay)
    (byCategory : CategoryTable) :
  groupByCategory tasks = Some byCategory ->
  balanceTaskCategories tasks timeOfDay =
  Some (roundRobin (sortedCategories (objectKeys byCategory) tasks timeOfDay)).
Proof.
  intros Hgrouped. unfold balanceTaskCategories. rewrite Hgrouped. cbv zeta. f_equal.
  set (table := sortEachCategory timeOfDay byCategory).
  assert (Hkeys : map fst table = objectKeys byCategory).
  { subst table. rewrite (sortedTable tasks timeOfDay byCategory Hgrouped), map_map.
    cbn [fst]. apply map_id. }
  assert (Hgroups : map snd table = sortedCategories (objectKeys byCategory) tasks timeOfDay).
  { subst table. rewrite (sortedTable tasks timeOfDay byCategory Hgrouped), map_map.
    reflexivity. }
  assert (Hnd : NoDup (map fst table)).
  { rewrite Hkeys. apply (groupByCategory_NoDup tasks). exact Hgrouped. }
  assert (Hfull : Forall (fun e => snd e <> []) table).
  { subst table. rewrite (sortedTable tasks timeOfDay byCategory Hgrouped).
    apply Forall_map, Forall_forall.
    intros c Hc. cbn [snd]. intros E.
    apply (tasksOfCategory_nonempty tasks c).
    - apply (groupByCategory_keys_In tasks byCategory c Hgrouped). exact Hc.
    - apply Permutation_nil. rewrite <- E. apply Permutation_sym, arraySort_perm. }
  assert (Hn : List.length (concat (sortedCategories (objectKeys byCategory) tasks timeOfDay))
               = List.length tasks).
  { symmetry. apply Permutation_length, sortedCategories_perm. exact Hgrouped. }
  unfold objectKeys at 1. fold table.
  rewrite (interleaveLoop_rounds table (List.length (concat (map snd table))) Hnd
             (length_le_concat (map snd table)) (S (List.length tasks)) 0).
  - cbn [result app]. rewrite Nat.sub_0_r. unfold roundRobin, roundsUpTo.
    rewrite Hgroups. reflexivity.
  - cbn [categoriesWithTasks]. rewrite (liveAt_0 table Hfull). reflexivity.
  - cbn [tasksByCategory]. rewrite (liveAt_0 table Hfull).
    intros e He. apply tableGet_In; assumption.
  - rewrite Hgroups, Hn. lia.
Qed.

Lemma balanceTaskCategories_None (tasks : list ScoredTask.t) (timeOfDay : TimeOfDay) :
  balanceTaskCategories tasks timeOfDay = None <-> groupByCategory tasks = None.
Proof.
  unfold balanceTaskCategories.
  destruct (groupByCategory tasks); split; intros H; try discriminate; reflexivity.
Qed.

Lemma balanceTaskCategories_perm (tasks ordered : list ScoredTask.t)
    (timeOfDay : TimeOfDay) :
  balanceTaskCategories tasks timeOfDay = Some ordered -> Permutation tasks ordered.
Proof.
  intros H.
  destruct (groupByCategory tasks) as [table |] eqn:Htable;
    [| apply (proj2 (balanceTaskCategories_None tasks timeOfDay)) in Htable;
       rewrite Htable in H; discriminate].
  rewrite (balanceTaskCategories_roundRobin tasks timeOfDay table Htable) in H.
  injection H as <-.
  eapply perm_trans; [apply (sortedCategories_perm tasks timeOfDay table Htable) |].
  apply roundRobin_perm.
Qed.

(** X29. The balanced strategy throws on a task whose category is a
    name that every object inherits.  Otherwise its order is the
    round-robin over the categories of the input, each category once
    and sorted by descending score for the time of day: round k takes
    the k-th task of every category that still has one.  The
    categories are taken in the order in which the object lists its
    keys: those that are array indices by ascending index, then the
    others in the order of their first appearance in the input.  The
    order is a permutation of the input, and with two categories of
    two tasks each the categories of the output alternate. *)
Theorem balanceTaskCategories_round_robin
    (tasks : list ScoredTask.t) (timeOfDay : TimeOfDay) :
  let score t := getScoreForTimeOfDay t timeOfDay in
  match balanceTaskCategories tasks timeOfDay with
  | None => exists t, In t tasks /\ In (categoryOf t) inheritedProperties
  | Some ordered =>
  (exists categories,
     Permutation (categoriesInOrder tasks) categories
     /\ NoDup categories
     /\ (exists indices,
           categories
           = indices ++ filter (fun c => negb (isArrayIndex c)) (categoriesInOrder tasks)
           /\ Forall (fun c => isArrayIndex c = true) indices
           /\ StronglySorted indexOrder indices)
     /\ (Forall (fun t => arrayIndex (categoryOf t) = None) tasks ->
         categories = categoriesInOrder tasks)
     /\ ordered = roundRobin (sortedCategories categories tasks timeOfDay)
     /\ Forall2
          (fun c group =>
             Permutation (filter (fun t => String.eqb (categoryOf t) c) tasks) group
             /\ StronglySorted (fun t1 t2 => (score t2 <= score t1)%Q) group)
          categories (sortedCategories categories tasks timeOfDay)
     /\ (forall A B a1 a2 b1 b2,
           map (fun c => (c, tasksOfCategory c tasks)) categories
             = [(A, [a1; a2]); (B, [b1; b2])] ->
           A <> B /\ map categoryOf ordered = [A; B; A; B]))
  /\ Permutation tasks ordered
  end.
Proof.
  intros score.
  destruct (balanceTaskCategories tasks timeOfDay) as [ordered |] eqn:Hordered.
  2:{ apply balanceTaskCategories_None in Hordered.
      apply groupByCategory_throws, Hordered. }
  destruct (groupByCategory tasks) as [table |] eqn:Htable.
  2:{ apply (proj2 (balanceTaskCategories_None tasks timeOfDay)) in Htable. congruence. }
  assert (Hrr := balanceTaskCategories_roundRobin tasks timeOfDay table Htable).
  rewrite Hordered in Hrr. injection Hrr as Hrr.
  destruct (groupByCategory_Some tasks table Htable) as [Hkeys _].
  split; [| apply (balanceTaskCategories_perm tasks ordered timeOfDay Hordered)].
  exists (objectKeys table).
  split; [exact Hkeys |].
  split; [apply (groupByCategory_NoDup tasks table Htable) |].
  split; [apply (groupByCategory_listing tasks table Htable) |].
  split; [intros Hnames; apply groupByCategory_keys; assumption |].
  split; [exact Hrr |].
  split.
  - unfold sortedCategories. clear.
    induction (objectKeys table) as [| c cats IH]; cbn [map]; constructor; [| exact IH].
    split; [apply arraySort_perm |].
    apply (arraySort_sorted ScoredTask.t score).
  - intros A B a1 a2 b1 b2 Hgroups.
    rewrite <- (groupByCategory_table tasks table Htable) in Hgroups.
    rewrite Hgroups in Htable.
    destruct (table_of_two tasks A B _ _ Htable) as [HAB [HA HB]].
    split; [exact HAB |].
    assert (HcA : Forall (fun t => categoryOf t = A) [a1; a2])
      by (rewrite <- HA; apply tasksOfCategory_category).
    assert (HcB : Forall (fun t => categoryOf t = B) [b1; b2])
      by (rewrite <- HB; apply tasksOfCategory_category).
    inversion HcA as [| ? ? Ha1 HcA']; subst. inversion HcA' as [| ? ? Ha2 _]; subst.
    inversion HcB as [| ? ? Hb1 HcB']; subst. inversion HcB' as [| ? ? Hb2 _]; subst.
    unfold sortedCategories. cbn [objectKeys map fst]. rewrite HA, HB.
    destruct (byScoreDescending_pair timeOfDay a1 a2) as [-> | ->];
      destruct (byScoreDescending_pair timeOfDay b1 b2) as [-> | ->];
      cbn; congruence.
Qed.

(** C7. The balanced strategy throws where the specification promises
    that every input task appears in the output.  It throws exactly on the
    task lists that hold a task whose category, its first tag, is a
    name that the plain object used as the category table inherits:
    the grouping loop calls [push] on the inherited value.  For the
    four sample tasks followed by a task tagged [constructor],
    [balanceTaskCategories] returns nothing, while the four tasks alone
    are interleaved A, B, A, B. *)
Theorem balanceTaskCategories_throws_on_inherited_name :
  (forall tasks timeOfDay,
     balanceTaskCategories tasks timeOfDay = None
     <-> exists t, In t tasks /\ In (categoryOf t) inheritedProperties)
  /\ balanceTaskCategories
       (Sample.fourTasks ++ [Sample.scored "C1" ["constructor"%string] 30 90 90]) MORNING
     = None
  /\ option_map (map categoryOf) (balanceTaskCategories Sample.fourTasks MORNING)
     = Some ["A"%string; "B"%string; "A"%string; "B"%string].
Proof.
  split; [| split; vm_compute; reflexivity].
  intros tasks timeOfDay.
  rewrite balanceTaskCategories_None, groupByCategory_None.
  split; intros [t [Hin Hinh]]; exists t; (split; [exact Hin |]).
  - apply inheritedProperty_In. exact Hinh.
  - apply inheritedProperty_In. exact Hinh.
Qed.

End Balanced.

(** ** The packer *)

Section Packer.

Import ScoredTask ScheduleGenerator Described.

Lemma Subsequence_nil {T : Type} (l : list T) : Subsequence [] l.
Proof. induction l; constructor; assumption. Qed.

Lemma Subsequence_In {T : Type} (l1 l2 : list T) (x : T) :
  Subsequence l1 l2 -> In x l1 -> In x l2.
Proof.
  induction 1 as [| y l1 l2 _ IH | y l1 l2 _ IH]; cbn [In]; tauto.
Qed.

Lemma Subsequence_map {A B : Type} (f : A -> B) (l1 l2 : list A) :
  Subsequence l1 l2 -> Subsequence (map f l1) (map f l2).
Proof. induction 1; cbn [map]; constructor; assumption. Qed.

Lemma Subsequence_NoDup {T : Type} (l1 l2 : list T) :
  Subsequence l1 l2 -> NoDup l2 -> NoDup l1.
Proof.
  induction 1 as [| y l1 l2 Hs IH | y l1 l2 Hs IH]; intros Hnd.
  - constructor.
  - inversion Hnd; subst. auto.
  - inversion Hnd as [| ? ? Hnotin Hnd']; subst.
    constructor; [| auto].
    intros Hin. apply Hnotin. eapply Subsequence_In; eassumption.
Qed.

Lemma slots_ids (zone : TimeZone) (start : Z) (placed : list ScoredTask.t) :
  map ScheduledTask.taskId (slots zone start placed) = map (fun t => id (task t)) placed.
Proof.
  revert start. induction placed as [| t placed IH]; intros start; [reflexivity |].
  cbn [slots map ScheduledTask.taskId]. rewrite IH. reflexivity.
Qed.

Lemma placedWithinRemaining_total (remaining : Z) (placed : list ScoredTask.t) :
  0 <= remaining -> placedWithinRemaining remaining placed ->
  totalDuration placed <= remaining.
Proof.
  revert remaining. induction placed as [| t placed IH]; intros remaining Hr Hfit.
  - cbn. exact Hr.
  - cbn [placedWithinRemaining] in Hfit. destruct Hfit as [Hd Hrest].
    cbn [totalDuration fold_right]. fold (totalDuration placed).
    assert (H := IH (remaining - durationMinutes (task t)) ltac:(lia) Hrest). lia.
Qed.

(** The tasks that the packer of the specification places are
    candidates, in their order, each within the minutes remaining at
    its turn. *)
Lemma packed_Subsequence (remaining : Z) (candidates : list ScoredTask.t) :
  Subsequence (packed remaining candidates) candidates.
Proof.
  revert remaining. induction candidates as [| t rest IH]; intros remaining; cbn [packed].
  - constructor.
  - destruct (remaining <? durationMinutes (task t)); [apply sub_skip, IH |].
    destruct (remaining - durationMinutes (task t) <? 15).
    + apply sub_take, Subsequence_nil.
    + apply sub_take, IH.
Qed.

Lemma packed_within (remaining : Z) (candidates : list ScoredTask.t) :
  placedWithinRemaining remaining (packed remaining candidates).
Proof.
  revert remaining. induction candidates as [| t rest IH]; intros remaining; cbn [packed].
  - exact I.
  - destruct (Z.ltb_spec remaining (durationMinutes (task t))) as [Hbig | Hfit];
      [apply IH |].
    destruct (remaining - durationMinutes (task t) <? 15); cbn [placedWithinRemaining].
    + split; [exact Hfit | exact I].
    + split; [exact Hfit | apply IH].
Qed.

(** The allocation loop of one block refines the packer of the
    specification: it places the tasks that [packed] selects, in
    consecutive slots from the current time, adds their scores, uses
    their minutes and removes them from the available tasks. *)
Lemma allocate_packed (zone : TimeZone) (timeOfDay : TimeOfDay)
    (blockTasks : list ScoredTask.t) (st : Allocation) :
  let placed := packed (remainingMinutes st) blockTasks in
  scheduledTasks (allocate zone timeOfDay blockTasks st)
    = scheduledTasks st ++ slots zone (currentTime st) placed
  /\ totalScore (allocate zone timeOfDay blockTasks st)
     = fold_left (fun acc t => (acc + getScoreForTimeOfDay t timeOfDay)%Q)
                 placed (totalScore st)
  /\ remainingMinutes (allocate zone timeOfDay blockTasks st)
     = remainingMinutes st - totalDuration placed
  /\ availableTasks (allocate zone timeOfDay blockTasks st)
     = fold_left (fun l t => removeById (id (task t)) l) placed (availableTasks st).
Proof.
  cbv zeta. revert st. induction blockTasks as [| t rest IH]; intros st.
  - cbn. rewrite app_nil_r. repeat split. lia.
  - cbn [allocate packed].
    destruct (Z.gtb_spec (durationMinutes (task t)) (remainingMinutes st)) as [Hbig | Hfit];
      destruct (Z.ltb_spec (remainingMinutes st) (durationMinutes (task t))) as [Hbig' | Hfit'];
      try lia.
    + apply IH.
    + change (remainingMinutes (placeTask zone timeOfDay t st))
        with (remainingMinutes st - durationMinutes (task t)).
      destruct (Z.ltb_spec (remainingMinutes st - durationMinutes (task t)) 15)
        as [Hstop | Hgo].
      * cbn. repeat split. lia.
      * destruct (IH (placeTask zone timeOfDay t st)) as [Hsched [Hscore [Hrem Hav]]].
        change (remainingMinutes (placeTask zone timeOfDay t st))
          with (remainingMinutes st - durationMinutes (task t)) in Hsched, Hscore, Hrem, Hav.
        split; [rewrite Hsched; cbn; rewrite <- app_assoc; reflexivity |].
        split; [rewrite Hscore; reflexivity |].
        split; [rewrite Hrem; cbn; fold (totalDuration
                  (packed (remainingMinutes st - durationMinutes (task t)) rest)); lia |].
        rewrite Hav. reflexivity.
Qed.

(** What the allocation loop of one block does: it places a
    subsequence of the candidates in consecutive slots from the current
    time, each of them within the minutes remaining at its turn. *)
Lemma allocate_placed (zone : TimeZone) (timeOfDay : TimeOfDay)
    (blockTasks : list ScoredTask.t) (st : Allocation) :
  exists placed,
    Subsequence placed blockTasks
    /\ scheduledTasks (allocate zone timeOfDay blockTasks st)
       = scheduledTasks st ++ slots zone (currentTime st) placed
    /\ remainingMinutes (allocate zone timeOfDay blockTasks st)
       = remainingMinutes st - totalDuration placed
    /\ availableTasks (allocate zone timeOfDay blockTasks st)
       = fold_left (fun l t => removeById (id (task t)) l) placed (availableTasks st)
    /\ placedWithinRemaining (remainingMinutes st) placed.
Proof.
  destruct (allocate_packed zone timeOfDay blockTasks st) as [Hsched [_ [Hrem Hav]]].
  exists (packed (remainingMinutes st) blockTasks).
  split; [apply packed_Subsequence |].
  split; [exact Hsched |]. split; [exact Hrem |]. split; [exact Hav |].
  apply packed_within.
Qed.

Lemma orderForStrategy_perm (strategy : Strategy) (pool ordered : list ScoredTask.t)
    (timeOfDay : TimeOfDay) :
  orderForStrategy strategy pool timeOfDay = Some ordered -> Permutation pool ordered.
Proof.
  destruct strategy; cbn [orderForStrategy]; intros H.
  - injection H as <-. apply arraySort_perm.
  - apply (balanceTaskCategories_perm _ _ _ H).
  - apply (groupSimilarTasks_perm _ _ _ H).
Qed.

(** A strategy throws exactly when it groups by category and the
    category of some task is a name that every object inherits. *)
Lemma orderForStrategy_None (strategy : Strategy) (pool : list ScoredTask.t)
    (timeOfDay : TimeOfDay) :
  orderForStrategy strategy pool timeOfDay = None <->
  strategy <> priority
  /\ exists t, In t pool /\ inheritedProperty (categoryOf t) = true.
Proof.
  destruct strategy; cbn [orderForStrategy].
  - split; [discriminate | intros [H _]; contradiction H; reflexivity].
  - rewrite balanceTaskCategories_None, groupByCategory_None.
    split; [intros H; split; [discriminate | exact H] | tauto].
  - rewrite groupSimilarTasks_None, groupByCategory_None.
    split; [intros H; split; [discriminate | exact H] | tauto].
Qed.

Lemma processBlocks_single (zone : TimeZone) (strategy : Strategy)
    (pool : list ScoredTask.t) (block : TimeBlock.t) :
  processBlocks zone strategy pool [block] =
  match orderForStrategy strategy pool (TimeBlock.timeOfDay block) with
  | None => None
  | Some blockTasks =>
      Some (allocate zone (TimeBlock.timeOfDay block) blockTasks
              (blockStart block (nothingScheduled pool)))
  end.
Proof. reflexivity. Qed.

(** *** The shuffled and jittered pools *)

Lemma arraySet_perm {T : Type} (i : nat) (a b : T) (l : list T) :
  nth_error l i = Some a -> Permutation (a :: arraySet i b l) (b :: l).
Proof.
  revert i. induction l as [| x l IH]; intros i Hi.
  - destruct i; discriminate.
  - destruct i as [| i]; cbn [arraySet nth_error] in *.
    + injection Hi as ->. apply perm_swap.
    + eapply perm_trans; [apply perm_swap |].
      eapply perm_trans; [apply perm_skip, IH; exact Hi |].
      apply perm_swap.
Qed.

Lemma nth_error_arraySet_same {T : Type} (i : nat) (a b : T) (l : list T) :
  nth_error l i = Some a -> nth_error (arraySet i b l) i = Some b.
Proof.
  revert i. induction l as [| x l IH]; intros i Hi.
  - destruct i; discriminate.
  - destruct i as [| i]; cbn [arraySet nth_error] in *; [reflexivity | auto].
Qed.

Lemma nth_error_arraySet_other {T : Type} (i j : nat) (b : T) (l : list T) :
  i <> j -> nth_error (arraySet i b l) j = nth_error l j.
Proof.
  revert i j. induction l as [| x l IH]; intros i j Hij.
  - destruct i; reflexivity.
  - destruct i as [| i], j as [| j]; cbn [arraySet nth_error]; try reflexivity.
    + congruence.
    + apply IH. congruence.
Qed.

Lemma arraySwap_perm {T : Type} (i j : nat) (l : list T) :
  Permutation l (arraySwap i j l).
Proof.
  unfold arraySwap.
  destruct (nth_error l i) as [a |] eqn:Hi; [| apply Permutation_refl].
  destruct (nth_error l j) as [b |] eqn:Hj; [| apply Permutation_refl].
  assert (Hj' : nth_error (arraySet i b l) j = Some b).
  { destruct (Nat.eq_dec i j) as [<- | Hne].
    - eapply nth_error_arraySet_same. exact Hi.
    - rewrite nth_error_arraySet_other by exact Hne. exact Hj. }
  apply (Permutation_cons_inv (a := b)).
  eapply perm_trans; [apply Permutation_sym, (arraySet_perm i a b l Hi) |].
  apply Permutation_sym, (arraySet_perm j b a _ Hj').
Qed.

Lemma shuffleLoop_perm {T : Type} (entropy : Entropy) (i : nat) (l : list T) (cursor : nat) :
  Permutation l (fst (shuffleLoop entropy i l cursor)).
Proof.
  revert l cursor. induction i as [| i IH]; intros l cursor; cbn [shuffleLoop].
  - apply Permutation_refl.
  - unfold mathRandom.
    eapply perm_trans; [apply arraySwap_perm | apply IH].
Qed.

Lemma shuffleArray_perm {T : Type} (entropy : Entropy) (l : list T) (cursor : nat) :
  Permutation l (fst (shuffleArray entropy l cursor)).
Proof. apply shuffleLoop_perm. Qed.

Lemma addRandomnessToScores_tasks (entropy : Entropy) (variance : Q)
    (pool : list ScoredTask.t) (cursor : nat) :
  map task (fst (addRandomnessToScores entropy variance pool cursor)) = map task pool.
Proof.
  revert cursor. induction pool as [| t pool IH]; intros cursor; [reflexivity |].
  cbn [addRandomnessToScores]. unfold mathRandom.
  specialize (IH (S (S cursor))).
  destruct (addRandomnessToScores entropy variance pool (S (S cursor))) as [rest c'].
  cbn [fst map task] in *. rewrite IH. reflexivity.
Qed.

Lemma scoreTasks_tasks (now : Z) (tasks : list Task) (userPrefs : UserPreferences) :
  map task (scoreTasks now tasks userPrefs) = tasks.
Proof.
  unfold scoreTasks. rewrite map_map. cbn [task]. apply map_id.
Qed.

Lemma scoreTasks_category (now : Z) (tasks : list Task) (userPrefs : UserPreferences) :
  map categoryOf (scoreTasks now tasks userPrefs) = map taskCategory tasks.
Proof. unfold scoreTasks. rewrite map_map. reflexivity. Qed.

(** A pool that holds the given tasks has a task with an inherited name
    as category exactly when the given tasks have one. *)
Lemma pool_inherited (tasks : list Task) (pool : list ScoredTask.t) :
  Permutation tasks (map task pool) ->
  (exists t, In t pool /\ inheritedProperty (categoryOf t) = true) <->
  (exists t, In t tasks /\ inheritedProperty (taskCategory t) = true).
Proof.
  intros Hperm. split.
  - intros [t [Hin Hinh]]. exists (task t). split; [| exact Hinh].
    apply (Permutation_in _ (Permutation_sym Hperm)), in_map, Hin.
  - intros [t [Hin Hinh]].
    apply (Permutation_in _ Hperm), in_map_iff in Hin.
    destruct Hin as [s [E Hs]]. exists s. split; [exact Hs |].
    unfold categoryOf. rewrite E. exact Hinh.
Qed.

(** The three options of a run: the priority option is built from the
    scored tasks as they are, the other two from pools that hold the
    same tasks in some order and with other scores; the run returns
    nothing when the allocation of one of them throws. *)
Lemma generateDailySchedules_options (entropy : Entropy) (now : Z) (zone : TimeZone)
    (tasks : list Task) (userPrefs : UserPreferences)
    (startTime : Z) (freeTimeMinutes : option Z) (date : Z) :
  let pool := scoreTasks now tasks userPrefs in
  let blocks := dailyTimeBlocks zone userPrefs startTime freeTimeMinutes in
  exists poolBalanced poolGrouped uid1 uid2 uid3,
    Permutation tasks (map task poolBalanced)
    /\ Permutation tasks (map task poolGrouped)
    /\ generateDailySchedules entropy now zone tasks userPrefs startTime freeTimeMinutes date
       = match processBlocks zone priority pool blocks with
         | None => None
         | Some final1 =>
             match processBlocks zone balanced poolBalanced blocks with
             | None => None
             | Some final2 =>
                 match processBlocks zone grouped poolGrouped blocks with
                 | None => None
                 | Some final3 =>
                     Some [ optionOf uid1 now userPrefs date final1;
                            optionOf uid2 now userPrefs date final2;
                            optionOf uid3 now userPrefs date final3 ]
                 end
             end
         end.
Proof.
  cbn zeta. unfold generateDailySchedules.
  assert (Hs1 := shuffleArray_perm entropy (scoreTasks now tasks userPrefs) 0).
  destruct (shuffleArray entropy (scoreTasks now tasks userPrefs) 0) as [sh1 c1].
  assert (Hj1 := addRandomnessToScores_tasks entropy DEFAULT_VARIANCE sh1 c1).
  destruct (addRandomnessToScores entropy DEFAULT_VARIANCE sh1 c1) as [pool2 c2].
  assert (Hs2 := shuffleArray_perm entropy (scoreTasks now tasks userPrefs) c2).
  destruct (shuffleArray entropy (scoreTasks now tasks userPrefs) c2) as [sh2 c3].
  assert (Hj2 := addRandomnessToScores_tasks entropy DEFAULT_VARIANCE sh2 c3).
  destruct (addRandomnessToScores entropy DEFAULT_VARIANCE sh2 c3) as [pool3 c4].
  cbn [fst] in *.
  exists pool2, pool3,
    (fst (generateUniqueId entropy now c4)),
    (fst (generateUniqueId entropy now (S c4))),
    (fst (generateUniqueId entropy now (S (S c4)))).
  split; [| split].
  - rewrite Hj1. rewrite <- (scoreTasks_tasks now tasks userPrefs) at 1.
    apply Permutation_map. exact Hs1.
  - rewrite Hj2. rewrite <- (scoreTasks_tasks now tasks userPrefs) at 1.
    apply Permutation_map. exact Hs2.
  - unfold generatePriorityBasedSchedule.
    destruct (processBlocks zone priority (scoreTasks now tasks userPrefs)
                (dailyTimeBlocks zone userPrefs startTime freeTimeMinutes));
      [| reflexivity].
    cbn [generateUniqueId mathRandom].
    destruct (processBlocks zone balanced pool2
                (dailyTimeBlocks zone userPrefs startTime freeTimeMinutes));
      [| reflexivity].
    destruct (processBlocks zone grouped pool3
                (dailyTimeBlocks zone userPrefs startTime freeTimeMinutes));
      reflexivity.
Qed.

Lemma processBlocks_priority (zone : TimeZone) (pool : list ScoredTask.t)
    (block : TimeBlock.t) :
  processBlocks zone priority pool [block] =
  Some (allocate zone (TimeBlock.timeOfDay block)
          (sortTasksByTimeOfDay pool (TimeBlock.timeOfDay block))
          (blockStart block (nothingScheduled pool))).
Proof. reflexivity. Qed.

Lemma dailyTimeBlocks_single (zone : TimeZone) (userPrefs : UserPreferences)
    (startTime : Z) (freeTimeMinutes : option Z) :
  exists block,
    dailyTimeBlocks zone userPrefs startTime freeTimeMinutes = [block]
    /\ TimeBlock.startTime block = startTime
    /\ TimeBlock.availableMinutes block = budgetOrDefault freeTimeMinutes userPrefs.
Proof. eexists. split; [reflexivity |]. split; reflexivity. Qed.

(** The options that a run returns, with the final states of the three
    allocations over the single block of the run. *)
Lemma generateDailySchedules_Some (entropy : Entropy) (now : Z) (zone : TimeZone)
    (tasks : list Task) (userPrefs : UserPreferences)
    (startTime : Z) (freeTimeMinutes : option Z) (date : Z)
    (options : list ScheduleOption.t) :
  generateDailySchedules entropy now zone tasks userPrefs startTime freeTimeMinutes date
    = Some options ->
  exists block poolBalanced poolGrouped uid1 uid2 uid3 final1 final2 final3,
    dailyTimeBlocks zone userPrefs startTime freeTimeMinutes = [block]
    /\ TimeBlock.startTime block = startTime
    /\ TimeBlock.availableMinutes block = budgetOrDefault freeTimeMinutes userPrefs
    /\ Permutation tasks (map task poolBalanced)
    /\ Permutation tasks (map task poolGrouped)
    /\ processBlocks zone priority (scoreTasks now tasks userPrefs) [block] = Some final1
    /\ processBlocks zone balanced poolBalanced [block] = Some final2
    /\ processBlocks zone grouped poolGrouped [block] = Some final3
    /\ options = [ optionOf uid1 now userPrefs date final1;
                   optionOf uid2 now userPrefs date final2;
                   optionOf uid3 now userPrefs date final3 ].
Proof.
  intros Hrun.
  destruct (generateDailySchedules_options entropy now zone tasks userPrefs
              startTime freeTimeMinutes date)
    as [pool2 [pool3 [uid1 [uid2 [uid3 [Hp2 [Hp3 Hopts]]]]]]].
  cbn zeta in Hopts. rewrite Hrun in Hopts.
  destruct (dailyTimeBlocks_single zone userPrefs startTime freeTimeMinutes)
    as [block [Hblocks [Hstart Havail]]].
  rewrite Hblocks in Hopts.
  destruct (processBlocks zone priority (scoreTasks now tasks userPrefs) [block])
    as [final1 |] eqn:H1; [| discriminate].
  destruct (processBlocks zone balanced pool2 [block]) as [final2 |] eqn:H2;
    [| discriminate].
  destruct (processBlocks zone grouped pool3 [block]) as [final3 |] eqn:H3;
    [| discriminate].
  injection Hopts as ->.
  exists block, pool2, pool3, uid1, uid2, uid3, final1, final2, final3.
  repeat split; assumption.
Qed.

(** A run throws exactly when the category of some task is a name that
    every object inherits. *)
Lemma generateDailySchedules_None (entropy : Entropy) (now : Z) (zone : TimeZone)
    (tasks : list Task) (userPrefs : UserPreferences)
    (startTime : Z) (freeTimeMinutes : option Z) (date : Z) :
  generateDailySchedules entropy now zone tasks userPrefs startTime freeTimeMinutes date
    = None <->
  exists t, In t tasks /\ inheritedProperty (taskCategory t) = true.
Proof.
  destruct (generateDailySchedules_options entropy now zone tasks userPrefs
              startTime freeTimeMinutes date)
    as [pool2 [pool3 [uid1 [uid2 [uid3 [Hp2 [Hp3 Hopts]]]]]]].
  cbn zeta in Hopts. rewrite Hopts.
  destruct (dailyTimeBlocks_single zone userPrefs startTime freeTimeMinutes)
    as [block [Hblocks _]].
  rewrite Hblocks, processBlocks_priority.
  rewrite !processBlocks_single.
  destruct (orderForStrategy balanced pool2 (TimeBlock.timeOfDay block)) eqn:H2.
  - destruct (orderForStrategy grouped pool3 (TimeBlock.timeOfDay block)) eqn:H3.
    + split; [discriminate |]. intros Hinh.
      apply (pool_inherited tasks pool2 Hp2) in Hinh.
      assert (Hnone : orderForStrategy balanced pool2 (TimeBlock.timeOfDay block) = None).
      { apply orderForStrategy_None. split; [discriminate | exact Hinh]. }
      congruence.
    + split; [intros _ | reflexivity].
      apply orderForStrategy_None in H3. destruct H3 as [_ Hinh].
      apply (pool_inherited tasks pool3 Hp3). exact Hinh.
  - split; [intros _ | reflexivity].
    apply orderForStrategy_None in H2. destruct H2 as [_ Hinh].
    apply (pool_inherited tasks pool2 Hp2). exact Hinh.
Qed.

Lemma generateDailySchedules_throws (entropy : Entropy) (now : Z) (zone : TimeZone)
    (tasks : list Task) (userPrefs : UserPreferences)
    (startTime : Z) (freeTimeMinutes : option Z) (date : Z) :
  generateDailySchedules entropy now zone tasks userPrefs startTime freeTimeMinutes date
    = None ->
  exists t, In t tasks /\ In (taskCategory t) inheritedProperties.
Proof.
  intros Hrun. apply generateDailySchedules_None in Hrun.
  destruct Hrun as [t [Hin Hinh]]. exists t.
  split; [exact Hin | apply inheritedProperty_In; exact Hinh].
Qed.

(** A schedule built over a single block from a pool that holds the
    given tasks. *)
Lemma single_block_schedule (zone : TimeZone) (strategy : Strategy)
    (pool : list ScoredTask.t) (block : TimeBlock.t) (tasks : list Task)
    (final : Allocation) :
  Permutation tasks (map task pool) ->
  NoDup (map id tasks) ->
  0 <= TimeBlock.availableMinutes block ->
  processBlocks zone strategy pool [block] = Some final ->
  NoDup (map ScheduledTask.taskId (scheduledTasks final))
  /\ exists placed,
       scheduledTasks final = slots zone (TimeBlock.startTime block) placed
       /\ incl (map task placed) tasks
       /\ placedWithinRemaining (TimeBlock.availableMinutes block) placed
       /\ totalDuration placed <= TimeBlock.availableMinutes block.
Proof.
  intros Hpool Hids Havail Hfinal.
  rewrite processBlocks_single in Hfinal.
  destruct (orderForStrategy strategy pool (TimeBlock.timeOfDay block))
    as [ordered |] eqn:Horder; [| discriminate].
  injection Hfinal as <-.
  destruct (allocate_placed zone (TimeBlock.timeOfDay block) ordered
              (blockStart block (nothingScheduled pool)))
    as [placed [Hsub [Hsched [_ [_ Hfits]]]]].
  cbn [blockStart nothingScheduled scheduledTasks currentTime remainingMinutes app]
    in Hsched, Hfits.
  assert (Hordered : Permutation tasks (map task ordered)).
  { eapply perm_trans; [exact Hpool |].
    apply Permutation_map, (orderForStrategy_perm _ _ _ _ Horder). }
  assert (Hsub' : Subsequence (map task placed) (map task ordered))
    by (apply Subsequence_map; exact Hsub).
  split.
  - rewrite Hsched, slots_ids, <- (map_map task id).
    eapply Subsequence_NoDup; [apply Subsequence_map; exact Hsub' |].
    eapply Permutation_NoDup; [apply Permutation_map; exact Hordered | exact Hids].
  - exists placed. split; [exact Hsched |]. split; [| split; [exact Hfits |]].
    + intros t Ht. apply (Permutation_in _ (Permutation_sym Hordered)).
      eapply Subsequence_In; eassumption.
    + apply placedWithinRemaining_total; assumption.
Qed.

(** C2. In every option produced by [generateScheduleOptions], for
    tasks with distinct ids and a non-negative budget: no task id
    appears twice in the option's task list, the scheduled tasks are
    input tasks placed in the single block of the run, each placed only
    when its duration was at most the minutes then remaining, and the
    durations of the placed tasks sum to at most the block's available
    minutes.  The run produces three options, unless the category of a
    task is a name that every object inherits, in which case it
    throws. *)
Theorem schedule_options_distinct_and_fit
    (entropy : Entropy) (now : Z) (zone : TimeZone) (tasks : list Task)
    (userPrefs : UserPreferences)
    (startTime : Z) (freeTimeMinutes : option Z) (date : Z)
    (Hids : NoDup (map id tasks))
    (Hbudget : 0 <= budgetOrDefault freeTimeMinutes userPrefs) :
  match generateScheduleOptions entropy now zone tasks userPrefs
          startTime freeTimeMinutes date with
  | None => exists t, In t tasks /\ In (taskCategory t) inheritedProperties
  | Some options =>
      List.length options = 3%nat
      /\ exists block,
           dailyTimeBlocks zone userPrefs startTime freeTimeMinutes = [block]
           /\ Forall
                (fun scheduled =>
                   NoDup (map ScheduledTask.taskId scheduled)
                   /\ exists placed,
                        scheduled = slots zone (TimeBlock.startTime block) placed
                        /\ incl (map task placed) tasks
                        /\ placedWithinRemaining (TimeBlock.availableMinutes block) placed
                        /\ totalDuration placed <= TimeBlock.availableMinutes block)
                (map ScheduleOption.tasks options)
  end.
Proof.
  unfold generateScheduleOptions.
  destruct (generateDailySchedules entropy now zone tasks userPrefs
              startTime freeTimeMinutes date) as [options |] eqn:Hrun;
    [| apply (generateDailySchedules_throws _ _ _ _ _ _ _ _ Hrun)].
  destruct (generateDailySchedules_Some entropy now zone tasks userPrefs
              startTime freeTimeMinutes date options Hrun)
    as [block [pool2 [pool3 [uid1 [uid2 [uid3 [final1 [final2 [final3
         [Hblocks [_ [Havail [Hp2 [Hp3 [H1 [H2 [H3 ->]]]]]]]]]]]]]]]]].
  split; [reflexivity |].
  exists block. split; [exact Hblocks |].
  rewrite <- Havail in Hbudget.
  cbn [map optionOf ScheduleOption.tasks].
  repeat (apply Forall_cons); [| | | constructor].
  - apply (single_block_schedule zone priority (scoreTasks now tasks userPrefs)
             block tasks final1); try assumption.
    rewrite scoreTasks_tasks. apply Permutation_refl.
  - apply (single_block_schedule zone balanced pool2 block tasks final2); assumption.
  - apply (single_block_schedule zone grouped pool3 block tasks final3); assumption.
Qed.

Lemma schedule_options_distinct_and_fit_witness :
  exists options,
    generateScheduleOptions Sample.highEntropy Sample.start Sample.utc
      Sample.twoLongTasks (Sample.prefs 60 0) Sample.start (Some 60) Sample.start
    = Some options
    /\ List.length options = 3%nat.
Proof.
  assert (Hids : NoDup (map id Sample.twoLongTasks)).
  { cbn. constructor.
    - intros [H | []]. discriminate H.
    - constructor; [intros [] | constructor]. }
  assert (Hbudget : 0 <= budgetOrDefault (Some 60) (Sample.prefs 60 0)) by (cbn; lia).
  pose proof (schedule_options_distinct_and_fit Sample.highEntropy Sample.start Sample.utc
                Sample.twoLongTasks (Sample.prefs 60 0) Sample.start (Some 60) Sample.start
                Hids Hbudget) as H.
  destruct (generateScheduleOptions Sample.highEntropy Sample.start Sample.utc
              Sample.twoLongTasks (Sample.prefs 60 0) Sample.start (Some 60) Sample.start)
    as [options |] eqn:E.
  - exists options. split; [reflexivity | apply H].
  - vm_compute in E. discriminate E.
Defined.

Lemma addMinutes_fixedOffset (offset date m : Z) :
  addMinutes (fixedOffset offset) date m = date + m * 60000.
Proof. unfold addMinutes, utcTime, localTime. cbn [fixedOffset offsetAtInstant offsetAtLocal]. lia. Qed.




Lemma Subsequence_Forall {T : Type} (P : T -> Prop) (l1 l2 : list T) :
  Subsequence l1 l2 -> Forall P l2 -> Forall P l1.
Proof.
  intros Hsub Hall. apply Forall_forall. intros x Hx.
  rewrite Forall_forall in Hall. apply Hall. eapply Subsequence_In; eassumption.
Qed.

Lemma Subsequence_StronglySorted {T : Type} (R : T -> T -> Prop) (l1 l2 : list T) :
  Subsequence l1 l2 -> StronglySorted R l2 -> StronglySorted R l1.
Proof.
  induction 1 as [| y l1 l2 Hs IH | y l1 l2 Hs IH]; intros Hsorted.
  - constructor.
  - inversion Hsorted; subst. auto.
  - inversion Hsorted as [| ? ? Hrest Hall]; subst.
    constructor; [auto |]. eapply Subsequence_Forall; eassumption.
Qed.

(** The packer places the first candidate that fits. *)
Lemma packed_first_fit (remaining : Z) (skipped rest : list ScoredTask.t)
    (t : ScoredTask.t) :
  Forall (fun s => remaining < durationMinutes (task s)) skipped ->
  durationMinutes (task t) <= remaining ->
  exists more, packed remaining (skipped ++ t :: rest) = t :: more.
Proof.
  intros Hskipped Hfit.
  induction Hskipped as [| s skipped Hs _ IH]; cbn [app packed].
  - destruct (Z.ltb_spec remaining (durationMinutes (task t))); [lia |].
    destruct (remaining - durationMinutes (task t) <? 15); eauto.
  - destruct (Z.ltb_spec remaining (durationMinutes (task s))); [exact IH | lia].
Qed.

(** C9. The first option of a run does not depend on the entropy
    source: two runs on the same input either both throw, when the
    category of a task is a name that every object inherits, or both
    return options whose first ones have the same task list and the
    same total score.  That task list is the packing, into the single
    block of the run, of the scored tasks, unshuffled and without
    jitter, in the priority order; the priority order is the stable
    sort by descending score for the time of day of the block (a
    permutation, sorted, tasks of equal score in their input order);
    the scheduled tasks follow that order, and the first task of it
    that fits the budget is the first task scheduled. *)
Theorem priority_option_deterministic
    (entropy1 entropy2 : Entropy) (now : Z) (zone : TimeZone) (tasks : list Task)
    (userPrefs : UserPreferences) (startTime : Z) (freeTimeMinutes : option Z) (date : Z) :
  let pool := scoreTasks now tasks userPrefs in
  let score timeOfDay t := getScoreForTimeOfDay t timeOfDay in
  match generateScheduleOptions entropy1 now zone tasks userPrefs
          startTime freeTimeMinutes date,
        generateScheduleOptions entropy2 now zone tasks userPrefs
          startTime freeTimeMinutes date with
  | None, None => exists t, In t tasks /\ In (taskCategory t) inheritedProperties
  | Some options1, Some options2 =>
      exists block first1 rest1 first2 rest2,
        dailyTimeBlocks zone userPrefs startTime freeTimeMinutes = [block]
        /\ options1 = first1 :: rest1
        /\ options2 = first2 :: rest2
        /\ ScheduleOption.tasks first1 = ScheduleOption.tasks first2
        /\ ScheduleOption.totalScore first1 = ScheduleOption.totalScore first2
        /\ let sorted := sortTasksByTimeOfDay pool (TimeBlock.timeOfDay block) in
           let placed := packed (TimeBlock.availableMinutes block) sorted in
           ScheduleOption.tasks first1 = slots zone (TimeBlock.startTime block) placed
           /\ map ScheduledTask.taskId (ScheduleOption.tasks first1)
              = map (fun t => id (task t)) placed
           /\ Subsequence placed sorted
           /\ Permutation pool sorted
           /\ StronglySorted
                (fun t1 t2 => (score (TimeBlock.timeOfDay block) t2
                               <= score (TimeBlock.timeOfDay block) t1)%Q) sorted
           /\ (forall q,
                 filter (fun t => Qeq_bool (score (TimeBlock.timeOfDay block) t) q) sorted
                 = filter (fun t => Qeq_bool (score (TimeBlock.timeOfDay block) t) q) pool)
           /\ StronglySorted
                (fun t1 t2 => (score (TimeBlock.timeOfDay block) t2
                               <= score (TimeBlock.timeOfDay block) t1)%Q) placed
           /\ (forall skipped t rest,
                 sorted = skipped ++ t :: rest ->
                 Forall (fun s => TimeBlock.availableMinutes block
                                  < durationMinutes (task s)) skipped ->
                 durationMinutes (task t) <= TimeBlock.availableMinutes block ->
                 exists more, placed = t :: more)
  | _, _ => False
  end.
Proof.
  cbv zeta. unfold generateScheduleOptions.
  destruct (generateDailySchedules entropy1 now zone tasks userPrefs
              startTime freeTimeMinutes date) as [options1 |] eqn:Hrun1;
    destruct (generateDailySchedules entropy2 now zone tasks userPrefs
                startTime freeTimeMinutes date) as [options2 |] eqn:Hrun2.
  2:{ apply generateDailySchedules_None in Hrun2.
      apply (proj2 (generateDailySchedules_None entropy1 now zone tasks userPrefs
                      startTime freeTimeMinutes date)) in Hrun2.
      congruence. }
  2:{ apply generateDailySchedules_None in Hrun1.
      apply (proj2 (generateDailySchedules_None entropy2 now zone tasks userPrefs
                      startTime freeTimeMinutes date)) in Hrun1.
      congruence. }
  2:{ apply (generateDailySchedules_throws _ _ _ _ _ _ _ _ Hrun1). }
  destruct (generateDailySchedules_Some entropy1 now zone tasks userPrefs
              startTime freeTimeMinutes date options1 Hrun1)
    as [block [p2 [p3 [uid1 [uid2 [uid3 [final1 [final2 [final3
         [Hblocks [_ [_ [_ [_ [H1 [_ [_ ->]]]]]]]]]]]]]]]]].
  destruct (generateDailySchedules_Some entropy2 now zone tasks userPrefs
              startTime freeTimeMinutes date options2 Hrun2)
    as [block' [q2 [q3 [vid1 [vid2 [vid3 [g1 [g2 [g3
         [Hblocks' [_ [_ [_ [_ [G1 [_ [_ ->]]]]]]]]]]]]]]]]].
  assert (Eblock : block' = block) by congruence. subst block'.
  assert (Efinal : g1 = final1) by congruence. subst g1.
  rewrite processBlocks_priority in H1. injection H1 as H1.
  exists block, (optionOf uid1 now userPrefs date final1),
    [optionOf uid2 now userPrefs date final2; optionOf uid3 now userPrefs date final3],
    (optionOf vid1 now userPrefs date final1),
    [optionOf vid2 now userPrefs date g2; optionOf vid3 now userPrefs date g3].
  split; [exact Hblocks |]. split; [reflexivity |]. split; [reflexivity |].
  split; [reflexivity |]. split; [reflexivity |].
  cbn [optionOf ScheduleOption.tasks].
  destruct (allocate_packed zone (TimeBlock.timeOfDay block)
              (sortTasksByTimeOfDay (scoreTasks now tasks userPrefs)
                 (TimeBlock.timeOfDay block))
              (blockStart block (nothingScheduled (scoreTasks now tasks userPrefs))))
    as [Hsched _].
  rewrite H1 in Hsched.
  cbn [blockStart nothingScheduled scheduledTasks currentTime remainingMinutes app]
    in Hsched.
  assert (Hsorted :
    StronglySorted
      (fun t1 t2 => (getScoreForTimeOfDay t2 (TimeBlock.timeOfDay block)
                     <= getScoreForTimeOfDay t1 (TimeBlock.timeOfDay block))%Q)
      (sortTasksByTimeOfDay (scoreTasks now tasks userPrefs) (TimeBlock.timeOfDay block))).
  { apply (arraySort_sorted ScoredTask.t
             (fun t => getScoreForTimeOfDay t (TimeBlock.timeOfDay block))). }
  split; [exact Hsched |].
  split; [rewrite Hsched; apply slots_ids |].
  split; [apply packed_Subsequence |].
  split; [apply arraySort_perm |].
  split; [exact Hsorted |].
  split.
  { intros q.
    apply (arraySort_stable ScoredTask.t
             (fun t => getScoreForTimeOfDay t (TimeBlock.timeOfDay block))). }
  split.
  { eapply Subsequence_StronglySorted; [apply packed_Subsequence | exact Hsorted]. }
  intros skipped t rest Hsplit Hskipped Hfit.
  rewrite Hsplit. apply packed_first_fit; assumption.
Qed.

(** *** Several blocks

    [generatePriorityBasedSchedule] accepts any list of blocks; a task
    placed in one block is removed from the tasks available to the next,
    so no id is scheduled twice whatever the blocks are. *)

Lemma removeById_perm (i : string) (l : list ScoredTask.t) :
  In i (map (fun t => id (task t)) l) ->
  Permutation (map (fun t => id (task t)) l)
              (i :: map (fun t => id (task t)) (removeById i l)).
Proof.
  induction l as [| t l IH]; cbn [map In removeById]; [contradiction |].
  intros Hin.
  destruct (String.eqb_spec (id (task t)) i) as [<- | Hne].
  - apply Permutation_refl.
  - destruct Hin as [E | Hin]; [contradiction |].
    cbn [map]. eapply perm_trans; [apply perm_skip, IH; exact Hin |].
    apply perm_swap.
Qed.

Lemma allocate_distinct (zone : TimeZone) (timeOfDay : TimeOfDay)
    (blockTasks : list ScoredTask.t) (st : Allocation) :
  NoDup (map (fun t => id (task t)) blockTasks) ->
  incl (map (fun t => id (task t)) blockTasks)
       (map (fun t => id (task t)) (availableTasks st)) ->
  NoDup (map ScheduledTask.taskId (scheduledTasks st)
         ++ map (fun t => id (task t)) (availableTasks st)) ->
  NoDup (map ScheduledTask.taskId (scheduledTasks (allocate zone timeOfDay blockTasks st))
         ++ map (fun t => id (task t))
              (availableTasks (allocate zone timeOfDay blockTasks st))).
Proof.
  revert st. induction blockTasks as [| t rest IH]; intros st Hnd Hincl Hinv; [exact Hinv |].
  cbn [map] in Hnd, Hincl. inversion Hnd as [| ? ? Hnotin Hnd']; subst.
  assert (Hrest : incl (map (fun t => id (task t)) rest)
                       (map (fun t => id (task t)) (availableTasks st))).
  { intros x Hx. apply Hincl. right. exact Hx. }
  cbn [allocate].
  destruct (durationMinutes (task t) >? remainingMinutes st); [apply IH; assumption |].
  assert (Hperm := removeById_perm (id (task t)) (availableTasks st)
                     (Hincl _ (or_introl eq_refl))).
  assert (Hinv' :
    NoDup (map ScheduledTask.taskId (scheduledTasks (placeTask zone timeOfDay t st))
           ++ map (fun t => id (task t)) (availableTasks (placeTask zone timeOfDay t st)))).
  { cbn [placeTask scheduledTasks availableTasks].
    rewrite map_app, <- app_assoc. cbn [map app ScheduledTask.taskId].
    eapply Permutation_NoDup; [| exact Hinv].
    apply Permutation_app_head. exact Hperm. }
  destruct (remainingMinutes (placeTask zone timeOfDay t st) <? 15); [exact Hinv' |].
  apply IH; [exact Hnd' | | exact Hinv'].
  intros x Hx. cbn [placeTask availableTasks].
  assert (Hin := Permutation_in _ Hperm (Hrest x Hx)).
  destruct Hin as [<- | Hin]; [contradiction | exact Hin].
Qed.

(** An invariant of the loop over the blocks holds of its final state. *)
Lemma processBlocks_invariant (zone : TimeZone) (strategy : Strategy)
    (P : Allocation -> Prop) (pool : list ScoredTask.t) (blocks : list TimeBlock.t)
    (final : Allocation) :
  P (nothingScheduled pool) ->
  (forall st block ordered,
     P st ->
     orderForStrategy strategy (availableTasks st) (TimeBlock.timeOfDay block)
       = Some ordered ->
     P (allocate zone (TimeBlock.timeOfDay block) ordered (blockStart block st))) ->
  processBlocks zone strategy pool blocks = Some final ->
  P final.
Proof.
  intros Hinit Hstep. unfold processBlocks.
  generalize (nothingScheduled pool) Hinit. clear Hinit.
  induction blocks as [| block blocks IH]; intros st Hst Hfinal; cbn [fold_left] in Hfinal.
  - injection Hfinal as <-. exact Hst.
  - unfold processBlock at 2 in Hfinal.
    destruct (orderForStrategy strategy (availableTasks st) (TimeBlock.timeOfDay block))
      as [ordered |] eqn:Horder.
    + apply (IH _ (Hstep st block ordered Hst Horder) Hfinal).
    + exfalso. clear -Hfinal.
      induction blocks as [| b blocks IHb]; cbn [fold_left] in Hfinal;
        [discriminate | auto].
Qed.

Lemma processBlocks_thrown (zone : TimeZone) (strategy : Strategy)
    (blocks : list TimeBlock.t) :
  fold_left
    (fun state block =>
       match state with
       | Some st => processBlock zone strategy st block
       | None => None
       end)
    blocks None = None.
Proof. induction blocks as [| block blocks IH]; [reflexivity | exact IH]. Qed.

(** The loop over the blocks either ends in a state that satisfies the
    invariant or throws in a state that does, at a block for which the
    strategy throws. *)
Lemma processBlocks_cases (zone : TimeZone) (strategy : Strategy)
    (P : Allocation -> Prop) (pool : list ScoredTask.t) (blocks : list TimeBlock.t) :
  P (nothingScheduled pool) ->
  (forall st block ordered,
     P st ->
     orderForStrategy strategy (availableTasks st) (TimeBlock.timeOfDay block)
       = Some ordered ->
     P (allocate zone (TimeBlock.timeOfDay block) ordered (blockStart block st))) ->
  match processBlocks zone strategy pool blocks with
  | Some final => P final
  | None =>
      exists st block,
        P st
        /\ orderForStrategy strategy (availableTasks st) (TimeBlock.timeOfDay block) = None
  end.
Proof.
  intros Hinit Hstep. unfold processBlocks.
  generalize (nothingScheduled pool) Hinit. clear Hinit.
  induction blocks as [| block blocks IH]; intros st Hst; cbn [fold_left];
    [exact Hst |].
  unfold processBlock at 2.
  destruct (orderForStrategy strategy (availableTasks st) (TimeBlock.timeOfDay block))
    as [ordered |] eqn:Horder.
  - apply IH. apply (Hstep st block ordered Hst Horder).
  - rewrite processBlocks_thrown. exists st, block. split; assumption.
Qed.

Lemma processBlocks_distinct (zone : TimeZone) (strategy : Strategy)
    (pool : list ScoredTask.t) (blocks : list TimeBlock.t) (final : Allocation) :
  NoDup (map (fun t => id (task t)) pool) ->
  processBlocks zone strategy pool blocks = Some final ->
  NoDup (map ScheduledTask.taskId (scheduledTasks final)).
Proof.
  intros Hpool Hfinal.
  eapply NoDup_app_remove_r.
  apply (processBlocks_invariant zone strategy
           (fun st => NoDup (map ScheduledTask.taskId (scheduledTasks st)
                             ++ map (fun t => id (task t)) (availableTasks st)))
           pool blocks final); [exact Hpool | | exact Hfinal].
  intros st block ordered Hinv Horder.
  assert (Hperm := orderForStrategy_perm _ _ _ _ Horder).
  apply allocate_distinct; cbn [blockStart availableTasks scheduledTasks].
  - eapply Permutation_NoDup; [apply Permutation_map; exact Hperm |].
    eapply NoDup_app_remove_l. exact Hinv.
  - intros x Hx.
    eapply Permutation_in; [apply Permutation_map, Permutation_sym; exact Hperm | exact Hx].
  - exact Hinv.
Qed.

(** *** The shuffle stays inside the array *)

Lemma shuffle_index_in_range (u : UnitInterval) (i : nat) :
  (Z.to_nat (Qfloor (u_val u * inject_Z (Z.of_nat i + 1))) <= i)%nat.
Proof.
  destruct u as [r Hr]. cbn [u_val].
  apply andb_prop in Hr. destruct Hr as [H0 H1].
  apply Qle_bool_iff in H0.
  apply negb_true_iff in H1.
  assert (Hlt : (r < 1)%Q).
  { destruct (Qlt_le_dec r 1) as [H | H]; [exact H |].
    apply Qle_bool_iff in H. congruence. }
  assert (Hpos : (0 < inject_Z (Z.of_nat i + 1))%Q).
  { change 0%Q with (inject_Z 0). rewrite <- Zlt_Qlt. lia. }
  assert (Hup : (r * inject_Z (Z.of_nat i + 1) < inject_Z (Z.of_nat i + 1))%Q) by nra.
  assert (Hfl : (inject_Z (Qfloor (r * inject_Z (Z.of_nat i + 1)))
                 < inject_Z (Z.of_nat i + 1))%Q).
  { eapply Qle_lt_trans; [apply Qfloor_le | exact Hup]. }
  rewrite <- Zlt_Qlt in Hfl. lia.
Qed.

Lemma arraySwap_in_range {T : Type} (i j : nat) (l : list T) :
  (j <= i)%nat -> (i < List.length l)%nat ->
  exists a b,
    nth_error l i = Some a /\ nth_error l j = Some b
    /\ arraySwap i j l = arraySet j a (arraySet i b l).
Proof.
  intros Hji Hi.
  destruct (nth_error l i) as [a |] eqn:Ea;
    [| apply nth_error_None in Ea; lia].
  destruct (nth_error l j) as [b |] eqn:Eb;
    [| apply nth_error_None in Eb; lia].
  exists a, b. unfold arraySwap. rewrite Ea, Eb. auto.
Qed.

End Packer.

(** ** The tests of the repository, run on the embedding *)

Section RepositoryTests.

Import ScheduleGenerator.
Local Open Scope string_scope.

(** [TaskScoring.test.ts]: urgency 4, difficulty 3, morning factor 1.2,
    deadline one hour after the frozen clock. *)
Example test_weighted_score :
  (TaskScoring.calculateTaskScore 1672531200000
     {| id := "t"; urgency := 4; difficulty := 3; durationMinutes := 30;
        deadline := Some (Timestamp (1672531200000 + 3600000)); tags := [] |}
     {| userId := "test-user"; morningComplexFactor := 1.2; eveningComplexFactor := 1;
        morningAvailableTime := 60; eveningAvailableTime := 60 |}
     MORNING
   == 4 * 20 * 0.45 + (100 - Qabs (3 / 5 - 1.2 / 1.5) * 100) * 0.35
      + 100 * (1 / (1 + 0.01 * 1)) * 0.20)%Q.
Proof. vm_compute. reflexivity. Qed.

(** The same test on binary64 numbers: the score is 83.80 to one decimal. *)
Example test_weighted_score_binary64 :
  let score :=
    Binary64.calculateTaskScore 1672531200000
      {| Binary64.urgency := 4%float; Binary64.difficulty := 3%float;
         Binary64.deadline := Some (Timestamp (1672531200000 + 3600000)) |}
      {| Binary64.morningComplexFactor := 1.2%float;
         Binary64.eveningComplexFactor := 1%float |}
      MORNING in
  PrimFloat.ltb 83.75%float score = true /\ PrimFloat.ltb score 83.875%float = true.
Proof. split; vm_compute; reflexivity. Qed.

(** "creates three schedule options with tasks ordered by priority" *)
Example test_priority_order :
  Sample.scheduledIds Sample.highEntropy Sample.priorityTestTasks 120 120
  = Some [["A"; "B"; "C"]; ["A"; "B"; "C"]; ["A"; "B"; "C"]].
Proof. vm_compute. reflexivity. Qed.

(** "balances tasks across categories": the categories alternate; which
    of the two comes first in the balanced option depends on the draws. *)
Example test_balanced_order :
  option_map (fun ids => nth 1 ids [])
    (Sample.scheduledIds Sample.highEntropy Sample.balancedTestTasks 120 120)
    = Some ["A1"; "B1"; "A2"; "B2"]
  /\ option_map (fun ids => nth 1 ids [])
       (Sample.scheduledIds Sample.zeroEntropy Sample.balancedTestTasks 120 120)
    = Some ["B1"; "A1"; "B2"; "A2"].
Proof. split; vm_compute; reflexivity. Qed.

(** "groups similar tasks together" *)
Example test_grouped_order :
  option_map (fun ids => nth 2 ids [])
    (Sample.scheduledIds Sample.highEntropy Sample.groupedTestTasks 120 120)
    = Some ["A1"; "A2"; "B1"; "B2"]
  /\ option_map (fun ids => nth 2 ids [])
       (Sample.scheduledIds Sample.zeroEntropy Sample.groupedTestTasks 120 120)
    = Some ["A1"; "A2"; "B1"; "B2"].
Proof. split; vm_compute; reflexivity. Qed.

(** "respects available time when scheduling" *)
Example test_available_time :
  option_map (fun ids => nth 0 ids [])
    (Sample.scheduledIds Sample.highEntropy Sample.twoLongTasks 60 60)
    = Some ["A"].
Proof. vm_compute. reflexivity. Qed.

End RepositoryTests.

(** * Further properties of the code *)

(** ** TaskScoring.ts: how the score responds to its inputs *)

Section ScoringResponse.

Import TaskScoring.
Local Open Scope Q_scope.

Lemma clamp_monotone (x y : Q) :
  x <= y -> Qmin 100 (Qmax 0 x) <= Qmin 100 (Qmax 0 y).
Proof. intros H. apply Q.min_le_compat_l, Q.max_le_compat_l. exact H. Qed.

Lemma clamp_inactive (x : Q) : 0 <= x <= 100 -> Qmin 100 (Qmax 0 x) == x.
Proof.
  intros [H0 H1]. rewrite (Q.max_r 0 x H0). apply Q.min_r. exact H1.
Qed.

Lemma clamp_step (x e : Q) :
  0 <= e -> Qmin 100 (Qmax 0 (x + e)) <= Qmin 100 (Qmax 0 x) + e.
Proof.
  intros He.
  destruct (Q.max_spec 0 (x + e)) as [[H1 E1] | [H1 E1]];
    destruct (Q.max_spec 0 x) as [[H2 E2] | [H2 E2]];
    destruct (Q.min_spec 100 (Qmax 0 (x + e))) as [[H3 E3] | [H3 E3]];
    destruct (Q.min_spec 100 (Qmax 0 x)) as [[H4 E4] | [H4 E4]];
    rewrite E3, E4; rewrite ?E1, ?E2 in *; lra.
Qed.

Lemma deadlineCurve_le_100 (h : Q) : 0 <= h -> 100 * (1 / (1 + 0.01 * h)) <= 100.
Proof.
  intros Hh.
  assert (H1 : 1 / (1 + 0.01 * h) <= 1).
  { apply Qle_shift_div_r; lra. }
  lra.
Qed.

Lemma deadlineCurve_antitone (h1 h2 : Q) :
  0 <= h1 -> h1 <= h2 ->
  100 * (1 / (1 + 0.01 * h2)) <= 100 * (1 / (1 + 0.01 * h1)).
Proof.
  intros H0 H12.
  assert (Hd1 : 0 < 1 + 0.01 * h1) by lra.
  assert (Hd2 : 0 < 1 + 0.01 * h2) by lra.
  assert (H : 1 / (1 + 0.01 * h2) <= 1 / (1 + 0.01 * h1)).
  { apply Qle_shift_div_r; [exact Hd2 |].
    setoid_replace (1 / (1 + 0.01 * h1) * (1 + 0.01 * h2))
      with ((1 + 0.01 * h2) / (1 + 0.01 * h1)) by (field; lra).
    apply Qle_shift_div_l; lra. }
  lra.
Qed.

Lemma calculateDeadlineScore_range (now : Z) (deadline : option DateType) :
  0 <= calculateDeadlineScore now deadline <= 100.
Proof.
  destruct deadline as [d |]; cbn [calculateDeadlineScore]; [| lra].
  split.
  - apply Qlt_le_weak, deadlineCurve_pos, hoursUntilDeadline_nonneg.
  - apply deadlineCurve_le_100, hoursUntilDeadline_nonneg.
Qed.

Lemma hoursUntilDeadline_monotone (now ms1 ms2 : Z) (d1 d2 : DateType) :
  convertToDate now (Some d1) = ms1 -> convertToDate now (Some d2) = ms2 ->
  (ms1 <= ms2)%Z ->
  hoursUntilDeadline now d1 <= hoursUntilDeadline now d2.
Proof.
  intros <- <- H. unfold hoursUntilDeadline.
  apply Q.max_le_compat_l.
  change (inject_Z (1000 * 60 * 60)) with 3600000.
  apply Qle_shift_div_l; [reflexivity |].
  setoid_replace
    (inject_Z (convertToDate now (Some d1) - now) / 3600000 * 3600000)
    with (inject_Z (convertToDate now (Some d1) - now)) by (field; discriminate).
  rewrite <- Zle_Qle. lia.
Qed.

(** X1. With the difficulty, the deadline, the preferences and the time
    of day unchanged, a higher urgency never gives a lower score. *)
Theorem score_monotone_in_urgency
    (now : Z) (task task' : Task) (userPrefs : UserPreferences) (timeOfDay : TimeOfDay)
    (Hdifficulty : difficulty task' = difficulty task)
    (Hdeadline : deadline task' = deadline task)
    (Hurgency : urgency task <= urgency task') :
  calculateTaskScore now task userPrefs timeOfDay
  <= calculateTaskScore now task' userPrefs timeOfDay.
Proof.
  unfold calculateTaskScore, calculateUrgencyScore, URGENCY_WEIGHT.
  rewrite Hdifficulty, Hdeadline.
  apply clamp_monotone. lra.
Qed.

Lemma score_monotone_in_urgency_witness :
  calculateTaskScore Sample.start (Sample.mkTask "B" [] 3 3 30) (Sample.prefs 60 60) MORNING
  <= calculateTaskScore Sample.start (Sample.mkTask "A" [] 5 3 30) (Sample.prefs 60 60) MORNING.
Proof.
  apply (score_monotone_in_urgency Sample.start
           (Sample.mkTask "B" [] 3 3 30) (Sample.mkTask "A" [] 5 3 30)).
  - reflexivity.
  - reflexivity.
  - vm_compute. discriminate.
Defined.

(** X2. For inputs in their documented ranges (urgency and difficulty
    from 1 to 5, the complexity factor of the period from 0.5 to 1.5)
    the final clamp does nothing: the score is the weighted sum itself,
    it lies between 16 and 100, and the cognitive component lies between
    20 and 100. *)
Theorem score_in_range_inputs
    (now : Z) (task : Task) (userPrefs : UserPreferences) (timeOfDay : TimeOfDay)
    (Hurgency : 1 <= urgency task <= 5)
    (Hdifficulty : 1 <= difficulty task <= 5)
    (Hfactor : 0.5 <= complexFactorFor userPrefs timeOfDay <= 1.5) :
  calculateTaskScore now task userPrefs timeOfDay
    == calculateUrgencyScore (urgency task) * 0.45
       + calculateCognitiveScore (difficulty task) userPrefs timeOfDay * 0.35
       + calculateDeadlineScore now (deadline task) * 0.20
  /\ 16 <= calculateTaskScore now task userPrefs timeOfDay <= 100
  /\ 20 <= calculateCognitiveScore (difficulty task) userPrefs timeOfDay <= 100.
Proof.
  assert (Hcog : 20 <= calculateCognitiveScore (difficulty task) userPrefs timeOfDay <= 100).
  { unfold calculateCognitiveScore. cbv zeta.
    set (f := complexFactorFor userPrefs timeOfDay) in *.
    assert (E1 : difficulty task / 5 == difficulty task * 0.2) by field.
    assert (E2 : f / 1.5 == f * (2 # 3)) by field.
    assert (Habs : Qabs (difficulty task / 5 - f / 1.5) <= 0.8).
    { apply Qabs_Qle_condition. rewrite E1, E2. lra. }
    assert (Hpos := Qabs_nonneg (difficulty task / 5 - f / 1.5)).
    lra. }
  assert (Hdl := calculateDeadlineScore_range now (deadline task)).
  assert (Hsum :
    16 <= calculateUrgencyScore (urgency task) * 0.45
          + calculateCognitiveScore (difficulty task) userPrefs timeOfDay * 0.35
          + calculateDeadlineScore now (deadline task) * 0.20 <= 100).
  { unfold calculateUrgencyScore. lra. }
  assert (E : calculateTaskScore now task userPrefs timeOfDay
              == calculateUrgencyScore (urgency task) * 0.45
                 + calculateCognitiveScore (difficulty task) userPrefs timeOfDay * 0.35
                 + calculateDeadlineScore now (deadline task) * 0.20).
  { unfold calculateTaskScore. cbv zeta.
    unfold URGENCY_WEIGHT, COGNITIVE_WEIGHT, DEADLINE_WEIGHT.
    apply clamp_inactive. lra. }
  split; [exact E |]. split; [rewrite E; exact Hsum | exact Hcog].
Qed.

Lemma score_in_range_inputs_witness :
  16 <= calculateTaskScore Sample.start (Sample.mkTask "A" [] 5 3 30)
          (Sample.prefs 60 60) MORNING <= 100.
Proof.
  apply (score_in_range_inputs Sample.start (Sample.mkTask "A" [] 5 3 30)
           (Sample.prefs 60 60) MORNING).
  - split; vm_compute; discriminate.
  - split; vm_compute; discriminate.
  - split; vm_compute; discriminate.
Defined.

(** X3. The cognitive component never exceeds 100, and it is 100
    exactly when the normalised difficulty (difficulty / 5) equals the
    normalised complexity factor of the period (factor / 1.5). *)
Theorem cognitive_score_peak
    (difficulty : Q) (userPrefs : UserPreferences) (timeOfDay : TimeOfDay) :
  calculateCognitiveScore difficulty userPrefs timeOfDay <= 100
  /\ (calculateCognitiveScore difficulty userPrefs timeOfDay == 100
      <-> difficulty / 5 == complexFactorFor userPrefs timeOfDay / 1.5).
Proof.
  unfold calculateCognitiveScore. cbv zeta.
  set (x := difficulty / 5 - complexFactorFor userPrefs timeOfDay / 1.5).
  assert (Hpos := Qabs_nonneg x).
  split; [lra |]. split.
  - intros H. assert (H0 : Qabs x <= 0) by lra.
    apply Qabs_Qle_condition in H0. subst x. lra.
  - intros H. assert (Hx : x == 0) by (subst x; lra).
    assert (H0 : Qabs x == 0).
    { apply Qle_antisym; [| exact Hpos].
      apply Qabs_Qle_condition. lra. }
    lra.
Qed.

(** X4. A later deadline never scores higher than an earlier one, for
    [Date] and [Timestamp] deadlines alike, and no deadline scores more
    than 100. *)
Theorem deadline_score_antitone (now ms1 ms2 : Z) (Horder : (ms1 <= ms2)%Z) :
  calculateDeadlineScore now (Some (JsDate ms2))
    <= calculateDeadlineScore now (Some (JsDate ms1))
  /\ calculateDeadlineScore now (Some (Timestamp ms2))
    <= calculateDeadlineScore now (Some (Timestamp ms1))
  /\ calculateDeadlineScore now (Some (JsDate ms1)) <= 100.
Proof.
  split; [| split].
  - cbn [calculateDeadlineScore].
    apply deadlineCurve_antitone; [apply hoursUntilDeadline_nonneg |].
    apply (hoursUntilDeadline_monotone now ms1 ms2); [reflexivity | reflexivity | exact Horder].
  - cbn [calculateDeadlineScore].
    apply deadlineCurve_antitone; [apply hoursUntilDeadline_nonneg |].
    apply (hoursUntilDeadline_monotone now ms1 ms2); [reflexivity | reflexivity | exact Horder].
  - apply calculateDeadlineScore_range.
Qed.

Lemma deadline_score_antitone_witness :
  calculateDeadlineScore Sample.start (Some (JsDate (Sample.start + 7200000)))
    <= calculateDeadlineScore Sample.start (Some (JsDate (Sample.start + 3600000))).
Proof.
  apply (deadline_score_antitone Sample.start (Sample.start + 3600000)
           (Sample.start + 7200000)).
  vm_compute. discriminate.
Defined.

(** X5. The deadline component depends on the instant only: a
    [Timestamp] scores what the [Date] of the same instant scores; and a
    [FieldValue] placeholder, which cannot be converted, is scored as a
    deadline due now: exactly 100. *)
Theorem deadline_score_by_representation (now ms : Z) :
  calculateDeadlineScore now (Some (Timestamp ms))
    = calculateDeadlineScore now (Some (JsDate ms))
  /\ calculateDeadlineScore now (Some FieldValue) == 100
  /\ calculateDeadlineScore now (Some FieldValue)
    == calculateDeadlineScore now (Some (JsDate now)).
Proof.
  assert (H : forall d, convertToDate now (Some d) = now ->
              calculateDeadlineScore now (Some d) == 100).
  { intros d Hd. cbn [calculateDeadlineScore].
    rewrite (deadlineCurve_compat _ 0); [reflexivity |].
    apply hoursUntilDeadline_overdue. lia. }
  split; [reflexivity |]. split.
  - apply H. reflexivity.
  - rewrite (H FieldValue eq_refl), (H (JsDate now) eq_refl). reflexivity.
Qed.

(** X6. Giving a task a deadline never lowers its score and raises it by
    at most 20 points, whatever the deadline is. *)
Theorem deadline_adds_at_most_20
    (now : Z) (task task' : Task) (userPrefs : UserPreferences) (timeOfDay : TimeOfDay)
    (Hurgency : urgency task' = urgency task)
    (Hdifficulty : difficulty task' = difficulty task)
    (Hnone : deadline task = None) :
  calculateTaskScore now task userPrefs timeOfDay
    <= calculateTaskScore now task' userPrefs timeOfDay
  /\ calculateTaskScore now task' userPrefs timeOfDay
    <= calculateTaskScore now task userPrefs timeOfDay + 20.
Proof.
  assert (Hdl := calculateDeadlineScore_range now (deadline task')).
  unfold calculateTaskScore. cbv zeta.
  rewrite Hurgency, Hdifficulty, Hnone. cbn [calculateDeadlineScore].
  unfold URGENCY_WEIGHT, COGNITIVE_WEIGHT, DEADLINE_WEIGHT.
  set (base := calculateUrgencyScore (urgency task) * 0.45
               + calculateCognitiveScore (difficulty task) userPrefs timeOfDay * 0.35).
  split.
  - apply clamp_monotone. lra.
  - eapply Qle_trans; [| apply (clamp_step (base + 0 * 0.20) 20); lra].
    apply clamp_monotone. lra.
Qed.

Lemma deadline_adds_at_most_20_witness :
  calculateTaskScore Sample.start
    {| id := "A"; urgency := 3; difficulty := 3; durationMinutes := 30;
       deadline := None; tags := [] |} (Sample.prefs 60 60) MORNING
  <= calculateTaskScore Sample.start (Sample.mkTask "A" [] 3 3 30) (Sample.prefs 60 60) MORNING.
Proof.
  apply (deadline_adds_at_most_20 Sample.start
           {| id := "A"; urgency := 3; difficulty := 3; durationMinutes := 30;
              deadline := None; tags := [] |}
           (Sample.mkTask "A" [] 3 3 30) (Sample.prefs 60 60) MORNING);
    reflexivity.
Defined.

End ScoringResponse.

(** ** ScheduleGenerator.ts: the random pools *)

Section RandomPools.

Import ScoredTask ScheduleGenerator.

Lemma shuffleLoop_cursor {T : Type} (entropy : Entropy) (i : nat) (l : list T) (cursor : nat) :
  snd (shuffleLoop entropy i l cursor) = (cursor + i)%nat.
Proof.
  revert l cursor. induction i as [| i IH]; intros l cursor; cbn [shuffleLoop].
  - cbn. lia.
  - unfold mathRandom. rewrite IH. lia.
Qed.

(** X7. [shuffleArray] returns a permutation of its argument, of the
    same length, and draws one random number per element but the first. *)
Theorem shuffleArray_permutes {T : Type} (entropy : Entropy) (array : list T) (cursor : nat) :
  Permutation array (fst (shuffleArray entropy array cursor))
  /\ List.length (fst (shuffleArray entropy array cursor)) = List.length array
  /\ snd (shuffleArray entropy array cursor) = (cursor + (List.length array - 1))%nat.
Proof.
  split; [apply shuffleArray_perm |]. split.
  - symmetry. apply Permutation_length, shuffleArray_perm.
  - apply shuffleLoop_cursor.
Qed.

Lemma unitInterval_bounds (u : UnitInterval) : (0 <= u_val u < 1)%Q.
Proof.
  destruct u as [r Hr]. cbn [u_val].
  apply andb_prop in Hr. destruct Hr as [H0 H1].
  apply Qle_bool_iff in H0. apply negb_true_iff in H1.
  split; [exact H0 |].
  destruct (Qlt_le_dec r 1) as [H | H]; [exact H |].
  apply Qle_bool_iff in H. congruence.
Qed.

Lemma noise_bounds (variance r : Q) :
  (0 <= variance)%Q -> (0 <= r < 1)%Q ->
  (- variance <= (r * 2 - 1) * variance <= variance)%Q.
Proof. intros Hv [H0 H1]. split; nra. Qed.

Lemma jitter_range (variance score r : Q) : (0 <= jitter variance score r <= 100)%Q.
Proof. apply clamp_range. Qed.

Lemma jitter_close (variance score r : Q) :
  (0 <= variance)%Q -> (0 <= r < 1)%Q -> (0 <= score <= 100)%Q ->
  (Qabs (jitter variance score r - score) <= variance)%Q.
Proof.
  intros Hv Hr Hs. unfold jitter.
  assert (Hn := noise_bounds variance r Hv Hr).
  set (d := ((r * 2 - 1) * variance)%Q) in *.
  apply Qabs_Qle_condition.
  destruct (Q.max_spec 0 (score + d)) as [[H1 E1] | [H1 E1]];
    destruct (Q.min_spec 100 (Qmax 0 (score + d))) as [[H3 E3] | [H3 E3]];
    rewrite E3; rewrite ?E1 in *; lra.
Qed.

(** X8. [addRandomnessToScores] keeps the tasks and their order; every
    new score lies between 0 and 100; for a non-negative variance and
    scores that were between 0 and 100, no score moves by more than the
    variance; and two random numbers are drawn per task. *)
Theorem addRandomnessToScores_bounded
    (entropy : Entropy) (variance : Q) (pool : list ScoredTask.t) (cursor : nat)
    (Hvariance : (0 <= variance)%Q)
    (Hscores : Forall (fun t => (0 <= morningScore t <= 100)%Q
                                /\ (0 <= eveningScore t <= 100)%Q) pool) :
  Forall2
    (fun t t' =>
       task t' = task t
       /\ (0 <= morningScore t' <= 100)%Q /\ (0 <= eveningScore t' <= 100)%Q
       /\ (Qabs (morningScore t' - morningScore t) <= variance)%Q
       /\ (Qabs (eveningScore t' - eveningScore t) <= variance)%Q)
    pool (fst (addRandomnessToScores entropy variance pool cursor))
  /\ snd (addRandomnessToScores entropy variance pool cursor)
     = (cursor + 2 * List.length pool)%nat.
Proof.
  revert cursor. induction Hscores as [| t pool [Hm He] _ IH]; intros cursor.
  - cbn. split; [constructor | lia].
  - cbn [addRandomnessToScores]. unfold mathRandom.
    destruct (IH (S (S cursor))) as [IH1 IH2].
    destruct (addRandomnessToScores entropy variance pool (S (S cursor))) as [rest c'].
    cbn [fst snd] in *. split.
    + constructor; [| exact IH1].
      cbn [task morningScore eveningScore].
      split; [reflexivity |].
      split; [apply jitter_range |]. split; [apply jitter_range |].
      split; apply jitter_close; auto using unitInterval_bounds.
    + cbn [List.length]. lia.
Qed.

Lemma addRandomnessToScores_bounded_witness :
  snd (addRandomnessToScores Sample.highEntropy DEFAULT_VARIANCE Sample.fourTasks 0) = 8%nat.
Proof.
  apply (addRandomnessToScores_bounded Sample.highEntropy DEFAULT_VARIANCE
           Sample.fourTasks 0).
  - vm_compute. discriminate.
  - repeat constructor; vm_compute; discriminate.
Defined.

(** X9. The jitter only reorders near-ties: when two scores between 0
    and 100 are more than twice the variance apart, the higher one stays
    strictly higher after both have been jittered, whatever is drawn. *)
Theorem jitter_keeps_clear_gaps
    (variance low high : Q) (u1 u2 : UnitInterval)
    (Hvariance : (0 <= variance)%Q)
    (Hlow : (0 <= low)%Q) (Hhigh : (high <= 100)%Q)
    (Hgap : (low + 2 * variance < high)%Q) :
  (jitter variance low (u_val u1) < jitter variance high (u_val u2))%Q.
Proof.
  assert (H1 := noise_bounds variance (u_val u1) Hvariance (unitInterval_bounds u1)).
  assert (H2 := noise_bounds variance (u_val u2) Hvariance (unitInterval_bounds u2)).
  unfold jitter.
  set (d1 := ((u_val u1 * 2 - 1) * variance)%Q) in *.
  set (d2 := ((u_val u2 * 2 - 1) * variance)%Q) in *.
  destruct (Q.max_spec 0 (low + d1)) as [[A1 E1] | [A1 E1]];
    destruct (Q.max_spec 0 (high + d2)) as [[A2 E2] | [A2 E2]];
    destruct (Q.min_spec 100 (Qmax 0 (low + d1))) as [[A3 E3] | [A3 E3]];
    destruct (Q.min_spec 100 (Qmax 0 (high + d2))) as [[A4 E4] | [A4 E4]];
    rewrite E3, E4; rewrite ?E1, ?E2 in *; lra.
Qed.

Lemma jitter_keeps_clear_gaps_witness :
  (jitter DEFAULT_VARIANCE 66 (u_val (Sample.highEntropy 0%nat))
   < jitter DEFAULT_VARIANCE 84 (u_val (Sample.zeroEntropy 0%nat)))%Q.
Proof.
  apply (jitter_keeps_clear_gaps DEFAULT_VARIANCE 66 84);
    vm_compute; first [discriminate | reflexivity].
Defined.

End RandomPools.

(** ** ScheduleGenerator.ts: what a run returns *)

Section Runs.

Import ScoredTask ScheduleGenerator Described.

Let scoresInRange (t : ScoredTask.t) : Prop :=
  (0 <= morningScore t <= 100)%Q /\ (0 <= eveningScore t <= 100)%Q.

Lemma scoreTasks_range (now : Z) (tasks : list Task) (userPrefs : UserPreferences) :
  Forall scoresInRange (scoreTasks now tasks userPrefs).
Proof.
  unfold scoreTasks. apply Forall_map, Forall_forall. intros t _.
  split; cbn [morningScore eveningScore]; apply clamp_range.
Qed.

Lemma addRandomnessToScores_range (entropy : Entropy) (variance : Q)
    (pool : list ScoredTask.t) (cursor : nat) :
  Forall scoresInRange (fst (addRandomnessToScores entropy variance pool cursor)).
Proof.
  revert cursor. induction pool as [| t pool IH]; intros cursor; [constructor |].
  cbn [addRandomnessToScores]. unfold mathRandom.
  specialize (IH (S (S cursor))).
  destruct (addRandomnessToScores entropy variance pool (S (S cursor))) as [rest c'].
  cbn [fst] in *. constructor; [| exact IH].
  split; cbn [morningScore eveningScore]; apply jitter_range.
Qed.

(** The options that a run returns, with the pools of the balanced and
    of the grouped option: the input tasks in some order, with scores
    between 0 and 100. *)
Lemma generateDailySchedules_pools (entropy : Entropy) (now : Z) (zone : TimeZone)
    (tasks : list Task) (userPrefs : UserPreferences)
    (startTime : Z) (freeTimeMinutes : option Z) (date : Z)
    (options : list ScheduleOption.t) :
  generateDailySchedules entropy now zone tasks userPrefs startTime freeTimeMinutes date
    = Some options ->
  exists block poolBalanced poolGrouped uid1 uid2 uid3 final1 final2 final3,
    dailyTimeBlocks zone userPrefs startTime freeTimeMinutes = [block]
    /\ TimeBlock.startTime block = startTime
    /\ TimeBlock.availableMinutes block = budgetOrDefault freeTimeMinutes userPrefs
    /\ (Permutation tasks (map task poolBalanced) /\ Forall scoresInRange poolBalanced)
    /\ (Permutation tasks (map task poolGrouped) /\ Forall scoresInRange poolGrouped)
    /\ processBlocks zone priority (scoreTasks now tasks userPrefs) [block] = Some final1
    /\ processBlocks zone balanced poolBalanced [block] = Some final2
    /\ processBlocks zone grouped poolGrouped [block] = Some final3
    /\ options = [ optionOf uid1 now userPrefs date final1;
                   optionOf uid2 now userPrefs date final2;
                   optionOf uid3 now userPrefs date final3 ].
Proof.
  unfold generateDailySchedules.
  assert (Hs1 := shuffleArray_perm entropy (scoreTasks now tasks userPrefs) 0).
  destruct (shuffleArray entropy (scoreTasks now tasks userPrefs) 0) as [sh1 c1].
  assert (Hj1 := addRandomnessToScores_tasks entropy DEFAULT_VARIANCE sh1 c1).
  assert (Hr1 := addRandomnessToScores_range entropy DEFAULT_VARIANCE sh1 c1).
  destruct (addRandomnessToScores entropy DEFAULT_VARIANCE sh1 c1) as [pool2 c2].
  assert (Hs2 := shuffleArray_perm entropy (scoreTasks now tasks userPrefs) c2).
  destruct (shuffleArray entropy (scoreTasks now tasks userPrefs) c2) as [sh2 c3].
  assert (Hj2 := addRandomnessToScores_tasks entropy DEFAULT_VARIANCE sh2 c3).
  assert (Hr2 := addRandomnessToScores_range entropy DEFAULT_VARIANCE sh2 c3).
  destruct (addRandomnessToScores entropy DEFAULT_VARIANCE sh2 c3) as [pool3 c4].
  cbn [fst] in *.
  destruct (dailyTimeBlocks_single zone userPrefs startTime freeTimeMinutes)
    as [block [Hblocks [Hstart Havail]]].
  rewrite Hblocks.
  unfold generatePriorityBasedSchedule.
  destruct (processBlocks zone priority (scoreTasks now tasks userPrefs) [block])
    as [final1 |] eqn:H1; [| discriminate].
  cbn [generateUniqueId mathRandom].
  destruct (processBlocks zone balanced pool2 [block]) as [final2 |] eqn:H2;
    [| discriminate].
  destruct (processBlocks zone grouped pool3 [block]) as [final3 |] eqn:H3;
    [| discriminate].
  intros Hrun. injection Hrun as <-.
  exists block, pool2, pool3. do 3 eexists. exists final1, final2, final3.
  split; [reflexivity |]. split; [exact Hstart |]. split; [exact Havail |].
  split; [split; [| exact Hr1] |].
  { rewrite Hj1. rewrite <- (scoreTasks_tasks now tasks userPrefs) at 1.
    apply Permutation_map. exact Hs1. }
  split; [split; [| exact Hr2] |].
  { rewrite Hj2. rewrite <- (scoreTasks_tasks now tasks userPrefs) at 1.
    apply Permutation_map. exact Hs2. }
  split; [exact H1 |]. split; [exact H2 |]. split; [exact H3 |]. reflexivity.
Qed.

(** A property of the schedule of one block, for every strategy and
    every pool that holds the given tasks, holds of every option that a
    run returns. *)
Lemma every_returned_option (P : ScheduleOption.t -> Prop)
    (entropy : Entropy) (now : Z) (zone : TimeZone)
    (tasks : list Task) (userPrefs : UserPreferences)
    (startTime : Z) (freeTimeMinutes : option Z) (date : Z)
    (options : list ScheduleOption.t) :
  (forall block strategy pool uid final,
     dailyTimeBlocks zone userPrefs startTime freeTimeMinutes = [block] ->
     TimeBlock.startTime block = startTime ->
     TimeBlock.availableMinutes block = budgetOrDefault freeTimeMinutes userPrefs ->
     Permutation tasks (map task pool) ->
     Forall scoresInRange pool ->
     processBlocks zone strategy pool [block] = Some final ->
     P (optionOf uid now userPrefs date final)) ->
  generateDailySchedules entropy now zone tasks userPrefs startTime freeTimeMinutes date
    = Some options ->
  List.length options = 3%nat /\ Forall P options.
Proof.
  intros Hone Hrun.
  destruct (generateDailySchedules_pools entropy now zone tasks userPrefs
              startTime freeTimeMinutes date options Hrun)
    as [block [p2 [p3 [u1 [u2 [u3 [f1 [f2 [f3
         [Hblocks [Hstart [Havail [[Hp2 Hr2] [[Hp3 Hr3] [H1 [H2 [H3 ->]]]]]]]]]]]]]]]]].
  split; [reflexivity |].
  constructor; [| constructor; [| constructor; [| constructor]]].
  - apply (Hone block priority (scoreTasks now tasks userPrefs)); try assumption.
    + rewrite scoreTasks_tasks. apply Permutation_refl.
    + apply scoreTasks_range.
  - apply (Hone block balanced p2); assumption.
  - apply (Hone block grouped p3); assumption.
Qed.

(** A run returns three options of which the property holds, or it
    throws on a task whose category is a name that every object
    inherits. *)
Lemma every_option (P : ScheduleOption.t -> Prop)
    (entropy : Entropy) (now : Z) (zone : TimeZone)
    (tasks : list Task) (userPrefs : UserPreferences)
    (startTime : Z) (freeTimeMinutes : option Z) (date : Z) :
  (forall block strategy pool uid final,
     dailyTimeBlocks zone userPrefs startTime freeTimeMinutes = [block] ->
     TimeBlock.startTime block = startTime ->
     TimeBlock.availableMinutes block = budgetOrDefault freeTimeMinutes userPrefs ->
     Permutation tasks (map task pool) ->
     Forall scoresInRange pool ->
     processBlocks zone strategy pool [block] = Some final ->
     P (optionOf uid now userPrefs date final)) ->
  match generateDailySchedules entropy now zone tasks userPrefs
          startTime freeTimeMinutes date with
  | None => exists t, In t tasks /\ In (taskCategory t) inheritedProperties
  | Some options => List.length options = 3%nat /\ Forall P options
  end.
Proof.
  intros Hone.
  destruct (generateDailySchedules entropy now zone tasks userPrefs
              startTime freeTimeMinutes date) as [options |] eqn:Hrun.
  - apply (every_returned_option P entropy now zone tasks userPrefs
             startTime freeTimeMinutes date options Hone Hrun).
  - apply (generateDailySchedules_throws _ _ _ _ _ _ _ _ Hrun).
Qed.

(** The schedule of one block is the packing of the order of the
    strategy. *)
Lemma single_block_trace (zone : TimeZone) (strategy : Strategy)
    (pool : list ScoredTask.t) (block : TimeBlock.t) (tasks : list Task)
    (final : Allocation) :
  Permutation tasks (map task pool) ->
  processBlocks zone strategy pool [block] = Some final ->
  exists ordered placed,
    orderForStrategy strategy pool (TimeBlock.timeOfDay block) = Some ordered
    /\ Permutation pool ordered
    /\ placed = packed (TimeBlock.availableMinutes block) ordered
    /\ scheduledTasks final = slots zone (TimeBlock.startTime block) placed
    /\ totalScore final
       = fold_left
           (fun acc t => (acc + getScoreForTimeOfDay t (TimeBlock.timeOfDay block))%Q)
           placed 0%Q
    /\ incl placed pool
    /\ incl (map task placed) tasks
    /\ placedWithinRemaining (TimeBlock.availableMinutes block) placed.
Proof.
  intros Hpool Hfinal. rewrite processBlocks_single in Hfinal.
  destruct (orderForStrategy strategy pool (TimeBlock.timeOfDay block))
    as [ordered |] eqn:Horder; [| discriminate].
  injection Hfinal as <-.
  assert (Hperm := orderForStrategy_perm _ _ _ _ Horder).
  destruct (allocate_packed zone (TimeBlock.timeOfDay block) ordered
              (blockStart block (nothingScheduled pool)))
    as [Hsched [Hscore _]].
  cbn [blockStart nothingScheduled scheduledTasks currentTime remainingMinutes
       totalScore app] in Hsched, Hscore.
  assert (Hin : incl (packed (TimeBlock.availableMinutes block) ordered) pool).
  { intros t Ht.
    apply (Permutation_in _ (Permutation_sym Hperm)).
    eapply Subsequence_In; [apply packed_Subsequence | exact Ht]. }
  exists ordered, (packed (TimeBlock.availableMinutes block) ordered).
  split; [reflexivity |]. split; [exact Hperm |]. split; [reflexivity |].
  split; [exact Hsched |]. split; [exact Hscore |]. split; [exact Hin |].
  split; [| apply packed_within].
  intros t Ht. apply in_map_iff in Ht. destruct Ht as [s [<- Hs]].
  apply (Permutation_in _ (Permutation_sym Hpool)), in_map, Hin, Hs.
Qed.

(** *** Conservation of tasks over any list of blocks *)

Lemma allocate_conserves (zone : TimeZone) (timeOfDay : TimeOfDay)
    (blockTasks : list ScoredTask.t) (st : Allocation) :
  NoDup (map (fun t => id (task t)) blockTasks) ->
  incl (map (fun t => id (task t)) blockTasks)
       (map (fun t => id (task t)) (availableTasks st)) ->
  Permutation
    (map ScheduledTask.taskId (scheduledTasks st)
     ++ map (fun t => id (task t)) (availableTasks st))
    (map ScheduledTask.taskId (scheduledTasks (allocate zone timeOfDay blockTasks st))
     ++ map (fun t => id (task t))
          (availableTasks (allocate zone timeOfDay blockTasks st))).
Proof.
  revert st. induction blockTasks as [| t rest IH]; intros st Hnd Hincl;
    [apply Permutation_refl |].
  cbn [map] in Hnd, Hincl. inversion Hnd as [| ? ? Hnotin Hnd']; subst.
  assert (Hrest : incl (map (fun t => id (task t)) rest)
                       (map (fun t => id (task t)) (availableTasks st))).
  { intros x Hx. apply Hincl. right. exact Hx. }
  cbn [allocate].
  destruct (durationMinutes (task t) >? remainingMinutes st); [apply IH; assumption |].
  assert (Hperm := removeById_perm (id (task t)) (availableTasks st)
                     (Hincl _ (or_introl eq_refl))).
  assert (Hstep :
    Permutation
      (map ScheduledTask.taskId (scheduledTasks st)
       ++ map (fun t => id (task t)) (availableTasks st))
      (map ScheduledTask.taskId (scheduledTasks (placeTask zone timeOfDay t st))
       ++ map (fun t => id (task t)) (availableTasks (placeTask zone timeOfDay t st)))).
  { cbn [placeTask scheduledTasks availableTasks].
    rewrite map_app, <- app_assoc. cbn [map app ScheduledTask.taskId].
    apply Permutation_app_head. exact Hperm. }
  destruct (remainingMinutes (placeTask zone timeOfDay t st) <? 15); [exact Hstep |].
  eapply perm_trans; [exact Hstep |].
  apply IH; [exact Hnd' |].
  intros x Hx. cbn [placeTask availableTasks].
  assert (Hin := Permutation_in _ Hperm (Hrest x Hx)).
  destruct Hin as [<- | Hin]; [contradiction | exact Hin].
Qed.

Lemma removeById_incl (taskId : string) (l : list ScoredTask.t) :
  incl (removeById taskId l) l.
Proof.
  induction l as [| t l IH]; cbn [removeById]; [apply incl_refl |].
  destruct (String.eqb (id (task t)) taskId).
  - apply incl_tl, incl_refl.
  - intros x [<- | Hx]; [left; reflexivity | right; apply IH, Hx].
Qed.

Lemma allocate_available (zone : TimeZone) (timeOfDay : TimeOfDay)
    (blockTasks : list ScoredTask.t) (st : Allocation) :
  incl (availableTasks (allocate zone timeOfDay blockTasks st)) (availableTasks st).
Proof.
  destruct (allocate_packed zone timeOfDay blockTasks st) as [_ [_ [_ Havail]]].
  rewrite Havail. clear Havail.
  generalize (packed (remainingMinutes st) blockTasks) as placed.
  generalize (availableTasks st) as available.
  intros available placed. revert available.
  induction placed as [| t placed IH]; intros available; cbn [fold_left];
    [apply incl_refl |].
  eapply incl_tran; [apply IH | apply removeById_incl].
Qed.

(** X10. Whatever the strategy and the list of blocks, the allocation
    conserves a pool of tasks with distinct ids: when it returns, every
    task ends up either scheduled, exactly once, or still available,
    and none is lost or duplicated.  It throws only under the balanced
    or the grouped strategy, on a pool that holds a task whose
    category is a name that every object inherits. *)
Theorem processBlocks_conserves_tasks
    (zone : TimeZone) (strategy : Strategy) (pool : list ScoredTask.t)
    (blocks : list TimeBlock.t)
    (Hids : NoDup (map (fun t => id (task t)) pool)) :
  match processBlocks zone strategy pool blocks with
  | None =>
      strategy <> priority
      /\ exists t, In t pool /\ In (categoryOf t) inheritedProperties
  | Some final =>
      Permutation
        (map (fun t => id (task t)) pool)
        (map ScheduledTask.taskId (scheduledTasks final)
         ++ map (fun t => id (task t)) (availableTasks final))
      /\ NoDup (map ScheduledTask.taskId (scheduledTasks final))
  end.
Proof.
  assert (Hcases :=
    processBlocks_cases zone strategy
      (fun st =>
         Permutation (map (fun t => id (task t)) pool)
           (map ScheduledTask.taskId (scheduledTasks st)
            ++ map (fun t => id (task t)) (availableTasks st))
         /\ incl (availableTasks st) pool)
      pool blocks).
  cbv beta in Hcases.
  assert (Hinit :
    Permutation (map (fun t => id (task t)) pool)
      (map ScheduledTask.taskId (scheduledTasks (nothingScheduled pool))
       ++ map (fun t => id (task t)) (availableTasks (nothingScheduled pool)))
    /\ incl (availableTasks (nothingScheduled pool)) pool)
    by (split; [apply Permutation_refl | apply incl_refl]).
  specialize (Hcases Hinit). clear Hinit.
  assert (Hstep : forall st block ordered,
    Permutation (map (fun t => id (task t)) pool)
      (map ScheduledTask.taskId (scheduledTasks st)
       ++ map (fun t => id (task t)) (availableTasks st))
    /\ incl (availableTasks st) pool ->
    orderForStrategy strategy (availableTasks st) (TimeBlock.timeOfDay block)
      = Some ordered ->
    Permutation (map (fun t => id (task t)) pool)
      (map ScheduledTask.taskId
         (scheduledTasks
            (allocate zone (TimeBlock.timeOfDay block) ordered (blockStart block st)))
       ++ map (fun t => id (task t))
            (availableTasks
               (allocate zone (TimeBlock.timeOfDay block) ordered (blockStart block st))))
    /\ incl (availableTasks
               (allocate zone (TimeBlock.timeOfDay block) ordered (blockStart block st)))
            pool).
  { intros st block ordered [Hinv Hincl] Horder.
    assert (Hord := orderForStrategy_perm _ _ _ _ Horder).
    split.
    - eapply perm_trans; [exact Hinv |].
      apply (allocate_conserves zone (TimeBlock.timeOfDay block) _ (blockStart block st)).
      + eapply Permutation_NoDup; [apply Permutation_map; exact Hord |].
        eapply NoDup_app_remove_l.
        eapply Permutation_NoDup; [exact Hinv | exact Hids].
      + intros x Hx. cbn [blockStart availableTasks].
        eapply Permutation_in; [apply Permutation_map, Permutation_sym; exact Hord | exact Hx].
    - eapply incl_tran; [apply allocate_available | exact Hincl]. }
  specialize (Hcases Hstep). clear Hstep.
  destruct (processBlocks zone strategy pool blocks) as [final |].
  - destruct Hcases as [Hperm _]. split; [exact Hperm |].
    eapply NoDup_app_remove_r.
    eapply Permutation_NoDup; [exact Hperm | exact Hids].
  - destruct Hcases as [st [block [[_ Hincl] Horder]]].
    apply orderForStrategy_None in Horder.
    destruct Horder as [Hstrategy [t [Hin Hinh]]].
    split; [exact Hstrategy |].
    exists t. split; [apply Hincl, Hin | apply inheritedProperty_In; exact Hinh].
Qed.

Lemma processBlocks_conserves_tasks_witness :
  exists final,
    processBlocks Sample.utc balanced Sample.fourTasks
      (prepareTimeBlocks Sample.utc Sample.start (Sample.prefs 60 60)) = Some final
    /\ NoDup (map ScheduledTask.taskId (scheduledTasks final)).
Proof.
  assert (Hids : NoDup (map (fun t => id (task t)) Sample.fourTasks))
    by (cbn; repeat constructor; cbn; intuition discriminate).
  pose proof (processBlocks_conserves_tasks Sample.utc balanced Sample.fourTasks
                (prepareTimeBlocks Sample.utc Sample.start (Sample.prefs 60 60)) Hids)
    as H.
  destruct (processBlocks Sample.utc balanced Sample.fourTasks
              (prepareTimeBlocks Sample.utc Sample.start (Sample.prefs 60 60)))
    as [final |] eqn:E.
  - exists final. split; [reflexivity | apply H].
  - vm_compute in E. discriminate E.
Defined.

(** *** Slots *)

Lemma slots_length (zone : TimeZone) (start : Z) (placed : list ScoredTask.t) :
  List.length (slots zone start placed) = List.length placed.
Proof.
  revert start. induction placed as [| t placed IH]; intros start; [reflexivity |].
  cbn [slots List.length]. rewrite IH. reflexivity.
Qed.

Lemma totalDuration_nonneg (placed : list ScoredTask.t) :
  Forall (fun t => 0 <= durationMinutes (task t)) placed -> 0 <= totalDuration placed.
Proof.
  induction 1 as [| t placed Ht _ IH]; cbn; [lia |].
  fold (totalDuration placed). lia.
Qed.

Lemma slots_within (offset start avail : Z) (placed : list ScoredTask.t) :
  Forall (fun t => 0 <= durationMinutes (task t)) placed ->
  totalDuration placed <= avail ->
  Forall
    (fun s => start <= ScheduledTask.startTime s
              /\ ScheduledTask.startTime s <= ScheduledTask.endTime s
              /\ ScheduledTask.endTime s <= start + avail * 60000)
    (slots (fixedOffset offset) start placed).
Proof.
  intros Hdur. revert start avail.
  induction Hdur as [| t placed Ht Hrest IH]; intros start avail Htotal; [constructor |].
  cbn [totalDuration fold_right] in Htotal. fold (totalDuration placed) in Htotal.
  assert (Hpos := totalDuration_nonneg placed Hrest).
  cbn [slots]. rewrite addMinutes_fixedOffset. constructor.
  - cbn [ScheduledTask.startTime ScheduledTask.endTime]. lia.
  - eapply Forall_impl;
      [| apply (IH (start + durationMinutes (task t) * 60000)
                   (avail - durationMinutes (task t))); lia].
    cbn beta. intros s [H1 [H2 H3]]. lia.
Qed.

Lemma slots_chain (zone : TimeZone) (start : Z) (placed : list ScoredTask.t) (i : nat)
    (s s' : ScheduledTask.t) :
  nth_error (slots zone start placed) i = Some s ->
  nth_error (slots zone start placed) (S i) = Some s' ->
  ScheduledTask.endTime s = ScheduledTask.startTime s'.
Proof.
  revert start i. induction placed as [| t placed IH]; intros start i Hs Hs'.
  - destruct i; discriminate.
  - destruct i as [| i].
    + cbn [slots nth_error] in Hs, Hs'. injection Hs as <-.
      destruct placed as [| t' placed]; [discriminate |].
      cbn [slots nth_error] in Hs'. injection Hs' as <-. reflexivity.
    + cbn [slots nth_error] in Hs, Hs'. eapply IH; eassumption.
Qed.

Lemma slots_head (zone : TimeZone) (start : Z) (placed : list ScoredTask.t)
    (s : ScheduledTask.t) :
  hd_error (slots zone start placed) = Some s -> ScheduledTask.startTime s = start.
Proof.
  destruct placed; cbn; [discriminate |]. intros H. injection H as <-. reflexivity.
Qed.

Lemma slots_not_completed (zone : TimeZone) (start : Z) (placed : list ScoredTask.t) :
  Forall (fun s => ScheduledTask.completed s = false) (slots zone start placed).
Proof.
  revert start. induction placed as [| t placed IH]; intros start; constructor;
    [reflexivity | apply IH].
Qed.

Lemma placedWithinRemaining_each (remaining : Z) (placed : list ScoredTask.t) :
  Forall (fun t => 0 <= durationMinutes (task t)) placed ->
  placedWithinRemaining remaining placed ->
  Forall (fun t => durationMinutes (task t) <= remaining) placed.
Proof.
  intros Hdur. revert remaining.
  induction Hdur as [| t placed Ht _ IH]; intros remaining Hfit; [constructor |].
  cbn [placedWithinRemaining] in Hfit. destruct Hfit as [Hd Hrest].
  constructor; [exact Hd |].
  eapply Forall_impl; [| apply (IH _ Hrest)]. cbn beta. intros. lia.
Qed.

Lemma incl_tasks_Forall (P : Task -> Prop) (tasks : list Task) (placed : list ScoredTask.t) :
  Forall P tasks -> incl (map task placed) tasks ->
  Forall (fun t => P (task t)) placed.
Proof.
  intros HP Hincl. apply Forall_forall. intros t Ht.
  rewrite Forall_forall in HP. apply HP, Hincl, in_map, Ht.
Qed.

(** X11. A run returns three options, or it throws on a task whose
    category is a name that every object inherits.  In every option,
    the first slot starts at the start time and every other slot
    starts when the slot before it ends: no gap, no overlap.  When the
    offset of the local zone is fixed (no daylight saving change), the
    tasks have non-negative durations and the budget is non-negative,
    every slot ends no earlier than it starts and lies inside the
    window that starts at the start time and lasts the budget. *)
Theorem scheduled_slots_fill_the_window
    (entropy : Entropy) (now : Z) (zone : TimeZone) (tasks : list Task)
    (userPrefs : UserPreferences)
    (startTime : Z) (freeTimeMinutes : option Z) (date : Z)
    (Hdurations : Forall (fun t => 0 <= durationMinutes t) tasks)
    (Hbudget : 0 <= budgetOrDefault freeTimeMinutes userPrefs) :
  match generateScheduleOptions entropy now zone tasks userPrefs
          startTime freeTimeMinutes date with
  | None => exists t, In t tasks /\ In (taskCategory t) inheritedProperties
  | Some options =>
      List.length options = 3%nat
      /\ Forall
           (fun o =>
              (forall s, hd_error (ScheduleOption.tasks o) = Some s ->
                         ScheduledTask.startTime s = startTime)
              /\ (forall i s s',
                    nth_error (ScheduleOption.tasks o) i = Some s ->
                    nth_error (ScheduleOption.tasks o) (S i) = Some s' ->
                    ScheduledTask.endTime s = ScheduledTask.startTime s')
              /\ (forall offset,
                    zone = fixedOffset offset ->
                    Forall
                      (fun s => startTime <= ScheduledTask.startTime s
                                /\ ScheduledTask.startTime s <= ScheduledTask.endTime s
                                /\ ScheduledTask.endTime s
                                   <= startTime
                                      + budgetOrDefault freeTimeMinutes userPrefs * 60000)
                      (ScheduleOption.tasks o)))
           options
  end.
Proof.
  apply every_option.
  intros block strategy pool uid final _ Hstart Havail Hpool _ Hfinal.
  cbn [optionOf ScheduleOption.tasks].
  destruct (single_block_trace zone strategy pool block tasks final Hpool Hfinal)
    as [ordered [placed [_ [_ [_ [Hsched [_ [_ [Hincl Hfits]]]]]]]]].
  rewrite Hsched, Hstart. rewrite Havail in Hfits.
  split; [apply slots_head |]. split; [apply slots_chain |].
  intros offset ->.
  assert (Hd : Forall (fun t => 0 <= durationMinutes (task t)) placed)
    by (apply (incl_tasks_Forall (fun t => 0 <= durationMinutes t) tasks); assumption).
  apply slots_within; [exact Hd |].
  apply placedWithinRemaining_total; assumption.
Qed.

Lemma scheduled_slots_fill_the_window_witness :
  exists options,
    generateScheduleOptions Sample.zeroEntropy Sample.start Sample.utc
      Sample.twoLongTasks (Sample.prefs 60 0) Sample.start (Some 60) Sample.start
    = Some options
    /\ Forall
         (fun o =>
            forall s, hd_error (ScheduleOption.tasks o) = Some s ->
                      ScheduledTask.startTime s = Sample.start)
         options.
Proof.
  assert (Hd : Forall (fun t => 0 <= durationMinutes t) Sample.twoLongTasks)
    by (repeat constructor; cbn; lia).
  assert (Hb : 0 <= budgetOrDefault (Some 60) (Sample.prefs 60 0)) by (cbn; lia).
  pose proof (scheduled_slots_fill_the_window Sample.zeroEntropy Sample.start Sample.utc
                Sample.twoLongTasks (Sample.prefs 60 0) Sample.start (Some 60)
                Sample.start Hd Hb) as H.
  destruct (generateScheduleOptions Sample.zeroEntropy Sample.start Sample.utc
              Sample.twoLongTasks (Sample.prefs 60 0) Sample.start (Some 60) Sample.start)
    as [options |] eqn:E.
  - exists options. split; [reflexivity |].
    eapply Forall_impl; [| apply H]. cbn beta. intros o Ho. apply Ho.
  - vm_compute in E. discriminate E.
Defined.

(** *** When everything fits, and when nothing does *)

Lemma packed_all_fit (remaining : Z) (candidates : list ScoredTask.t) :
  Forall (fun t => 15 <= durationMinutes (task t)) candidates ->
  totalDuration candidates <= remaining ->
  packed remaining candidates = candidates.
Proof.
  intros Hlong. revert remaining.
  induction Hlong as [| t rest Ht Hrest IH]; intros remaining Htotal; [reflexivity |].
  cbn [totalDuration fold_right] in Htotal. fold (totalDuration rest) in Htotal.
  assert (Hpos : 0 <= totalDuration rest).
  { apply totalDuration_nonneg. eapply Forall_impl; [| exact Hrest].
    cbn beta. intros. lia. }
  cbn [packed].
  destruct (Z.ltb_spec remaining (durationMinutes (task t))); [lia |].
  destruct (Z.ltb_spec (remaining - durationMinutes (task t)) 15) as [Hstop | _].
  - destruct rest as [| t' rest]; [reflexivity |].
    exfalso. inversion Hrest as [| ? ? Ht' Hrest']; subst.
    cbn [totalDuration fold_right] in Htotal, Hpos. fold (totalDuration rest) in Htotal, Hpos.
    assert (Hpos' : 0 <= totalDuration rest).
    { apply totalDuration_nonneg. eapply Forall_impl; [| exact Hrest'].
      cbn beta. intros. lia. }
    lia.
  - rewrite IH by lia. reflexivity.
Qed.

Lemma packed_nothing_fits (remaining : Z) (candidates : list ScoredTask.t) :
  Forall (fun t => remaining < durationMinutes (task t)) candidates ->
  packed remaining candidates = [].
Proof.
  induction 1 as [| t rest Ht _ IH]; [reflexivity |].
  cbn [packed].
  destruct (Z.ltb_spec remaining (durationMinutes (task t))); [exact IH | lia].
Qed.

Lemma sum_durations_perm (l1 l2 : list Task) :
  Permutation l1 l2 ->
  fold_right Z.add 0 (map durationMinutes l1) = fold_right Z.add 0 (map durationMinutes l2).
Proof. induction 1; cbn; lia. Qed.

Lemma totalDuration_sum (pool : list ScoredTask.t) :
  totalDuration pool = fold_right Z.add 0 (map durationMinutes (map task pool)).
Proof. induction pool as [| t pool IH]; cbn; [reflexivity |]. fold (totalDuration pool). lia. Qed.

(** X12. When no task has for category a name that every object
    inherits, every task lasts at least 15 minutes and the durations
    add up to no more than the budget, the run returns, and each of its
    three options schedules every task, exactly once. *)
Theorem everything_fits_everything_scheduled
    (entropy : Entropy) (now : Z) (zone : TimeZone) (tasks : list Task)
    (userPrefs : UserPreferences)
    (startTime : Z) (freeTimeMinutes : option Z) (date : Z)
    (Hnames : Forall (fun t => inheritedProperty (taskCategory t) = false) tasks)
    (Hlong : Forall (fun t => 15 <= durationMinutes t) tasks)
    (Hfit : fold_right Z.add 0 (map durationMinutes tasks)
            <= budgetOrDefault freeTimeMinutes userPrefs) :
  exists options,
    generateScheduleOptions entropy now zone tasks userPrefs startTime freeTimeMinutes date
      = Some options
    /\ List.length options = 3%nat
    /\ Forall
         (fun o => Permutation (map id tasks)
                     (map ScheduledTask.taskId (ScheduleOption.tasks o)))
         options.
Proof.
  unfold generateScheduleOptions.
  destruct (generateDailySchedules entropy now zone tasks userPrefs
              startTime freeTimeMinutes date) as [options |] eqn:Hrun.
  2:{ exfalso. apply generateDailySchedules_None in Hrun.
      destruct Hrun as [t [Hin Hinh]].
      rewrite Forall_forall in Hnames. rewrite (Hnames t Hin) in Hinh. discriminate. }
  exists options. split; [reflexivity |].
  apply (every_returned_option _ entropy now zone tasks userPrefs
           startTime freeTimeMinutes date options); [| exact Hrun].
  intros block strategy pool uid final _ Hstart Havail Hpool _ Hfinal.
  cbn [optionOf ScheduleOption.tasks].
  destruct (single_block_trace zone strategy pool block tasks final Hpool Hfinal)
    as [ordered [placed [_ [Hperm [Hplaced [Hsched _]]]]]].
  assert (Hord : Permutation tasks (map task ordered)).
  { eapply perm_trans; [exact Hpool |]. apply Permutation_map. exact Hperm. }
  rewrite packed_all_fit in Hplaced.
  - subst placed. rewrite Hsched, slots_ids, <- (map_map task id).
    apply Permutation_map. exact Hord.
  - apply Forall_forall. intros t Ht.
    rewrite Forall_forall in Hlong. apply Hlong.
    apply (Permutation_in _ (Permutation_sym Hord)), in_map, Ht.
  - rewrite Havail, totalDuration_sum.
    rewrite <- (sum_durations_perm _ _ Hord). exact Hfit.
Qed.

Lemma everything_fits_everything_scheduled_witness :
  exists options,
    generateScheduleOptions Sample.zeroEntropy Sample.start Sample.utc
      Sample.priorityTestTasks (Sample.prefs 120 0) Sample.start (Some 120) Sample.start
    = Some options
    /\ List.length options = 3%nat
    /\ Forall
         (fun o => Permutation (map id Sample.priorityTestTasks)
                     (map ScheduledTask.taskId (ScheduleOption.tasks o)))
         options.
Proof.
  apply (everything_fits_everything_scheduled Sample.zeroEntropy Sample.start Sample.utc
           Sample.priorityTestTasks (Sample.prefs 120 0) Sample.start (Some 120)
           Sample.start).
  - repeat constructor.
  - repeat constructor; cbn; lia.
  - cbn. lia.
Defined.

(** X13. When no task fits the budget (every duration exceeds it), in
    particular when there are no tasks at all, each of the three
    options of the run has an empty task list and a total score of 0;
    the run throws only on a task whose category is a name that every
    object inherits. *)
Theorem nothing_fits_nothing_scheduled
    (entropy : Entropy) (now : Z) (zone : TimeZone) (tasks : list Task)
    (userPrefs : UserPreferences)
    (startTime : Z) (freeTimeMinutes : option Z) (date : Z)
    (Hlong : Forall (fun t => budgetOrDefault freeTimeMinutes userPrefs < durationMinutes t)
               tasks) :
  match generateScheduleOptions entropy now zone tasks userPrefs
          startTime freeTimeMinutes date with
  | None => exists t, In t tasks /\ In (taskCategory t) inheritedProperties
  | Some options =>
      List.length options = 3%nat
      /\ Forall
           (fun o => ScheduleOption.tasks o = [] /\ ScheduleOption.totalScore o = 0%Q)
           options
  end.
Proof.
  apply every_option.
  intros block strategy pool uid final _ Hstart Havail Hpool _ Hfinal.
  cbn [optionOf ScheduleOption.tasks ScheduleOption.totalScore].
  destruct (single_block_trace zone strategy pool block tasks final Hpool Hfinal)
    as [ordered [placed [_ [Hperm [Hplaced [Hsched [Hscore _]]]]]]].
  rewrite packed_nothing_fits in Hplaced.
  - subst placed. rewrite Hsched, Hscore. split; reflexivity.
  - rewrite Havail. apply Forall_forall. intros t Ht.
    rewrite Forall_forall in Hlong. apply Hlong.
    apply (Permutation_in _ (Permutation_sym Hpool)), in_map.
    apply (Permutation_in _ (Permutation_sym Hperm)). exact Ht.
Qed.

Lemma nothing_fits_nothing_scheduled_witness :
  exists options,
    generateScheduleOptions Sample.highEntropy Sample.start Sample.utc
      Sample.twoLongTasks (Sample.prefs 60 0) Sample.start (Some 30) Sample.start
    = Some options
    /\ Forall
         (fun o => ScheduleOption.tasks o = [] /\ ScheduleOption.totalScore o = 0%Q)
         options.
Proof.
  assert (Hlong : Forall
                    (fun t => budgetOrDefault (Some 30) (Sample.prefs 60 0)
                              < durationMinutes t)
                    Sample.twoLongTasks) by (repeat constructor; cbn; lia).
  pose proof (nothing_fits_nothing_scheduled Sample.highEntropy Sample.start Sample.utc
                Sample.twoLongTasks (Sample.prefs 60 0) Sample.start (Some 30)
                Sample.start Hlong) as H.
  destruct (generateScheduleOptions Sample.highEntropy Sample.start Sample.utc
              Sample.twoLongTasks (Sample.prefs 60 0) Sample.start (Some 30) Sample.start)
    as [options |] eqn:E.
  - exists options. split; [reflexivity | apply H].
  - vm_compute in E. discriminate E.
Defined.

Lemma NoDup_map_same {A B : Type} (f : A -> B) (l : list A) (a b : A) :
  NoDup (map f l) -> In a l -> In b l -> f a = f b -> a = b.
Proof.
  induction l as [| x l IH]; [contradiction |].
  cbn [map]. intros Hnd Ha Hb Hf. inversion Hnd as [| ? ? Hnotin Hnd']; subst.
  destruct Ha as [<- | Ha], Hb as [<- | Hb].
  - reflexivity.
  - exfalso. apply Hnotin. rewrite Hf. apply in_map. exact Hb.
  - exfalso. apply Hnotin. rewrite <- Hf. apply in_map. exact Ha.
  - apply IH; assumption.
Qed.

(** X14. A task that is longer than the whole budget appears in none of
    the three options of the run (for tasks with distinct ids and
    non-negative durations): the generator leaves it out without an
    error.  The run throws only on a task whose category is a name
    that every object inherits. *)
Theorem too_long_task_is_left_out
    (entropy : Entropy) (now : Z) (zone : TimeZone) (tasks : list Task)
    (userPrefs : UserPreferences)
    (startTime : Z) (freeTimeMinutes : option Z) (date : Z) (long : Task)
    (Hids : NoDup (map id tasks))
    (Hdurations : Forall (fun t => 0 <= durationMinutes t) tasks)
    (Hin : In long tasks)
    (Hlong : budgetOrDefault freeTimeMinutes userPrefs < durationMinutes long) :
  match generateScheduleOptions entropy now zone tasks userPrefs
          startTime freeTimeMinutes date with
  | None => exists t, In t tasks /\ In (taskCategory t) inheritedProperties
  | Some options =>
      List.length options = 3%nat
      /\ Forall
           (fun o => ~ In (id long) (map ScheduledTask.taskId (ScheduleOption.tasks o)))
           options
  end.
Proof.
  apply every_option.
  intros block strategy pool uid final _ Hstart Havail Hpool _ Hfinal.
  cbn [optionOf ScheduleOption.tasks].
  destruct (single_block_trace zone strategy pool block tasks final Hpool Hfinal)
    as [ordered [placed [_ [_ [_ [Hsched [_ [_ [Hincl Hfits]]]]]]]]].
  rewrite Hsched, slots_ids. rewrite Havail in Hfits.
  intros Hid. apply in_map_iff in Hid. destruct Hid as [p [Hp Hplaced]].
  assert (Hd : Forall (fun t => 0 <= durationMinutes (task t)) placed)
    by (apply (incl_tasks_Forall (fun t => 0 <= durationMinutes t) tasks); assumption).
  assert (Heach := placedWithinRemaining_each _ _ Hd Hfits).
  rewrite Forall_forall in Heach. specialize (Heach p Hplaced).
  assert (Hsame : task p = long).
  { apply (NoDup_map_same id tasks); try assumption.
    apply Hincl, in_map, Hplaced. }
  rewrite Hsame in Heach. lia.
Qed.

Lemma too_long_task_is_left_out_witness :
  exists options,
    generateScheduleOptions Sample.highEntropy Sample.start Sample.utc
      Sample.priorityTestTasks (Sample.prefs 60 0) Sample.start (Some 45) Sample.start
    = Some options
    /\ Forall
         (fun o => ~ In "C"%string (map ScheduledTask.taskId (ScheduleOption.tasks o)))
         options.
Proof.
  assert (Hids : NoDup (map id Sample.priorityTestTasks))
    by (cbn; repeat constructor; cbn; intuition discriminate).
  assert (Hdurations : Forall (fun t => 0 <= durationMinutes t) Sample.priorityTestTasks)
    by (repeat constructor; cbn; lia).
  assert (Hin : In (Sample.mkTask "C" [] 1 1 60) Sample.priorityTestTasks)
    by (cbn; tauto).
  assert (Hlong : budgetOrDefault (Some 45) (Sample.prefs 60 0)
                  < durationMinutes (Sample.mkTask "C" [] 1 1 60)) by (cbn; lia).
  pose proof (too_long_task_is_left_out Sample.highEntropy Sample.start Sample.utc
                Sample.priorityTestTasks (Sample.prefs 60 0) Sample.start (Some 45)
                Sample.start (Sample.mkTask "C" [] 1 1 60) Hids Hdurations Hin Hlong) as H.
  destruct (generateScheduleOptions Sample.highEntropy Sample.start Sample.utc
              Sample.priorityTestTasks (Sample.prefs 60 0) Sample.start (Some 45)
              Sample.start)
    as [options |] eqn:E.
  - exists options. split; [reflexivity | apply H].
  - vm_compute in E. discriminate E.
Defined.

(** *** Scores of the options *)

Lemma fold_score_bounds (timeOfDay : TimeOfDay) (placed : list ScoredTask.t) (acc : Q) :
  Forall scoresInRange placed ->
  (acc <= fold_left (fun a t => a + getScoreForTimeOfDay t timeOfDay) placed acc
       <= acc + 100 * inject_Z (Z.of_nat (List.length placed)))%Q.
Proof.
  intros H. revert acc. induction H as [| t placed [Hm He] _ IH]; intros acc.
  - cbn [fold_left List.length]. change (inject_Z (Z.of_nat 0)) with 0%Q. lra.
  - cbn [fold_left List.length]. rewrite Nat2Z.inj_succ. unfold Z.succ.
    rewrite inject_Z_plus.
    specialize (IH (acc + getScoreForTimeOfDay t timeOfDay)%Q).
    assert (Hs : (0 <= getScoreForTimeOfDay t timeOfDay <= 100)%Q)
      by (destruct timeOfDay; assumption).
    change (inject_Z 1) with 1%Q. lra.
Qed.

(** X15. The total score of every option of a run is never negative
    and never more than 100 points per scheduled task; the total score
    of the first option is the sum of the scores, for the time of day
    of the block, of the tasks that the packing of the priority order
    places.  The run throws only on a task whose category is a name
    that every object inherits. *)
Theorem option_total_score_bounds
    (entropy : Entropy) (now : Z) (zone : TimeZone) (tasks : list Task)
    (userPrefs : UserPreferences)
    (startTime : Z) (freeTimeMinutes : option Z) (date : Z) :
  match generateScheduleOptions entropy now zone tasks userPrefs
          startTime freeTimeMinutes date with
  | None => exists t, In t tasks /\ In (taskCategory t) inheritedProperties
  | Some options =>
      Forall
        (fun o =>
           (0 <= ScheduleOption.totalScore o
              <= 100 * inject_Z (Z.of_nat (List.length (ScheduleOption.tasks o))))%Q)
        options
      /\ exists block first rest,
           dailyTimeBlocks zone userPrefs startTime freeTimeMinutes = [block]
           /\ options = first :: rest
           /\ ScheduleOption.totalScore first
              = fold_left
                  (fun acc t =>
                     (acc + getScoreForTimeOfDay t (TimeBlock.timeOfDay block))%Q)
                  (packed (TimeBlock.availableMinutes block)
                     (sortTasksByTimeOfDay (scoreTasks now tasks userPrefs)
                        (TimeBlock.timeOfDay block)))
                  0%Q
  end.
Proof.
  unfold generateScheduleOptions.
  destruct (generateDailySchedules entropy now zone tasks userPrefs
              startTime freeTimeMinutes date) as [options |] eqn:Hrun;
    [| apply (generateDailySchedules_throws _ _ _ _ _ _ _ _ Hrun)].
  split.
  - apply (every_returned_option _ entropy now zone tasks userPrefs
             startTime freeTimeMinutes date options); [| exact Hrun].
    intros block strategy pool uid final _ Hstart Havail Hpool Hrange Hfinal.
    cbn [optionOf ScheduleOption.tasks ScheduleOption.totalScore].
    destruct (single_block_trace zone strategy pool block tasks final Hpool Hfinal)
      as [ordered [placed [_ [_ [_ [Hsched [Hscore [Hin _]]]]]]]].
    rewrite Hsched, Hscore, slots_length.
    assert (Hplaced : Forall scoresInRange placed).
    { apply Forall_forall. intros t Ht.
      rewrite Forall_forall in Hrange. apply Hrange, Hin, Ht. }
    assert (Hb := fold_score_bounds (TimeBlock.timeOfDay block) placed 0 Hplaced).
    lra.
  - destruct (generateDailySchedules_Some entropy now zone tasks userPrefs
                startTime freeTimeMinutes date options Hrun)
      as [block [p2 [p3 [u1 [u2 [u3 [f1 [f2 [f3
           [Hblocks [_ [_ [_ [_ [H1 [_ [_ ->]]]]]]]]]]]]]]]]].
    exists block. do 2 eexists.
    split; [exact Hblocks |]. split; [reflexivity |].
    cbn [optionOf ScheduleOption.totalScore].
    rewrite processBlocks_priority in H1. injection H1 as <-.
    destruct (allocate_packed zone (TimeBlock.timeOfDay block)
                (sortTasksByTimeOfDay (scoreTasks now tasks userPrefs)
                   (TimeBlock.timeOfDay block))
                (blockStart block (nothingScheduled (scoreTasks now tasks userPrefs))))
      as [_ [Hscore _]].
    exact Hscore.
Qed.

(** X31. A run throws exactly when the category of some task, its first
    tag, is one of the names that every object inherits from
    [Object.prototype]; otherwise it returns three options. *)
Theorem run_throws_on_inherited_category
    (entropy : Entropy) (now : Z) (zone : TimeZone) (tasks : list Task)
    (userPrefs : UserPreferences)
    (startTime : Z) (freeTimeMinutes : option Z) (date : Z) :
  (generateScheduleOptions entropy now zone tasks userPrefs startTime freeTimeMinutes date
     = None
   <-> exists t, In t tasks /\ In (taskCategory t) inheritedProperties)
  /\ (forall options,
        generateScheduleOptions entropy now zone tasks userPrefs
          startTime freeTimeMinutes date = Some options ->
        List.length options = 3%nat).
Proof.
  unfold generateScheduleOptions. split.
  - rewrite generateDailySchedules_None.
    split; intros [t [Hin Hinh]]; exists t; (split; [exact Hin |]);
      apply inheritedProperty_In; exact Hinh.
  - intros options Hrun.
    destruct (generateDailySchedules_Some entropy now zone tasks userPrefs
                startTime freeTimeMinutes date options Hrun)
      as [? [? [? [? [? [? [? [? [? [_ [_ [_ [_ [_ [_ [_ [_ ->]]]]]]]]]]]]]]]]].
    reflexivity.
Qed.

End Runs.

(** ** ScheduleGenerator.ts: how the three orders relate *)

Section Orders.

Import ScoredTask ScheduleGenerator Described.

Lemma tasksOfCategory_all (tasks : list ScoredTask.t) (c : string) :
  Forall (fun t => categoryOf t = c) tasks -> tasksOfCategory c tasks = tasks.
Proof.
  unfold tasksOfCategory. induction 1 as [| t tasks Ht _ IH]; [reflexivity |].
  cbn [filter]. rewrite Ht, String.eqb_refl, IH. reflexivity.
Qed.

Lemma categoriesInOrder_single (tasks : list ScoredTask.t) (c : string) :
  tasks <> [] -> Forall (fun t => categoryOf t = c) tasks ->
  categoriesInOrder tasks = [c].
Proof.
  intros Hne Hall.
  assert (Hnd := categoriesInOrder_NoDup tasks).
  assert (Hin : In c (categoriesInOrder tasks)).
  { apply categoriesInOrder_In. destruct tasks as [| t tasks]; [congruence |].
    inversion Hall; subst. left. reflexivity. }
  assert (Hall' : forall x, In x (categoriesInOrder tasks) -> x = c).
  { intros x Hx. apply categoriesInOrder_In, in_map_iff in Hx.
    destruct Hx as [t [<- Ht]]. rewrite Forall_forall in Hall. apply Hall, Ht. }
  destruct (categoriesInOrder tasks) as [| a [| b l]].
  - contradiction.
  - f_equal. apply Hall'. left. reflexivity.
  - exfalso. inversion Hnd as [| ? ? Hnotin _]; subst. apply Hnotin.
    rewrite (Hall' a), (Hall' b); cbn; auto.
Qed.

Lemma roundRobin_single {T : Type} (g : list T) : roundRobin [g] = g.
Proof.
  unfold roundRobin, roundsUpTo, nthRound. cbn [concat flat_map].
  rewrite app_nil_r.
  erewrite flat_map_ext; [apply flat_map_nth_seq, Nat.le_refl |].
  intros k. apply app_nil_r.
Qed.

(** X17. When all tasks have the same category (all untagged, for
    instance) and that category is not a name that every object
    inherits, the balanced order and the grouped order are both the
    priority order of the same tasks. *)
Theorem single_category_orders_coincide
    (tasks : list ScoredTask.t) (timeOfDay : TimeOfDay) (c : string)
    (Hname : inheritedProperty c = false)
    (Hcategory : Forall (fun t => categoryOf t = c) tasks) :
  balanceTaskCategories tasks timeOfDay = Some (sortTasksByTimeOfDay tasks timeOfDay)
  /\ groupSimilarTasks tasks timeOfDay = Some (sortTasksByTimeOfDay tasks timeOfDay).
Proof.
  destruct tasks as [| t0 tasks0] eqn:E; [split; reflexivity |].
  rewrite <- E in *.
  assert (Hne : tasks <> []) by (rewrite E; discriminate).
  assert (Hcats := categoriesInOrder_single tasks c Hne Hcategory).
  assert (Hall := tasksOfCategory_all tasks c Hcategory).
  destruct (groupByCategory_total tasks) as [table Htable].
  { eapply Forall_impl; [| exact Hcategory]. cbn beta. intros t ->. exact Hname. }
  assert (Hkeys : objectKeys table = [c]).
  { destruct (groupByCategory_Some tasks table Htable) as [Hperm _].
    rewrite Hcats in Hperm. apply Permutation_length_1_inv in Hperm. exact Hperm. }
  split.
  - rewrite (balanceTaskCategories_roundRobin tasks timeOfDay table Htable).
    unfold sortedCategories.
    rewrite Hkeys. cbn [map]. rewrite Hall, roundRobin_single. reflexivity.
  - rewrite (groupSimilarTasks_blocks tasks timeOfDay table Htable), Hkeys.
    cbn [arraySort fold_right sortInsert flat_map]. rewrite Hall, app_nil_r. reflexivity.
Qed.

Lemma single_category_orders_coincide_witness :
  balanceTaskCategories
    [Sample.scored "A" [] 30 70 70; Sample.scored "B" [] 30 90 90] MORNING
  = Some (sortTasksByTimeOfDay
            [Sample.scored "A" [] 30 70 70; Sample.scored "B" [] 30 90 90] MORNING).
Proof.
  apply (single_category_orders_coincide
           [Sample.scored "A" [] 30 70 70; Sample.scored "B" [] 30 90 90] MORNING
           "untagged").
  - reflexivity.
  - repeat constructor.
Defined.

Lemma filter_flat_map {A B : Type} (p : B -> bool) (f : A -> list B) (l : list A) :
  filter p (flat_map f l) = flat_map (fun x => filter p (f x)) l.
Proof.
  induction l as [| x l IH]; [reflexivity |].
  cbn [flat_map]. rewrite filter_app, IH. reflexivity.
Qed.

Lemma sortedGroup_category (tasks : list ScoredTask.t) (timeOfDay : TimeOfDay) (c : string) :
  Forall (fun t => categoryOf t = c)
    (arraySort (byScoreDescending timeOfDay) (tasksOfCategory c tasks)).
Proof.
  apply (Permutation_Forall (arraySort_perm _ _ _)), tasksOfCategory_category.
Qed.

Lemma nthRound_other_category (tasks : list ScoredTask.t) (timeOfDay : TimeOfDay)
    (c : string) (k : nat) (cats : list string) :
  ~ In c cats ->
  filter (fun t => String.eqb (categoryOf t) c)
    (nthRound k
       (map (fun c' => arraySort (byScoreDescending timeOfDay) (tasksOfCategory c' tasks))
            cats))
  = [].
Proof.
  induction cats as [| c' cats IH]; [reflexivity |].
  cbn [In]. intros Hnotin.
  unfold nthRound in *. cbn [map flat_map]. rewrite filter_app, IH by tauto.
  rewrite app_nil_r.
  destruct (nth_error _ k) as [t |] eqn:Ek; [| reflexivity].
  apply nth_error_In in Ek.
  assert (Hc := sortedGroup_category tasks timeOfDay c').
  rewrite Forall_forall in Hc. specialize (Hc t Ek).
  cbn [filter]. rewrite Hc.
  destruct (String.eqb_spec c' c) as [-> | _]; [tauto | reflexivity].
Qed.

Lemma nthRound_own_category (tasks : list ScoredTask.t) (timeOfDay : TimeOfDay)
    (c : string) (k : nat) (cats : list string) :
  NoDup cats -> In c cats ->
  filter (fun t => String.eqb (categoryOf t) c)
    (nthRound k
       (map (fun c' => arraySort (byScoreDescending timeOfDay) (tasksOfCategory c' tasks))
            cats))
  = match nth_error (arraySort (byScoreDescending timeOfDay) (tasksOfCategory c tasks)) k with
    | Some t => [t]
    | None => []
    end.
Proof.
  induction cats as [| c' cats IH]; [contradiction |].
  intros Hnd Hin. inversion Hnd as [| ? ? Hnotin Hnd']; subst.
  change (nthRound k (map ?G (c' :: cats)))
    with (match nth_error (G c') k with Some t => [t] | None => [] end
          ++ nthRound k (map G cats)).
  rewrite filter_app.
  assert (Hc := sortedGroup_category tasks timeOfDay c').
  rewrite Forall_forall in Hc.
  destruct (String.eqb_spec c' c) as [-> | Hne].
  - rewrite nthRound_other_category by exact Hnotin. rewrite app_nil_r.
    destruct (nth_error _ k) as [t |] eqn:Ek; [| reflexivity].
    cbn [filter]. rewrite (Hc t (nth_error_In _ _ Ek)), String.eqb_refl. reflexivity.
  - destruct Hin as [E | Hin]; [contradiction |].
    rewrite (IH Hnd' Hin).
    destruct (nth_error (arraySort (byScoreDescending timeOfDay) (tasksOfCategory c' tasks)) k)
      as [t |] eqn:Ek; [| reflexivity].
    cbn [filter]. rewrite (Hc t (nth_error_In _ _ Ek)).
    destruct (String.eqb_spec c' c) as [E | _]; [contradiction | reflexivity].
Qed.

(** X18. In the balanced order the tasks of any one category keep the
    order of descending score: taken out of the balanced order they are
    exactly that category sorted, tasks of equal score in input order.
    The strategy throws only on a task whose category is a name that
    every object inherits. *)
Theorem balanced_keeps_category_order
    (tasks : list ScoredTask.t) (timeOfDay : TimeOfDay) (c : string) :
  match balanceTaskCategories tasks timeOfDay with
  | None => exists t, In t tasks /\ In (categoryOf t) inheritedProperties
  | Some ordered =>
      filter (fun t => String.eqb (categoryOf t) c) ordered
      = arraySort (byScoreDescending timeOfDay)
          (filter (fun t => String.eqb (categoryOf t) c) tasks)
      /\ StronglySorted
           (fun t1 t2 => (getScoreForTimeOfDay t2 timeOfDay
                          <= getScoreForTimeOfDay t1 timeOfDay)%Q)
           (filter (fun t => String.eqb (categoryOf t) c) ordered)
  end.
Proof.
  destruct (balanceTaskCategories tasks timeOfDay) as [ordered |] eqn:Hordered.
  2:{ apply balanceTaskCategories_None in Hordered.
      apply groupByCategory_throws, Hordered. }
  destruct (groupByCategory tasks) as [table |] eqn:Htable.
  2:{ apply (proj2 (balanceTaskCategories_None tasks timeOfDay)) in Htable.
      congruence. }
  assert (E :
    filter (fun t => String.eqb (categoryOf t) c) ordered
    = arraySort (byScoreDescending timeOfDay) (tasksOfCategory c tasks)).
  { rewrite (balanceTaskCategories_roundRobin tasks timeOfDay table Htable) in Hordered.
    injection Hordered as <-.
    unfold roundRobin, roundsUpTo. rewrite filter_flat_map.
    unfold sortedCategories at 2.
    destruct (in_dec string_dec c (objectKeys table)) as [Hin | Hnotin].
    - erewrite flat_map_ext;
        [| intros k; apply nthRound_own_category;
           [apply (groupByCategory_NoDup tasks table Htable) | exact Hin]].
      apply flat_map_nth_seq.
      assert (Hlen := length_le_concat
                        (sortedCategories (objectKeys table) tasks timeOfDay)).
      rewrite Forall_forall in Hlen. apply Hlen.
      unfold sortedCategories.
      apply (in_map (fun c' => arraySort (byScoreDescending timeOfDay)
                                 (tasksOfCategory c' tasks))), Hin.
    - erewrite flat_map_ext;
        [| intros k; apply nthRound_other_category; exact Hnotin].
      assert (Hempty : tasksOfCategory c tasks = []).
      { destruct (tasksOfCategory c tasks) as [| t l] eqn:Et; [reflexivity |].
        exfalso. apply Hnotin, (groupByCategory_keys_In tasks table c Htable), in_map_iff.
        assert (Ht : In t (tasksOfCategory c tasks)) by (rewrite Et; left; reflexivity).
        unfold tasksOfCategory in Ht. apply filter_In in Ht. destruct Ht as [Ht Hc].
        exists t. split; [apply String.eqb_eq; exact Hc | exact Ht]. }
      rewrite Hempty. cbn [arraySort fold_right].
      rewrite flat_map_concat_map. apply concat_nil_Forall, Forall_map, Forall_forall.
      reflexivity. }
  split; [exact E |].
  rewrite E.
  apply (arraySort_sorted ScoredTask.t (fun t => getScoreForTimeOfDay t timeOfDay)).
Qed.

Lemma sorted_head_is_best (timeOfDay : TimeOfDay) (group : list ScoredTask.t)
    (first : ScoredTask.t) (rest : list ScoredTask.t) :
  arraySort (byScoreDescending timeOfDay) group = first :: rest ->
  Forall (fun t => (getScoreForTimeOfDay t timeOfDay
                    <= getScoreForTimeOfDay first timeOfDay)%Q) group.
Proof.
  intros E.
  assert (Hs : StronglySorted
                 (fun t1 t2 => (getScoreForTimeOfDay t2 timeOfDay
                                <= getScoreForTimeOfDay t1 timeOfDay)%Q)
                 (arraySort (byScoreDescending timeOfDay) group))
    by apply (arraySort_sorted ScoredTask.t (fun t => getScoreForTimeOfDay t timeOfDay)).
  rewrite E in Hs. inversion Hs as [| ? ? _ Hfirst]; subst.
  apply (Permutation_Forall
           (Permutation_sym (arraySort_perm _ (byScoreDescending timeOfDay) group))).
  rewrite E. constructor; [apply Qle_refl | exact Hfirst].
Qed.

(** X19. The grouped order, like the priority order, starts with a task
    of highest score: no task of the input scores more, for the time of
    day, than the first task of [groupSimilarTasks] or of
    [sortTasksByTimeOfDay]. *)
Theorem grouped_order_starts_with_best
    (tasks : list ScoredTask.t) (timeOfDay : TimeOfDay)
    (first first' : ScoredTask.t) (rest rest' : list ScoredTask.t)
    (Hgrouped : groupSimilarTasks tasks timeOfDay = Some (first :: rest))
    (Hpriority : sortTasksByTimeOfDay tasks timeOfDay = first' :: rest') :
  Forall (fun t => (getScoreForTimeOfDay t timeOfDay
                    <= getScoreForTimeOfDay first timeOfDay)%Q) tasks
  /\ Forall (fun t => (getScoreForTimeOfDay t timeOfDay
                       <= getScoreForTimeOfDay first' timeOfDay)%Q) tasks
  /\ (getScoreForTimeOfDay first timeOfDay == getScoreForTimeOfDay first' timeOfDay)%Q.
Proof.
  set (score := fun t => getScoreForTimeOfDay t timeOfDay).
  set (best := fun c => bestScore timeOfDay (tasksOfCategory c tasks)).
  assert (Hprio : Forall (fun t => (score t <= score first')%Q) tasks)
    by (apply (sorted_head_is_best timeOfDay tasks first' rest'); exact Hpriority).
  assert (Hgroup : Forall (fun t => (score t <= score first)%Q) tasks).
  { destruct (groupByCategory tasks) as [table |] eqn:Htable.
    2:{ apply (proj2 (groupSimilarTasks_None tasks timeOfDay)) in Htable.
        congruence. }
    rewrite (groupSimilarTasks_blocks tasks timeOfDay table Htable) in Hgrouped.
    injection Hgrouped as Hgrouped.
    assert (Hperm := arraySort_perm string (fun a b => (best b - best a)%Q)
                       (objectKeys table)).
    assert (Hsorted := arraySort_sorted string best (objectKeys table)).
    fold best in Hgrouped.
    change (fun a b : string =>
              (bestScore timeOfDay (tasksOfCategory b tasks)
               - bestScore timeOfDay (tasksOfCategory a tasks))%Q)
      with (fun a b : string => (best b - best a)%Q) in Hgrouped.
    destruct (arraySort (fun a b => (best b - best a)%Q) (objectKeys table))
      as [| c1 cs] eqn:Ecats; [discriminate |].
    assert (Hc1 : In c1 (map categoryOf tasks)).
    { apply (groupByCategory_keys_In tasks table c1 Htable).
      apply (Permutation_in _ (Permutation_sym Hperm)). left. reflexivity. }
    cbn [flat_map] in Hgrouped.
    destruct (arraySort (byScoreDescending timeOfDay) (tasksOfCategory c1 tasks))
      as [| f1 r1] eqn:Eblock.
    { exfalso. apply (tasksOfCategory_nonempty tasks c1 Hc1).
      apply Permutation_nil. rewrite <- Eblock. apply Permutation_sym, arraySort_perm. }
    cbn [app] in Hgrouped. injection Hgrouped as <- _.
    assert (Hblock1 := sorted_head_is_best timeOfDay _ _ _ Eblock).
    (* the best score of the first category is reached inside it *)
    assert (Hbest1 : (best c1 <= score f1)%Q).
    { destruct (mathMax_spec (map score (tasksOfCategory c1 tasks))) as [Hin _].
      { intros E. apply map_eq_nil in E.
        apply (tasksOfCategory_nonempty tasks c1 Hc1 E). }
      apply in_map_iff in Hin. destruct Hin as [t [Ht Hin]].
      rewrite Forall_forall in Hblock1. specialize (Hblock1 t Hin).
      unfold best, bestScore. fold score. rewrite <- Ht. exact Hblock1. }
    apply Forall_forall. intros t Ht.
    assert (Hcat : In (categoryOf t) (c1 :: cs)).
    { apply (Permutation_in _ Hperm), (groupByCategory_keys_In tasks table _ Htable),
        in_map, Ht. }
    assert (Htbest : (score t <= best (categoryOf t))%Q).
    { destruct (mathMax_spec (map score (tasksOfCategory (categoryOf t) tasks)))
        as [_ Hup].
      { intros E. apply map_eq_nil in E.
        assert (Hin : In t (tasksOfCategory (categoryOf t) tasks)).
        { unfold tasksOfCategory. apply filter_In. split; [exact Ht |].
          apply String.eqb_refl. }
        rewrite E in Hin. exact Hin. }
      rewrite Forall_map, Forall_forall in Hup. apply Hup.
      unfold tasksOfCategory. apply filter_In. split; [exact Ht |].
      apply String.eqb_refl. }
    assert (Hcbest : (best (categoryOf t) <= best c1)%Q).
    { inversion Hsorted as [| ? ? _ Hfirst]; subst.
      destruct Hcat as [<- | Hcat]; [apply Qle_refl |].
      rewrite Forall_forall in Hfirst. apply Hfirst, Hcat. }
    lra. }
  split; [exact Hgroup |]. split; [exact Hprio |].
  assert (Hin1 : In first tasks).
  { apply (Permutation_in _
             (Permutation_sym (groupSimilarTasks_perm tasks _ timeOfDay Hgrouped))).
    left. reflexivity. }
  assert (Hin2 : In first' tasks).
  { apply (Permutation_in _
             (Permutation_sym (arraySort_perm _ (byScoreDescending timeOfDay) tasks))).
    unfold sortTasksByTimeOfDay in Hpriority. rewrite Hpriority. left. reflexivity. }
  rewrite Forall_forall in Hgroup, Hprio.
  apply Qle_antisym; [apply Hprio, Hin1 | apply Hgroup, Hin2].
Qed.

Lemma grouped_order_starts_with_best_witness :
  Forall (fun t => (getScoreForTimeOfDay t MORNING <= 84)%Q) Sample.fourTasks.
Proof.
  apply (grouped_order_starts_with_best Sample.fourTasks MORNING
           (Sample.scored "A1" ["A"%string] 30 84 84)
           (Sample.scored "A1" ["A"%string] 30 84 84)
           [Sample.scored "A2" ["A"%string] 30 72 72;
            Sample.scored "B1" ["B"%string] 30 66 66;
            Sample.scored "B2" ["B"%string] 30 51 51]
           [Sample.scored "A2" ["A"%string] 30 72 72;
            Sample.scored "B1" ["B"%string] 30 66 66;
            Sample.scored "B2" ["B"%string] 30 51 51]);
    reflexivity.
Defined.

End Orders.

(** ** The blocks of the preferences *)

Section PreferenceBlocks.

Import ScheduleGenerator.

Local Open Scope Z_scope.

Lemma setHours_fixedOffset (tz date h : Z) :
  setHours (fixedOffset tz) date h
  = (date + tz) / 86400000 * 86400000 + h * 3600000 - tz.
Proof. reflexivity. Qed.

Lemma addHours_fixedOffset (tz date h : Z) :
  addHours (fixedOffset tz) date h = date + h * 3600000.
Proof.
  unfold addHours, utcTime, localTime. cbn [fixedOffset offsetAtInstant offsetAtLocal]. lia.
Qed.

Lemma setHours_local_day (tz date h : Z) :
  0 <= h < 24 ->
  (setHours (fixedOffset tz) date h + tz) / 86400000 = (date + tz) / 86400000.
Proof.
  intros Hh. rewrite setHours_fixedOffset.
  replace ((date + tz) / 86400000 * 86400000 + h * 3600000 - tz + tz)
    with (h * 3600000 + (date + tz) / 86400000 * 86400000) by lia.
  rewrite Z.div_add by lia.
  rewrite Z.div_small by lia. lia.
Qed.

Lemma addHours_local_day (tz date h k : Z) :
  0 <= h -> 0 <= k -> h + k < 24 ->
  (addHours (fixedOffset tz) (setHours (fixedOffset tz) date h) k + tz) / 86400000
  = (date + tz) / 86400000.
Proof.
  intros Hh Hk Hlt. rewrite addHours_fixedOffset, setHours_fixedOffset.
  replace ((date + tz) / 86400000 * 86400000 + h * 3600000 - tz + k * 3600000 + tz)
    with ((h + k) * 3600000 + (date + tz) / 86400000 * 86400000) by lia.
  rewrite Z.div_add by lia.
  rewrite Z.div_small by lia. lia.
Qed.

(** X20. In a zone of fixed offset [tz], [prepareTimeBlocks] returns at
    most a morning block followed by an evening block, one for each
    preference value that is positive: every block has a positive
    capacity and lies, start before end, within the local day of the
    given date; a morning block ends before an evening block starts;
    and the capacities add up to the positive parts of the two
    preference values. *)
Theorem prepareTimeBlocks_blocks (tz date : Z) (userPrefs : UserPreferences) :
  let blocks := prepareTimeBlocks (fixedOffset tz) date userPrefs in
  Forall (fun b =>
            0 < TimeBlock.availableMinutes b /\
            TimeBlock.startTime b < TimeBlock.endTime b /\
            (TimeBlock.startTime b + tz) / 86400000 = (date + tz) / 86400000 /\
            (TimeBlock.endTime b + tz) / 86400000 = (date + tz) / 86400000) blocks /\
  StronglySorted (fun b1 b2 =>
                    TimeBlock.timeOfDay b1 = MORNING /\
                    TimeBlock.timeOfDay b2 = EVENING /\
                    TimeBlock.endTime b1 < TimeBlock.startTime b2) blocks /\
  fold_right Z.add 0 (map TimeBlock.availableMinutes blocks) =
    Z.max 0 (morningAvailableTime userPrefs) + Z.max 0 (eveningAvailableTime userPrefs) /\
  (existsb (fun b => match TimeBlock.timeOfDay b with MORNING => true | EVENING => false end)
     blocks = (0 <? morningAvailableTime userPrefs)) /\
  (existsb (fun b => match TimeBlock.timeOfDay b with MORNING => false | EVENING => true end)
     blocks = (0 <? eveningAvailableTime userPrefs)).
Proof.
  cbv zeta. unfold prepareTimeBlocks. rewrite setHours_same_day.
  assert (Hm1 := setHours_local_day tz date 8 ltac:(lia)).
  assert (Hm2 := addHours_local_day tz date 8 4 ltac:(lia) ltac:(lia) ltac:(lia)).
  assert (He1 := setHours_local_day tz date 17 ltac:(lia)).
  assert (He2 := addHours_local_day tz date 17 5 ltac:(lia) ltac:(lia) ltac:(lia)).
  assert (Horder : addHours (fixedOffset tz) (setHours (fixedOffset tz) date 8) 4
                   < setHours (fixedOffset tz) date 17)
    by (rewrite addHours_fixedOffset, !setHours_fixedOffset; lia).
  assert (Hmorning : setHours (fixedOffset tz) date 8
                     < addHours (fixedOffset tz) (setHours (fixedOffset tz) date 8) 4)
    by (rewrite addHours_fixedOffset; lia).
  assert (Hevening : setHours (fixedOffset tz) date 17
                     < addHours (fixedOffset tz) (setHours (fixedOffset tz) date 17) 5)
    by (rewrite addHours_fixedOffset; lia).
  destruct (Z.ltb_spec 0 (morningAvailableTime userPrefs)) as [Hm | Hm];
    destruct (Z.ltb_spec 0 (eveningAvailableTime userPrefs)) as [He | He];
    cbn [app map fold_right existsb TimeBlock.availableMinutes TimeBlock.timeOfDay orb];
    (split; [| split; [| split; [| split]]]);
    try reflexivity;
    try lia;
    repeat (constructor; cbn [TimeBlock.availableMinutes TimeBlock.startTime
                                TimeBlock.endTime TimeBlock.timeOfDay]);
    auto; try lia.
Qed.

End PreferenceBlocks.

(** ** Feedback on the productivity factors *)

Section Feedback.

Import ProductivityFeedbackService.

Local Open Scope Q_scope.

Let factorInRange (f : Q) : Prop := 0.5 <= f <= 1.5.

Lemma updatedFactor_range (current difficulty : Q) :
  0.5 <= updatedFactor current difficulty <= 1.5.
Proof.
  unfold updatedFactor. cbv zeta. split.
  - apply Q.min_glb; [lra | apply Q.le_max_l].
  - apply Q.le_min_l.
Qed.

Lemma updatedFactor_unclamped (current difficulty : Q) :
  0.5 <= current <= 1.5 -> 1 <= difficulty <= 5 ->
  updatedFactor current difficulty ==
    0.9 * current + 0.1 * (0.5 + (difficulty - 1) / 4).
Proof.
  intros Hc Hd. unfold updatedFactor, ALPHA. cbv zeta.
  assert (E : (difficulty - 1) / 4 == (difficulty - 1) * 0.25) by field.
  rewrite Q.max_r by (rewrite E; lra).
  rewrite Q.min_r by (rewrite E; lra).
  rewrite E. lra.
Qed.

(** X21. [recordTaskCompletion] writes nothing when the task has no
    completion date or there are no preferences.  Otherwise it writes
    the factor of the time of day at which the task was completed, and
    that factor lies between 0.5 and 1.5 whatever the inputs; the other
    factor, the user and the two available times are written back
    unchanged, so preferences whose factors are between 0.5 and 1.5
    stay so. *)
Theorem recordTaskCompletion_outcome (now : Z) (zone : TimeZone) (task : Task)
    (completedAt : option DateType) (prefs : option UserPreferences) :
  match recordTaskCompletion now zone task completedAt prefs with
  | None => completedAt = None \/ prefs = None
  | Some written =>
      exists (completed : DateType) (p : UserPreferences) (completionDate : Z),
        completedAt = Some completed /\ prefs = Some p /\
        DateUtils.toDate now completedAt = Some completionDate /\
        let timeOfDay := getTimeOfDay zone completionDate in
        let other := match timeOfDay with MORNING => EVENING | EVENING => MORNING end in
        TaskScoring.complexFactorFor written timeOfDay =
          updatedFactor (TaskScoring.complexFactorFor p timeOfDay) (difficulty task) /\
        factorInRange (TaskScoring.complexFactorFor written timeOfDay) /\
        TaskScoring.complexFactorFor written other = TaskScoring.complexFactorFor p other /\
        userId written = userId p /\
        morningAvailableTime written = morningAvailableTime p /\
        eveningAvailableTime written = eveningAvailableTime p /\
        (factorInRange (morningComplexFactor p) ->
         factorInRange (eveningComplexFactor p) ->
         factorInRange (morningComplexFactor written) /\
         factorInRange (eveningComplexFactor written))
  end.
Proof.
  unfold recordTaskCompletion.
  destruct completedAt as [completed |]; [| left; reflexivity].
  destruct prefs as [p |]; [| right; reflexivity].
  assert (Hdate : exists completionDate,
             DateUtils.toDate now (Some completed) = Some completionDate)
    by (destruct completed; cbn; eauto).
  destruct Hdate as [completionDate Hdate]. rewrite Hdate.
  destruct (getTimeOfDay zone completionDate) eqn:Htime;
    exists completed, p, completionDate;
    (split; [reflexivity |]); (split; [reflexivity |]); (split; [reflexivity |]);
    rewrite Htime; cbn;
    repeat split; try apply updatedFactor_range; unfold factorInRange in *; tauto.
Qed.

(** X22. When the current factor is between 0.5 and 1.5 and the
    difficulty between 1 and 5, the clamp of [recordTaskCompletion] is
    inactive: the new factor is nine tenths of the current one plus one
    tenth of the difficulty mapped to 0.5 .. 1.5.  It lies between the
    two, differs from the current factor by at most 0.1, and is the
    current factor again exactly when that already equals the mapped
    difficulty. *)
Theorem updatedFactor_moves_toward_difficulty (current difficulty : Q)
    (Hcurrent : 0.5 <= current <= 1.5)
    (Hdifficulty : 1 <= difficulty <= 5) :
  let difficultyFactor := 0.5 + (difficulty - 1) / 4 in
  updatedFactor current difficulty == 0.9 * current + 0.1 * difficultyFactor /\
  Qmin current difficultyFactor <= updatedFactor current difficulty /\
  updatedFactor current difficulty <= Qmax current difficultyFactor /\
  Qabs (updatedFactor current difficulty - current) <= 0.1 /\
  (updatedFactor current difficulty == current <-> current == difficultyFactor).
Proof.
  cbv zeta.
  assert (Hnew := updatedFactor_unclamped current difficulty Hcurrent Hdifficulty).
  assert (E : (difficulty - 1) / 4 == (difficulty - 1) * 0.25) by field.
  split; [exact Hnew |].
  rewrite Hnew.
  split; [| split; [| split]].
  - destruct (Qlt_le_dec current (0.5 + (difficulty - 1) / 4)) as [Hlt | Hle].
    + rewrite Q.min_l by lra. lra.
    + rewrite Q.min_r by lra. lra.
  - destruct (Qlt_le_dec current (0.5 + (difficulty - 1) / 4)) as [Hlt | Hle].
    + rewrite Q.max_r by lra. lra.
    + rewrite Q.max_l by lra. lra.
  - apply Qabs_Qle_condition. rewrite E. split; lra.
  - split; intros H; lra.
Qed.

Lemma updatedFactor_moves_toward_difficulty_witness :
  updatedFactor 1 5 == 0.9 * 1 + 0.1 * (0.5 + (5 - 1) / 4) /\
  Qmin 1 (0.5 + (5 - 1) / 4) <= updatedFactor 1 5 /\
  updatedFactor 1 5 <= Qmax 1 (0.5 + (5 - 1) / 4) /\
  Qabs (updatedFactor 1 5 - 1) <= 0.1 /\
  (updatedFactor 1 5 == 1 <-> 1 == 0.5 + (5 - 1) / 4).
Proof.
  apply (updatedFactor_moves_toward_difficulty 1 5); split; vm_compute; discriminate.
Defined.

End Feedback.

(** ** The date conversion of the service *)

Section DateNormalisation.

Import ScoredTask ScheduleGenerator.

Variable now : Z.

Lemma score_processed (t : ScoredTask.t) (timeOfDay : TimeOfDay) :
  getScoreForTimeOfDay (Processed.scored now t) timeOfDay = getScoreForTimeOfDay t timeOfDay.
Proof. destruct timeOfDay; reflexivity. Qed.

Lemma calculateTaskScore_processed (t : Task) (userPrefs : UserPreferences)
    (timeOfDay : TimeOfDay) :
  TaskScoring.calculateTaskScore now (ScheduleService.processTask now t) userPrefs timeOfDay
  = TaskScoring.calculateTaskScore now t userPrefs timeOfDay.
Proof.
  unfold TaskScoring.calculateTaskScore.
  cbn [ScheduleService.processTask urgency difficulty deadline].
  destruct (deadline t) as [[ms | ms |] |]; reflexivity.
Qed.

Lemma scoreTasks_processed (tasks : list Task) (userPrefs : UserPreferences) :
  scoreTasks now (map (ScheduleService.processTask now) tasks) userPrefs
  = map (Processed.scored now) (scoreTasks now tasks userPrefs).
Proof.
  unfold scoreTasks. rewrite !map_map. apply map_ext. intros t.
  unfold Processed.scored. cbn [task morningScore eveningScore].
  rewrite !calculateTaskScore_processed. reflexivity.
Qed.

Lemma sortInsert_processed (timeOfDay : TimeOfDay) (x : ScoredTask.t)
    (l : list ScoredTask.t) :
  sortInsert (byScoreDescending timeOfDay) (Processed.scored now x)
    (map (Processed.scored now) l)
  = map (Processed.scored now) (sortInsert (byScoreDescending timeOfDay) x l).
Proof.
  induction l as [| y l IH]; [reflexivity |].
  cbn [map sortInsert]. unfold byScoreDescending at 1 3.
  rewrite !score_processed.
  destruct (Qle_bool _ 0); [reflexivity |].
  cbn [map]. rewrite IH. reflexivity.
Qed.

Lemma arraySort_processed (timeOfDay : TimeOfDay) (l : list ScoredTask.t) :
  arraySort (byScoreDescending timeOfDay) (map (Processed.scored now) l)
  = map (Processed.scored now) (arraySort (byScoreDescending timeOfDay) l).
Proof.
  induction l as [| x l IH]; [reflexivity |].
  cbn [map arraySort fold_right].
  fold (arraySort (byScoreDescending timeOfDay) (map (Processed.scored now) l)).
  fold (arraySort (byScoreDescending timeOfDay) l).
  rewrite IH. apply sortInsert_processed.
Qed.

Lemma arraySet_map {A B : Type} (h : A -> B) (n : nat) (x : A) (l : list A) :
  arraySet n (h x) (map h l) = map h (arraySet n x l).
Proof.
  revert n. induction l as [| y l IH]; intros n; [destruct n; reflexivity |].
  destruct n as [| n]; cbn [map arraySet]; [reflexivity |].
  rewrite IH. reflexivity.
Qed.

Lemma arraySwap_map {A B : Type} (h : A -> B) (i j : nat) (l : list A) :
  arraySwap i j (map h l) = map h (arraySwap i j l).
Proof.
  unfold arraySwap. rewrite !nth_error_map.
  destruct (nth_error l i) as [a |]; cbn [option_map]; [| reflexivity].
  destruct (nth_error l j) as [b |]; cbn [option_map]; [| reflexivity].
  rewrite !arraySet_map. reflexivity.
Qed.

Lemma shuffleLoop_map {A B : Type} (h : A -> B) (entropy : Entropy) (i : nat)
    (l : list A) (cursor : nat) :
  shuffleLoop entropy i (map h l) cursor
  = (map h (fst (shuffleLoop entropy i l cursor)), snd (shuffleLoop entropy i l cursor)).
Proof.
  revert l cursor. induction i as [| i IH]; intros l cursor; [reflexivity |].
  cbn [shuffleLoop mathRandom]. rewrite arraySwap_map. apply IH.
Qed.

Lemma shuffleArray_map {A B : Type} (h : A -> B) (entropy : Entropy)
    (l : list A) (cursor : nat) :
  shuffleArray entropy (map h l) cursor
  = (map h (fst (shuffleArray entropy l cursor)), snd (shuffleArray entropy l cursor)).
Proof.
  unfold shuffleArray. rewrite length_map. apply shuffleLoop_map.
Qed.

Lemma addRandomnessToScores_processed (entropy : Entropy) (variance : Q)
    (l : list ScoredTask.t) (cursor : nat) :
  addRandomnessToScores entropy variance (map (Processed.scored now) l) cursor
  = (map (Processed.scored now) (fst (addRandomnessToScores entropy variance l cursor)),
     snd (addRandomnessToScores entropy variance l cursor)).
Proof.
  revert cursor. induction l as [| t l IH]; intros cursor; [reflexivity |].
  cbn [map addRandomnessToScores mathRandom]. rewrite IH.
  destruct (addRandomnessToScores entropy variance l (S (S cursor))) as [rest c].
  reflexivity.
Qed.

Lemma tableOwns_processed (c : string) (tbl : CategoryTable) :
  tableOwns c (Processed.table now tbl) = tableOwns c tbl.
Proof.
  unfold tableOwns, Processed.table. rewrite map_map. reflexivity.
Qed.

Lemma tableCreate_processed (c : string) (tbl : CategoryTable) :
  tableCreate c (Processed.table now tbl) = Processed.table now (tableCreate c tbl).
Proof.
  induction tbl as [| [c' ts] tbl IH]; [reflexivity |].
  cbn [Processed.table map tableCreate fst snd].
  destruct (listedBefore c c'); [reflexivity |].
  cbn [map fst snd]. f_equal. exact IH.
Qed.

Lemma tableAppend_processed (c : string) (t : ScoredTask.t) (tbl : CategoryTable) :
  tableAppend c (Processed.scored now t) (Processed.table now tbl)
  = Processed.table now (tableAppend c t tbl).
Proof.
  induction tbl as [| [c' ts] tbl IH]; [reflexivity |].
  cbn [Processed.table map tableAppend fst snd].
  destruct (String.eqb c' c).
  - cbn [map fst snd]. rewrite map_app. reflexivity.
  - cbn [map fst snd]. f_equal. exact IH.
Qed.

Lemma tablePush_processed (t : ScoredTask.t) (tbl : CategoryTable) :
  tablePush (categoryOf (Processed.scored now t)) (Processed.scored now t)
    (Processed.table now tbl)
  = option_map (Processed.table now) (tablePush (categoryOf t) t tbl).
Proof.
  change (categoryOf (Processed.scored now t)) with (categoryOf t).
  unfold tablePush. rewrite tableOwns_processed.
  destruct (tableOwns (categoryOf t) tbl).
  - cbn [option_map]. rewrite tableAppend_processed. reflexivity.
  - destruct (inheritedProperty (categoryOf t)); [reflexivity |].
    cbn [option_map]. rewrite tableCreate_processed, tableAppend_processed. reflexivity.
Qed.

Lemma groupByCategory_processed (l : list ScoredTask.t) :
  groupByCategory (map (Processed.scored now) l)
  = option_map (Processed.table now) (groupByCategory l).
Proof.
  unfold groupByCategory.
  change (Some (@nil (string * list ScoredTask.t)))
    with (option_map (Processed.table now) (Some [])) at 1.
  generalize (Some (@nil (string * list ScoredTask.t))) as byCategory.
  induction l as [| t l IH]; intros byCategory; [reflexivity |].
  cbn [map fold_left].
  destruct byCategory as [tbl |]; cbn [option_map].
  - rewrite tablePush_processed. apply IH.
  - apply (IH None).
Qed.

Lemma sortEachCategory_processed (timeOfDay : TimeOfDay) (tbl : CategoryTable) :
  sortEachCategory timeOfDay (Processed.table now tbl)
  = Processed.table now (sortEachCategory timeOfDay tbl).
Proof.
  unfold sortEachCategory, Processed.table. rewrite !map_map.
  apply map_ext. intros [c ts]. cbn [fst snd].
  rewrite arraySort_processed. reflexivity.
Qed.

Lemma tableGet_processed (c : string) (tbl : CategoryTable) :
  tableGet c (Processed.table now tbl) = map (Processed.scored now) (tableGet c tbl).
Proof.
  induction tbl as [| [c' ts] tbl IH]; [reflexivity |].
  cbn [Processed.table map tableGet fst snd].
  destruct (String.eqb c' c); [reflexivity | exact IH].
Qed.

Lemma tableSet_processed (c : string) (ts : list ScoredTask.t) (tbl : CategoryTable) :
  tableSet c (map (Processed.scored now) ts) (Processed.table now tbl)
  = Processed.table now (tableSet c ts tbl).
Proof.
  induction tbl as [| [c' ts'] tbl IH]; [reflexivity |].
  cbn [Processed.table map tableSet fst snd].
  destruct (String.eqb c' c); cbn [map fst snd]; [reflexivity |].
  f_equal. exact IH.
Qed.

Lemma objectKeys_processed (tbl : CategoryTable) :
  objectKeys (Processed.table now tbl) = objectKeys tbl.
Proof.
  unfold objectKeys, Processed.table. rewrite map_map. reflexivity.
Qed.

Lemma interleaveRound_processed (fuel i : nat) (st : Interleave) :
  interleaveRound fuel i (Processed.interleave now st)
  = Processed.interleave now (interleaveRound fuel i st).
Proof.
  revert i st. induction fuel as [| fuel IH]; intros i st; [reflexivity |].
  cbn [interleaveRound].
  cbn [Processed.interleave categoriesWithTasks tasksByCategory result].
  destruct (nth_error (categoriesWithTasks st) i) as [category |]; [| reflexivity].
  rewrite tableGet_processed.
  destruct (tableGet category (tasksByCategory st)) as [| first categoryTasks];
    cbn [map].
  - apply IH.
  - destruct categoryTasks as [| second categoryTasks]; cbn [map].
    + rewrite <- IH. f_equal. unfold Processed.interleave.
      cbn [categoriesWithTasks tasksByCategory result].
      rewrite map_app. rewrite <- tableSet_processed. reflexivity.
    + rewrite <- IH. f_equal. unfold Processed.interleave.
      cbn [categoriesWithTasks tasksByCategory result].
      rewrite map_app. rewrite <- tableSet_processed. reflexivity.
Qed.

Lemma interleaveLoop_processed (fuel : nat) (st : Interleave) :
  interleaveLoop fuel (Processed.interleave now st)
  = Processed.interleave now (interleaveLoop fuel st).
Proof.
  revert st. induction fuel as [| fuel IH]; intros st; [reflexivity |].
  cbn [interleaveLoop].
  change (categoriesWithTasks (Processed.interleave now st)) with (categoriesWithTasks st).
  destruct (categoriesWithTasks st) as [| c cs] eqn:Hcats; [reflexivity |].
  rewrite interleaveRound_processed. apply IH.
Qed.

Lemma balanceTaskCategories_processed (l : list ScoredTask.t) (timeOfDay : TimeOfDay) :
  balanceTaskCategories (map (Processed.scored now) l) timeOfDay
  = option_map (map (Processed.scored now)) (balanceTaskCategories l timeOfDay).
Proof.
  unfold balanceTaskCategories. cbv zeta.
  rewrite length_map, groupByCategory_processed.
  destruct (groupByCategory l) as [tbl |]; cbn [option_map]; [| reflexivity].
  rewrite sortEachCategory_processed, objectKeys_processed.
  change {| categoriesWithTasks := objectKeys (sortEachCategory timeOfDay tbl);
            tasksByCategory := Processed.table now (sortEachCategory timeOfDay tbl);
            result := [] |}
    with (Processed.interleave now
            {| categoriesWithTasks := objectKeys (sortEachCategory timeOfDay tbl);
               tasksByCategory := sortEachCategory timeOfDay tbl;
               result := [] |}).
  rewrite interleaveLoop_processed. reflexivity.
Qed.

Lemma categoryMaxScore_processed (tbl : CategoryTable) (timeOfDay : TimeOfDay)
    (c : string) :
  categoryMaxScore (Processed.table now tbl) timeOfDay c = categoryMaxScore tbl timeOfDay c.
Proof.
  unfold categoryMaxScore. rewrite tableGet_processed, map_map.
  apply f_equal, map_ext. intros t. destruct timeOfDay; reflexivity.
Qed.

Lemma groupSimilarTasks_processed (l : list ScoredTask.t) (timeOfDay : TimeOfDay) :
  groupSimilarTasks (map (Processed.scored now) l) timeOfDay
  = option_map (map (Processed.scored now)) (groupSimilarTasks l timeOfDay).
Proof.
  unfold groupSimilarTasks. cbv zeta.
  rewrite groupByCategory_processed.
  destruct (groupByCategory l) as [tbl |]; cbn [option_map]; [| reflexivity].
  rewrite sortEachCategory_processed, objectKeys_processed.
  rewrite (arraySort_ext _
             (fun a b => (categoryMaxScore tbl timeOfDay b
                          - categoryMaxScore tbl timeOfDay a)%Q))
    by (intros a b; rewrite !categoryMaxScore_processed; reflexivity).
  f_equal.
  generalize (arraySort
                (fun a b => (categoryMaxScore tbl timeOfDay b
                             - categoryMaxScore tbl timeOfDay a)%Q)
                (objectKeys tbl)) as keys.
  induction keys as [| c keys IH]; [reflexivity |].
  cbn [flat_map]. rewrite map_app, IH, tableGet_processed. reflexivity.
Qed.

Lemma orderForStrategy_processed (strategy : Strategy) (l : list ScoredTask.t)
    (timeOfDay : TimeOfDay) :
  orderForStrategy strategy (map (Processed.scored now) l) timeOfDay
  = option_map (map (Processed.scored now)) (orderForStrategy strategy l timeOfDay).
Proof.
  destruct strategy; cbn [orderForStrategy option_map].
  - f_equal. apply arraySort_processed.
  - apply balanceTaskCategories_processed.
  - apply groupSimilarTasks_processed.
Qed.

Lemma removeById_processed (taskId : string) (l : list ScoredTask.t) :
  removeById taskId (map (Processed.scored now) l)
  = map (Processed.scored now) (removeById taskId l).
Proof.
  induction l as [| t l IH]; [reflexivity |].
  cbn [map removeById].
  change (id (task (Processed.scored now t))) with (id (task t)).
  destruct (String.eqb (id (task t)) taskId); [reflexivity |].
  cbn [map]. rewrite IH. reflexivity.
Qed.

Lemma placeTask_processed (zone : TimeZone) (timeOfDay : TimeOfDay) (t : ScoredTask.t)
    (st : Allocation) :
  placeTask zone timeOfDay (Processed.scored now t) (Processed.allocation now st)
  = Processed.allocation now (placeTask zone timeOfDay t st).
Proof.
  unfold placeTask, Processed.allocation. cbv zeta.
  cbn [currentTime remainingMinutes scheduledTasks totalScore availableTasks].
  rewrite score_processed, <- removeById_processed. reflexivity.
Qed.

Lemma allocate_processed (zone : TimeZone) (timeOfDay : TimeOfDay)
    (blockTasks : list ScoredTask.t) (st : Allocation) :
  allocate zone timeOfDay (map (Processed.scored now) blockTasks)
    (Processed.allocation now st)
  = Processed.allocation now (allocate zone timeOfDay blockTasks st).
Proof.
  revert st. induction blockTasks as [| t rest IH]; intros st; [reflexivity |].
  cbn [map allocate]. rewrite placeTask_processed.
  change (durationMinutes (task (Processed.scored now t))) with (durationMinutes (task t)).
  change (remainingMinutes (Processed.allocation now st)) with (remainingMinutes st).
  change (remainingMinutes (Processed.allocation now (placeTask zone timeOfDay t st)))
    with (remainingMinutes (placeTask zone timeOfDay t st)).
  destruct (durationMinutes (task t) >? remainingMinutes st); [apply IH |].
  destruct (remainingMinutes (placeTask zone timeOfDay t st) <? 15);
    [reflexivity | apply IH].
Qed.

Lemma processBlock_processed (zone : TimeZone) (strategy : Strategy) (st : Allocation)
    (block : TimeBlock.t) :
  processBlock zone strategy (Processed.allocation now st) block
  = option_map (Processed.allocation now) (processBlock zone strategy st block).
Proof.
  unfold processBlock.
  change (availableTasks (Processed.allocation now st))
    with (map (Processed.scored now) (availableTasks st)).
  rewrite orderForStrategy_processed.
  destruct (orderForStrategy strategy (availableTasks st) (TimeBlock.timeOfDay block))
    as [ordered |]; cbn [option_map]; [| reflexivity].
  change (blockStart block (Processed.allocation now st))
    with (Processed.allocation now (blockStart block st)).
  rewrite allocate_processed. reflexivity.
Qed.

Lemma processBlocks_processed (zone : TimeZone) (strategy : Strategy)
    (pool : list ScoredTask.t) (timeBlocks : list TimeBlock.t) :
  processBlocks zone strategy (map (Processed.scored now) pool) timeBlocks
  = option_map (Processed.allocation now) (processBlocks zone strategy pool timeBlocks).
Proof.
  unfold processBlocks.
  change (Some (nothingScheduled (map (Processed.scored now) pool)))
    with (option_map (Processed.allocation now) (Some (nothingScheduled pool))).
  generalize (Some (nothingScheduled pool)) as state.
  induction timeBlocks as [| block timeBlocks IH]; intros state; [reflexivity |].
  cbn [fold_left].
  destruct state as [st |]; cbn [option_map].
  - rewrite processBlock_processed. apply IH.
  - apply (IH None).
Qed.

Lemma generatePriorityBasedSchedule_processed (entropy : Entropy) (zone : TimeZone)
    (pool : list ScoredTask.t) (timeBlocks : list TimeBlock.t)
    (userPrefs : UserPreferences) (date : Z) (strategy : Strategy) (cursor : nat) :
  generatePriorityBasedSchedule entropy now zone (map (Processed.scored now) pool)
    timeBlocks userPrefs date strategy cursor
  = generatePriorityBasedSchedule entropy now zone pool timeBlocks userPrefs date
      strategy cursor.
Proof.
  unfold generatePriorityBasedSchedule. cbv zeta.
  rewrite processBlocks_processed.
  destruct (processBlocks zone strategy pool timeBlocks); reflexivity.
Qed.

Lemma processedTasks_options (entropy : Entropy) (zone : TimeZone)
    (tasks : list Task) (userPrefs : UserPreferences)
    (startTime : Z) (freeTimeMinutes : option Z) (date : Z) :
  ScheduleService.generateScheduleOptions entropy now zone tasks userPrefs
    startTime freeTimeMinutes date
  = generateDailySchedules entropy now zone tasks userPrefs startTime freeTimeMinutes date.
Proof.
  unfold ScheduleService.generateScheduleOptions, generateScheduleOptions,
    generateDailySchedules.
  cbv zeta.
  rewrite scoreTasks_processed.
  rewrite shuffleArray_map.
  destruct (shuffleArray entropy (scoreTasks now tasks userPrefs) 0) as [sh1 c1].
  cbn [fst snd].
  rewrite addRandomnessToScores_processed.
  destruct (addRandomnessToScores entropy DEFAULT_VARIANCE sh1 c1) as [pool2 c2].
  cbn [fst snd].
  rewrite shuffleArray_map.
  destruct (shuffleArray entropy (scoreTasks now tasks userPrefs) c2) as [sh2 c3].
  cbn [fst snd].
  rewrite addRandomnessToScores_processed.
  destruct (addRandomnessToScores entropy DEFAULT_VARIANCE sh2 c3) as [pool3 c4].
  cbn [fst snd].
  rewrite generatePriorityBasedSchedule_processed.
  destruct (generatePriorityBasedSchedule entropy now zone (scoreTasks now tasks userPrefs)
              (dailyTimeBlocks zone userPrefs startTime freeTimeMinutes) userPrefs date
              priority c4) as [[option1 c5] |]; [| reflexivity].
  rewrite generatePriorityBasedSchedule_processed.
  destruct (generatePriorityBasedSchedule entropy now zone pool2
              (dailyTimeBlocks zone userPrefs startTime freeTimeMinutes) userPrefs date
              balanced c5) as [[option2 c6] |]; [| reflexivity].
  rewrite generatePriorityBasedSchedule_processed.
  reflexivity.
Qed.

(** X23. The date conversion that the service applies to the tasks
    before it calls the generator changes no option: the service
    returns, and saves, exactly the options that the generator builds
    from the tasks as loaded - the same identifiers, slots and total
    scores - whatever representation the deadlines have. *)
Theorem service_options_are_generator_options (entropy : Entropy) (zone : TimeZone)
    (tasks : list Task) (userPrefs : UserPreferences)
    (startTime : Z) (freeTimeMinutes : option Z) (date : Z) :
  ScheduleService.generateScheduleOptions entropy now zone tasks userPrefs
    startTime freeTimeMinutes date
  = ScheduleGenerator.generateScheduleOptions entropy now zone tasks userPrefs
      startTime freeTimeMinutes date.
Proof. apply processedTasks_options. Qed.

End DateNormalisation.

(** ** The schedule selection screen *)

Section Screen.

Import ScoredTask ScheduleGenerator ScheduleSelectionScreen.

Local Open Scope Z_scope.

Lemma freeTimeFromRoute_nonzero (param : option Z) : freeTimeFromRoute param <> 0.
Proof.
  unfold freeTimeFromRoute. destruct param as [m |]; [| discriminate].
  destruct (Z.eqb_spec m 0); [discriminate | assumption].
Qed.

Lemma budgetOrDefault_explicit (m : Z) (userPrefs : UserPreferences) :
  m <> 0 -> budgetOrDefault (Some m) userPrefs = m.
Proof.
  intros Hm. unfold budgetOrDefault.
  destruct (Z.eqb_spec m 0); [contradiction | reflexivity].
Qed.

Lemma scoreTasks_factors (now : Z) (tasks : list Task) (p1 p2 : UserPreferences) :
  morningComplexFactor p1 = morningComplexFactor p2 ->
  eveningComplexFactor p1 = eveningComplexFactor p2 ->
  scoreTasks now tasks p1 = scoreTasks now tasks p2.
Proof.
  intros Hm He. unfold scoreTasks. apply map_ext. intros t.
  unfold TaskScoring.calculateTaskScore, TaskScoring.calculateCognitiveScore,
    TaskScoring.complexFactorFor.
  rewrite Hm, He. reflexivity.
Qed.

Lemma generateDailySchedules_prefs (entropy : Entropy) (now : Z) (zone : TimeZone)
    (tasks : list Task)
    (p1 p2 : UserPreferences) (startTime : Z) (freeTimeMinutes : option Z) (date : Z) :
  userId p1 = userId p2 ->
  morningComplexFactor p1 = morningComplexFactor p2 ->
  eveningComplexFactor p1 = eveningComplexFactor p2 ->
  budgetOrDefault freeTimeMinutes p1 = budgetOrDefault freeTimeMinutes p2 ->
  generateDailySchedules entropy now zone tasks p1 startTime freeTimeMinutes date
  = generateDailySchedules entropy now zone tasks p2 startTime freeTimeMinutes date.
Proof.
  intros Hu Hm He Hb.
  unfold generateDailySchedules, dailyTimeBlocks, generatePriorityBasedSchedule.
  rewrite (scoreTasks_factors now tasks p1 p2 Hm He), Hb, Hu. reflexivity.
Qed.

(** X24. The options that the screen loads do not depend on the
    available times of the preferences: the budget the screen passes,
    the route parameter or 60, is never 0, so the fallback of the
    generator to the sum of the available times is not taken, and
    preferences that differ only in their available times give the
    same options. *)
Theorem screen_options_ignore_available_times (entropy : Entropy) (now : Z)
    (zone : TimeZone)
    (userTasks : list Task) (userPrefs : UserPreferences) (param : option Z)
    (morning evening : Z) :
  loadScheduleOptions entropy now zone userTasks userPrefs param
  = loadScheduleOptions entropy now zone userTasks
      {| userId := userId userPrefs;
         morningComplexFactor := morningComplexFactor userPrefs;
         eveningComplexFactor := eveningComplexFactor userPrefs;
         morningAvailableTime := morning;
         eveningAvailableTime := evening |}
      param
  /\ dailyTimeBlocks zone userPrefs now (Some (freeTimeFromRoute param))
     = prepareTimeBlocksFromStartTime zone now (freeTimeFromRoute param).
Proof.
  assert (Hnz := freeTimeFromRoute_nonzero param).
  split.
  - unfold loadScheduleOptions. rewrite !processedTasks_options.
    apply generateDailySchedules_prefs; try reflexivity.
    rewrite !budgetOrDefault_explicit by exact Hnz. reflexivity.
  - unfold dailyTimeBlocks. rewrite budgetOrDefault_explicit by exact Hnz. reflexivity.
Qed.

Lemma calculateTotalDuration_slots (details : string -> option Task) (zone : TimeZone)
    (start : Z) (placed : list ScoredTask.t) (acc : Z) :
  Forall (fun t => 0 <= durationMinutes (task t) /\
                   forall t', details (id (task t)) = Some t' ->
                              durationMinutes t' = durationMinutes (task t)) placed ->
  let total :=
    fold_left
      (fun total scheduledTask =>
         match details (ScheduledTask.taskId scheduledTask) with
         | Some task => total + durationMinutes task
         | None => total
         end)
      (Described.slots zone start placed) acc in
  acc <= total <= acc + Described.totalDuration placed.
Proof.
  intros Hplaced. revert start acc.
  induction Hplaced as [| t placed [Hd Hsame] _ IH]; intros start acc; cbv zeta.
  - cbn. lia.
  - cbn [Described.slots fold_left ScheduledTask.taskId Described.totalDuration fold_right map].
    fold (Described.totalDuration placed).
    destruct (details (id (task t))) as [t' |] eqn:Hdetail.
    + rewrite (Hsame t' eq_refl).
      specialize (IH (addMinutes zone start (durationMinutes (task t)))
                     (acc + durationMinutes (task t))).
      cbv zeta in IH. lia.
    + specialize (IH (addMinutes zone start (durationMinutes (task t))) acc).
      cbv zeta in IH. lia.
Qed.

Lemma calculateTotalDuration_block (details : string -> option Task)
    (userTasks : list Task) (zone : TimeZone) (strategy : Strategy)
    (pool : list ScoredTask.t) (block : TimeBlock.t) (final : Allocation) :
  Forall (fun t => 0 <= durationMinutes t) userTasks ->
  (forall t, In t userTasks ->
     forall t', details (id t) = Some t' -> durationMinutes t' = durationMinutes t) ->
  0 <= TimeBlock.availableMinutes block ->
  Permutation userTasks (map task pool) ->
  processBlocks zone strategy pool [block] = Some final ->
  0 <= calculateTotalDuration details (scheduledTasks final)
    <= TimeBlock.availableMinutes block.
Proof.
  intros Hdur Hdetails Havail Hpool Hfinal.
  destruct (single_block_trace zone strategy pool block userTasks final Hpool Hfinal)
    as [ordered [placed [_ [_ [_ [Hsched [_ [_ [Hincl Hfits]]]]]]]]].
  rewrite Hsched. unfold calculateTotalDuration.
  assert (Hplaced :
            Forall (fun t => 0 <= durationMinutes (task t) /\
                             forall t', details (id (task t)) = Some t' ->
                                        durationMinutes t' = durationMinutes (task t))
                   placed).
  { apply Forall_forall. intros t Ht.
    assert (Hin : In (task t) userTasks) by (apply Hincl, in_map, Ht).
    split; [| apply Hdetails; exact Hin].
    rewrite Forall_forall in Hdur. apply Hdur, Hin. }
  assert (Hbound := calculateTotalDuration_slots details zone (TimeBlock.startTime block)
                      placed 0 Hplaced).
  cbv zeta in Hbound.
  assert (Hle := placedWithinRemaining_total
                   (TimeBlock.availableMinutes block) placed Havail Hfits).
  lia.
Qed.

(** X25. On the screen, the total duration shown for each of the three
    options is never more than the free time that was asked for (the
    route parameter, or 60 minutes when it is absent or 0) and never
    negative, provided that the free time and the task durations are
    not negative and that the task details the screen looked up carry
    the durations of the tasks that were scheduled.  No options are
    loaded only when the category of a task is a name that every
    object inherits. *)
Theorem screen_total_duration_within_budget (entropy : Entropy) (now : Z)
    (zone : TimeZone)
    (userTasks : list Task) (userPrefs : UserPreferences) (param : option Z)
    (details : string -> option Task)
    (Hbudget : 0 <= freeTimeFromRoute param)
    (Hdurations : Forall (fun t => 0 <= durationMinutes t) userTasks)
    (Hdetails : forall t, In t userTasks ->
                  forall t', details (id t) = Some t' ->
                             durationMinutes t' = durationMinutes t) :
  match loadScheduleOptions entropy now zone userTasks userPrefs param with
  | None =>
      exists t, In t userTasks
                /\ In (Described.taskCategory t) inheritedProperties
  | Some options =>
      List.length options = 3%nat
      /\ Forall (fun option =>
                   0 <= calculateTotalDuration details (ScheduleOption.tasks option)
                     <= freeTimeFromRoute param)
                options
  end.
Proof.
  unfold loadScheduleOptions. rewrite processedTasks_options.
  apply every_option.
  intros block strategy pool uid final _ _ Havail Hpool _ Hfinal.
  cbn [Described.optionOf ScheduleOption.tasks].
  rewrite (budgetOrDefault_explicit _ _ (freeTimeFromRoute_nonzero param)) in Havail.
  rewrite <- Havail in *.
  apply (calculateTotalDuration_block details userTasks zone strategy pool block final);
    assumption.
Qed.

Lemma screen_total_duration_within_budget_witness :
  exists options,
    loadScheduleOptions Sample.zeroEntropy Sample.start Sample.utc
      (map task Sample.fourTasks) (Sample.prefs 1 1) None = Some options
    /\ Forall (fun option =>
                 0 <= calculateTotalDuration
                        (fun taskId =>
                           find (fun t => String.eqb (id t) taskId)
                                (map task Sample.fourTasks))
                        (ScheduleOption.tasks option)
                   <= freeTimeFromRoute None)
              options.
Proof.
  assert (Hbudget : 0 <= freeTimeFromRoute None) by (vm_compute; discriminate).
  assert (Hdurations : Forall (fun t => 0 <= durationMinutes t) (map task Sample.fourTasks))
    by (repeat constructor; vm_compute; discriminate).
  assert (Hdetails :
    forall t, In t (map task Sample.fourTasks) ->
      forall t',
        find (fun t0 => String.eqb (id t0) (id t)) (map task Sample.fourTasks) = Some t' ->
        durationMinutes t' = durationMinutes t).
  { intros t Ht t' Hfind.
    cbn in Ht. decompose [or] Ht; subst; try contradiction;
      vm_compute in Hfind; injection Hfind as <-; reflexivity. }
  pose proof (screen_total_duration_within_budget Sample.zeroEntropy Sample.start
                Sample.utc (map task Sample.fourTasks) (Sample.prefs 1 1) None
                (fun taskId =>
                   find (fun t => String.eqb (id t) taskId) (map task Sample.fourTasks))
                Hbudget Hdurations Hdetails) as H.
  destruct (loadScheduleOptions Sample.zeroEntropy Sample.start Sample.utc
              (map task Sample.fourTasks) (Sample.prefs 1 1) None)
    as [options |] eqn:E.
  - exists options. split; [reflexivity | apply H].
  - vm_compute in E. discriminate E.
Defined.

Lemma markSelected_nth (index i : nat) (options : list ScheduleOption.t)
    (k : nat) (option' : ScheduleOption.t) :
  nth_error (markSelected index i options) k = Some option' ->
  ScheduleOption.selected option' = Nat.eqb (i + k) index.
Proof.
  revert i k. induction options as [| option options IH]; intros i k Hk.
  - destruct k; discriminate.
  - destruct k as [| k]; cbn [markSelected nth_error] in Hk.
    + injection Hk as <-. cbn [ScheduleOption.selected].
      rewrite Nat.add_0_r. reflexivity.
    + apply IH in Hk. rewrite Hk. f_equal. lia.
Qed.

Lemma markSelected_fields (index i : nat) (options : list ScheduleOption.t) :
  Forall2
    (fun option option' =>
       ScheduleOption.id option' = ScheduleOption.id option /\
       ScheduleOption.userId option' = ScheduleOption.userId option /\
       ScheduleOption.date option' = ScheduleOption.date option /\
       ScheduleOption.tasks option' = ScheduleOption.tasks option /\
       ScheduleOption.totalScore option' = ScheduleOption.totalScore option /\
       ScheduleOption.createdAt option' = ScheduleOption.createdAt option)
    options (markSelected index i options).
Proof.
  revert i. induction options as [| option options IH]; intros i; cbn [markSelected].
  - constructor.
  - constructor; [cbn; repeat split | apply IH].
Qed.

Lemma markSelected_count (index i : nat) (options : list ScheduleOption.t) :
  List.length (filter ScheduleOption.selected (markSelected index i options))
  = if (Nat.leb i index && Nat.ltb index (i + List.length options))%bool
    then 1%nat else 0%nat.
Proof.
  revert i. induction options as [| option options IH]; intros i.
  - cbn [markSelected filter List.length].
    destruct (Nat.leb_spec i index), (Nat.ltb_spec index (i + 0)); cbn; try reflexivity; lia.
  - cbn [markSelected filter List.length ScheduleOption.selected].
    destruct (Nat.eqb_spec i index) as [Heq | Hne]; cbn [List.length]; rewrite IH.
    + destruct (Nat.leb_spec (S i) index), (Nat.ltb_spec index (S i + List.length options)),
        (Nat.leb_spec i index), (Nat.ltb_spec index (i + S (List.length options)));
        cbn; try reflexivity; lia.
    + destruct (Nat.leb_spec (S i) index), (Nat.ltb_spec index (S i + List.length options)),
        (Nat.leb_spec i index), (Nat.ltb_spec index (i + S (List.length options)));
        cbn; try reflexivity; lia.
Qed.

(** X26. After [handleSelectSchedule] for an index that has an option,
    exactly one option of the list on the screen is selected, the one
    at that index, whatever was selected before; the identifiers, the
    slots, the scores and the dates of all options are as they were.
    For an index without an option the list is left as it was. *)
Theorem handleSelectSchedule_selects_exactly_one (index : nat)
    (scheduleOptions : list ScheduleOption.t) :
  let updated := handleSelectSchedule index scheduleOptions in
  match nth_error scheduleOptions index with
  | Some _ =>
      List.length (filter ScheduleOption.selected updated) = 1%nat /\
      (forall i option',
         nth_error updated i = Some option' ->
         ScheduleOption.selected option' = Nat.eqb i index) /\
      Forall2
        (fun option option' =>
           ScheduleOption.id option' = ScheduleOption.id option /\
           ScheduleOption.userId option' = ScheduleOption.userId option /\
           ScheduleOption.date option' = ScheduleOption.date option /\
           ScheduleOption.tasks option' = ScheduleOption.tasks option /\
           ScheduleOption.totalScore option' = ScheduleOption.totalScore option /\
           ScheduleOption.createdAt option' = ScheduleOption.createdAt option)
        scheduleOptions updated
  | None => updated = scheduleOptions
  end.
Proof.
  cbv zeta. unfold handleSelectSchedule.
  destruct (nth_error scheduleOptions index) as [chosen |] eqn:Hchosen; [| reflexivity].
  assert (Hindex : (index < List.length scheduleOptions)%nat)
    by (apply nth_error_Some; congruence).
  split; [| split].
  - rewrite markSelected_count.
    destruct (Nat.leb_spec 0 index), (Nat.ltb_spec index (0 + List.length scheduleOptions));
      cbn; try reflexivity; lia.
  - intros i option' Hi. exact (markSelected_nth index 0 scheduleOptions i option' Hi).
  - apply markSelected_fields.
Qed.

End Screen.

(** ** Updating a saved schedule *)

Section SavedSchedules.

Import ScheduleService.

Local Open Scope Z_scope.

Lemma arraySet_length {T : Type} (n : nat) (x : T) (l : list T) :
  List.length (arraySet n x l) = List.length l.
Proof.
  revert n. induction l as [| y l IH]; intros n; [destruct n; reflexivity |].
  destruct n as [| n]; cbn [arraySet List.length]; [reflexivity |].
  rewrite IH. reflexivity.
Qed.

Lemma map_arraySet_same {A B : Type} (h : A -> B) (n : nat) (x old : A) (l : list A) :
  nth_error l n = Some old -> h x = h old -> map h (arraySet n x l) = map h l.
Proof.
  revert n. induction l as [| y l IH]; intros n Hn Hx; [destruct n; discriminate |].
  destruct n as [| n]; cbn [arraySet nth_error map] in *.
  - injection Hn as ->. rewrite Hx. reflexivity.
  - rewrite (IH n Hn Hx). reflexivity.
Qed.

Lemma arraySet_twice {T : Type} (n : nat) (x y : T) (l : list T) :
  arraySet n x (arraySet n y l) = arraySet n x l.
Proof.
  revert n. induction l as [| z l IH]; intros n; [destruct n; reflexivity |].
  destruct n as [| n]; cbn [arraySet]; [reflexivity |].
  rewrite IH. reflexivity.
Qed.

Lemma index_in_range (taskIndex : Z) (l : list ScheduledTask.t) :
  0 <= taskIndex < Z.of_nat (List.length l) ->
  exists old, nth_error l (Z.to_nat taskIndex) = Some old.
Proof.
  intros Hrange.
  destruct (nth_error l (Z.to_nat taskIndex)) as [old |] eqn:Hnth; [eauto |].
  apply nth_error_None in Hnth. lia.
Qed.

Lemma updateScheduledTask_written (schedule : ScheduleOption.t) (taskIndex : Z)
    (taskUpdate : ScheduledTaskUpdate) :
  (exists old,
     0 <= taskIndex < Z.of_nat (List.length (ScheduleOption.tasks schedule)) /\
     nth_error (ScheduleOption.tasks schedule) (Z.to_nat taskIndex) = Some old /\
     updateScheduledTask (Some schedule) taskIndex taskUpdate
     = inr (arraySet (Z.to_nat taskIndex) (mergeUpdate old taskUpdate)
              (ScheduleOption.tasks schedule)))
  \/ ((taskIndex < 0 \/ Z.of_nat (List.length (ScheduleOption.tasks schedule)) <= taskIndex) /\
      updateScheduledTask (Some schedule) taskIndex taskUpdate = inl TaskIndexOutOfRange).
Proof.
  unfold updateScheduledTask.
  destruct (Z.leb_spec 0 taskIndex) as [Hlow | Hlow];
    destruct (Z.ltb_spec taskIndex (Z.of_nat (List.length (ScheduleOption.tasks schedule))))
      as [Hhigh | Hhigh];
    cbn [andb]; try (right; split; [lia | reflexivity]).
  left.
  destruct (index_in_range taskIndex (ScheduleOption.tasks schedule) ltac:(lia))
    as [old Hold].
  exists old. rewrite Hold. repeat split; try assumption.
Qed.

(** X27. [updateScheduledTask] on a schedule that exists: for an index
    from 0 to the number of slots minus one it writes back an array of
    the same length in which the slot at the index is the old slot
    with the given fields replaced and every other slot is unchanged;
    for any other index it throws 'Task index out of range' and writes
    nothing.  On a schedule that does not exist it throws 'Schedule not
    found'. *)
Theorem updateScheduledTask_outcome (schedule : ScheduleOption.t) (taskIndex : Z)
    (taskUpdate : ScheduledTaskUpdate) :
  updateScheduledTask None taskIndex taskUpdate = inl ScheduleNotFound /\
  match updateScheduledTask (Some schedule) taskIndex taskUpdate with
  | inr written =>
      0 <= taskIndex < Z.of_nat (List.length (ScheduleOption.tasks schedule)) /\
      List.length written = List.length (ScheduleOption.tasks schedule) /\
      (exists old,
         nth_error (ScheduleOption.tasks schedule) (Z.to_nat taskIndex) = Some old /\
         nth_error written (Z.to_nat taskIndex) = Some (mergeUpdate old taskUpdate)) /\
      (forall i, i <> Z.to_nat taskIndex ->
                 nth_error written i = nth_error (ScheduleOption.tasks schedule) i)
  | inl thrown =>
      thrown = TaskIndexOutOfRange /\
      (taskIndex < 0 \/ Z.of_nat (List.length (ScheduleOption.tasks schedule)) <= taskIndex)
  end.
Proof.
  split; [reflexivity |].
  destruct (updateScheduledTask_written schedule taskIndex taskUpdate)
    as [[old [Hrange [Hold ->]]] | [Hrange ->]].
  - split; [exact Hrange |].
    split; [apply arraySet_length |].
    split.
    + exists old. split; [exact Hold |].
      apply (nth_error_arraySet_same _ old). exact Hold.
    + intros i Hi. apply nth_error_arraySet_other. congruence.
  - split; [reflexivity | exact Hrange].
Qed.

(** X28. [completeScheduledTask] on a schedule that exists, for an
    index that has a slot: the array written back has the same task
    ids, start times and end times as before, the slot at the index is
    completed and no other slot has changed, and the id handed to
    [TaskService.completeTask] is the task id of that slot; completing
    the same slot of the written schedule again writes the same array.
    For any other index it throws 'Task index out of range'. *)
Theorem completeScheduledTask_outcome (schedule : ScheduleOption.t) (taskIndex : Z) :
  match completeScheduledTask (Some schedule) taskIndex with
  | inr (written, completedTaskId) =>
      map ScheduledTask.taskId written
        = map ScheduledTask.taskId (ScheduleOption.tasks schedule) /\
      map ScheduledTask.startTime written
        = map ScheduledTask.startTime (ScheduleOption.tasks schedule) /\
      map ScheduledTask.endTime written
        = map ScheduledTask.endTime (ScheduleOption.tasks schedule) /\
      (exists old completed,
         nth_error (ScheduleOption.tasks schedule) (Z.to_nat taskIndex) = Some old /\
         nth_error written (Z.to_nat taskIndex) = Some completed /\
         ScheduledTask.completed completed = true /\
         completedTaskId = ScheduledTask.taskId old) /\
      (forall i, i <> Z.to_nat taskIndex ->
                 nth_error written i = nth_error (ScheduleOption.tasks schedule) i) /\
      completeScheduledTask
        (Some {| ScheduleOption.id := ScheduleOption.id schedule;
                 ScheduleOption.userId := ScheduleOption.userId schedule;
                 ScheduleOption.date := ScheduleOption.date schedule;
                 ScheduleOption.tasks := written;
                 ScheduleOption.totalScore := ScheduleOption.totalScore schedule;
                 ScheduleOption.selected := ScheduleOption.selected schedule;
                 ScheduleOption.createdAt := ScheduleOption.createdAt schedule |})
        taskIndex
      = inr (written, completedTaskId)
  | inl thrown =>
      thrown = TaskIndexOutOfRange /\
      (taskIndex < 0 \/ Z.of_nat (List.length (ScheduleOption.tasks schedule)) <= taskIndex)
  end.
Proof.
  unfold completeScheduledTask at 1.
  destruct (updateScheduledTask_written schedule taskIndex
              {| newTaskId := None; newStartTime := None;
                 newEndTime := None; newCompleted := Some true |})
    as [[old [Hrange [Hold Hwritten]]] | [Hrange _]].
  - rewrite Hwritten, Hold.
    replace ((0 <=? taskIndex)
             && (taskIndex <? Z.of_nat (List.length (ScheduleOption.tasks schedule))))%bool
      with true
      by (symmetry; apply andb_true_intro; split;
          [apply Z.leb_le | apply Z.ltb_lt]; lia).
    set (completed := mergeUpdate old
                        {| newTaskId := None; newStartTime := None;
                           newEndTime := None; newCompleted := Some true |}).
    set (written := arraySet (Z.to_nat taskIndex) completed (ScheduleOption.tasks schedule)).
    assert (Hcompleted : nth_error written (Z.to_nat taskIndex) = Some completed)
      by (apply (nth_error_arraySet_same _ old); exact Hold).
    split; [apply (map_arraySet_same _ _ _ old); [exact Hold | reflexivity] |].
    split; [apply (map_arraySet_same _ _ _ old); [exact Hold | reflexivity] |].
    split; [apply (map_arraySet_same _ _ _ old); [exact Hold | reflexivity] |].
    split; [exists old, completed; repeat split; assumption |].
    split; [intros i Hi; apply nth_error_arraySet_other; congruence |].
    set (schedule' := {| ScheduleOption.id := ScheduleOption.id schedule;
                         ScheduleOption.userId := ScheduleOption.userId schedule;
                         ScheduleOption.date := ScheduleOption.date schedule;
                         ScheduleOption.tasks := written;
                         ScheduleOption.totalScore := ScheduleOption.totalScore schedule;
                         ScheduleOption.selected := ScheduleOption.selected schedule;
                         ScheduleOption.createdAt := ScheduleOption.createdAt schedule |}).
    assert (Hlength : List.length (ScheduleOption.tasks schedule')
                      = List.length (ScheduleOption.tasks schedule))
      by apply arraySet_length.
    destruct (updateScheduledTask_written schedule' taskIndex
                {| newTaskId := None; newStartTime := None;
                   newEndTime := None; newCompleted := Some true |})
      as [[old' [Hrange' [Hold' Hwritten']]] | [Hrange' _]]; [| lia].
    unfold completeScheduledTask. rewrite Hwritten', Hold'.
    replace ((0 <=? taskIndex)
             && (taskIndex <? Z.of_nat (List.length (ScheduleOption.tasks schedule'))))%bool
      with true
      by (symmetry; apply andb_true_intro; split;
          [apply Z.leb_le | apply Z.ltb_lt]; lia).
    assert (Hsame : old' = completed).
    { change (ScheduleOption.tasks schedule') with written in Hold'. congruence. }
    subst old'.
    change (ScheduleOption.tasks schedule') with written.
    unfold written. rewrite arraySet_twice. reflexivity.
  - destruct (Z.leb_spec 0 taskIndex) as [Hlow | Hlow];
      destruct (Z.ltb_spec taskIndex (Z.of_nat (List.length (ScheduleOption.tasks schedule))))
        as [Hhigh | Hhigh];
      cbn [andb]; try (split; [reflexivity | lia]).
    lia.
Qed.

End SavedSchedules.
